(** * CSV ingestion and conversion-integrity pipeline of the file processor

    A shallow embedding of [main.py]: encoding detection, the resilient
    CSV reader, the numeric precision normaliser, the conversion validator
    and the orchestrator [process_csv_file], followed by the properties the
    specification states about them.

    How the program is modelled:
    - the file system is a finite map from paths to file contents; opening
      or unlinking a file fails exactly when the map has no such path;
    - the logging and presentation sink is a chronological trace of events,
      which also records every call of [pd.read_csv].  The pipeline is given
      twice: over a console that renders every line, and, in the module
      [Rich], over a console that may refuse a line with MarkupError, as
      rich does for a closing tag that matches no open tag; the first is
      the second at the console [quiet];
    - exceptions are values, and a step of the program is a function from
      the world to a result or an exception, and the world it leaves;
    - the libraries the program calls (chardet's statistics, the pandas
      parsers, the spreadsheet writer, rich's markup) are the fields of the
      classes [Libs] and [Console], functions of what they are given; every
      theorem holds for every instance of the classes;
    - a float64 is NaN, an infinity or the rational number it denotes;
      conversions and subtraction round to the nearest float64, ties to
      even;
    - integer columns are int64 or uint64, and the cast [astype(int)] wraps
      modulo [2 ^ 64]. *)

From Stdlib Require Import ZArith QArith Qabs List String Ascii Bool Lia.
From stdpp Require Import base option list strings gmap pretty.

Local Open Scope string_scope.
Local Open Scope Z_scope.
Local Open Scope list_scope.

(** ** Exceptions *)

(** The exception classes the program tells apart, or that its library
    calls raise on the paths modelled here. *)
Inductive exn : Type :=
  | UnicodeDecodeError              (* also covers its base class UnicodeError *)
  | ParserError (msg : string)      (* pd.errors.ParserError, with str(e) *)
  | EmptyDataError                  (* pd.errors.EmptyDataError *)
  | FileNotFoundError
  | KeyError (key : string)
  | IndexError
  | AttributeError
  | IntCastingNaNError              (* a ValueError: astype(int) on NaN or inf *)
  | ValueError (msg : string)
  | TypeError (msg : string)
  | MarkupError (msg : string)      (* rich.errors.MarkupError, with str(e) *)
  | OtherError (msg : string).

(** [except (ValueError, TypeError)]: the class test of the handler in
    [preserve_numeric_precision].  UnicodeError, ParserError,
    EmptyDataError and IntCastingNaNError all derive from ValueError. *)
Definition is_ValueError_or_TypeError (e : exn) : bool :=
  match e with
  | UnicodeDecodeError | ParserError _ | EmptyDataError
  | IntCastingNaNError | ValueError _ | TypeError _ => true
  | FileNotFoundError | KeyError _ | IndexError | AttributeError
  | MarkupError _ | OtherError _ => false
  end.

(** A computation that returns or raises. *)
Definition Exc (A : Type) : Type := exn + A.

Definition exc_bind {A B} (m : Exc A) (k : A -> Exc B) : Exc B :=
  match m with
  | inl e => inl e
  | inr a => k a
  end.

Notation "'let!' x ':=' m 'in' k" := (exc_bind m (fun x => k))
  (at level 10, x name, m at level 100, k at level 200).

(** ** Scalars, columns and tables (the pandas data model) *)

(** A float64: NaN, an infinity, or a finite value, which is modelled by
    the rational number it denotes.  The operations below round their
    result to the nearest float64, as the hardware does. *)
Inductive f64 : Type :=
  | Fnan
  | Finf (neg : bool)
  | Ffin (q : Q).

(** [num / den] rounded to the nearest integer, ties to the even one;
    [num] is not negative and [den] is positive. *)
Definition round_half_even (num den : Z) : Z :=
  let q := num / den in
  let r := num mod den in
  match 2 * r ?= den with
  | Lt => q
  | Gt => q + 1
  | Eq => if Z.even q then q else q + 1
  end.

(** [a / (d * 2 ^ e)] as a fraction of two integers. *)
Definition scaled (a d e : Z) : Z * Z :=
  if 0 <=? e then (a, d * 2 ^ e) else (a * 2 ^ (- e), d).

(** The [e] with [2 ^ e <= a / d < 2 ^ (e + 1)], for positive [a] and [d]. *)
Definition floor_log2 (a d : Z) : Z :=
  let e0 := Z.log2 a - Z.log2 d in
  let '(n, m) := scaled a d e0 in
  if n <? m then e0 - 1 else e0.

(** The float64 nearest to a rational, ties to even (IEEE 754 binary64:
    53 significant bits, least exponent -1074 with gradual underflow); an
    infinity when the rounded magnitude reaches [2 ^ 1024]. *)
Definition round64 (q : Q) : f64 :=
  let n := Qnum q in
  let d := Z.pos (Qden q) in
  if n =? 0 then Ffin 0
  else
    let a := Z.abs n in
    let e := floor_log2 a d in
    let u := Z.max (e - 52) (- 1074) in
    let '(num, den) := scaled a d u in
    let m := round_half_even num den in
    let s := if n <? 0 then - 1 else 1 in
    if 0 <=? u then
      if 2 ^ 1024 <=? m * 2 ^ u then Finf (n <? 0)
      else Ffin (inject_Z (s * m * 2 ^ u))
    else Ffin (Qred (Qmake (s * m) (Z.to_pos (2 ^ (- u))))).

(** What one cell of a table holds. *)
Inductive value : Type :=
  | VNone
  | VFloat (f : f64)
  | VInt (z : Z)
  | VBool (b : bool)
  | VStr (s : string).

Inductive dtype : Type :=
  | int64 | uint64 | float64 | bool_ | object_ | datetime64.

Definition dtype_eqb (a b : dtype) : bool :=
  match a, b with
  | int64, int64 | uint64, uint64 | float64, float64 | bool_, bool_
  | object_, object_ | datetime64, datetime64 => true
  | _, _ => false
  end.

(** [pd.api.types.is_numeric_dtype] on a column dtype. *)
Definition is_numeric_dtype (d : dtype) : bool :=
  match d with
  | int64 | uint64 | float64 | bool_ => true
  | object_ | datetime64 => false
  end.

(** [pd.api.types.is_numeric_dtype(type(v))] on the class of a scalar. *)
Definition is_numeric_scalar (v : value) : bool :=
  match v with
  | VFloat _ | VInt _ | VBool _ => true
  | VNone | VStr _ => false
  end.

(** [pd.isna] on a scalar. *)
Definition isna (v : value) : bool :=
  match v with
  | VNone | VFloat Fnan => true
  | _ => false
  end.

Definition notna (v : value) : bool := negb (isna v).

Record Series : Type := mkSeries { dtype_of : dtype; values : list value }.

(** A table: its columns in order, each with its name. *)
Definition DataFrame : Type := list (string * Series).

Definition columns (df : DataFrame) : list string := map fst df.

(** [len(df)]: the length of the row index. *)
Definition len_df (df : DataFrame) : nat :=
  match df with
  | [] => 0%nat
  | (_, s) :: _ => length (values s)
  end.

(** [df.shape]. *)
Definition shape (df : DataFrame) : nat * nat := (len_df df, length df).

Definition shape_eqb (a b : nat * nat) : bool :=
  Nat.eqb (fst a) (fst b) && Nat.eqb (snd a) (snd b).

(** [df.empty]: some axis has length zero. *)
Definition empty (df : DataFrame) : bool :=
  Nat.eqb (len_df df) 0 || Nat.eqb (length df) 0.

Definition named (col : string) (c : string * Series) : bool :=
  String.eqb (fst c) col.

(** ** float64 operations used by the program *)

(** [float(z)] for an integer: the nearest float64.  The integers of int64
    and uint64 columns are far below the range where Python raises. *)
Definition f64_of_Z (z : Z) : f64 := round64 (inject_Z z).

(** [float(v)]; the program calls it on numeric scalars only. *)
Definition to_float (v : value) : f64 :=
  match v with
  | VFloat f => f
  | VInt z => f64_of_Z z
  | VBool b => f64_of_Z (if b then 1 else 0)
  | VNone | VStr _ => Fnan
  end.

Definition f64_sub (a b : f64) : f64 :=
  match a, b with
  | Fnan, _ | _, Fnan => Fnan
  | Finf s, Finf t => if Bool.eqb s t then Fnan else Finf s
  | Finf s, Ffin _ => Finf s
  | Ffin _, Finf t => Finf (negb t)
  | Ffin x, Ffin y => round64 (x - y)
  end.

Definition f64_abs (a : f64) : f64 :=
  match a with
  | Fnan => Fnan
  | Finf _ => Finf false
  | Ffin x => Ffin (Qabs x)
  end.

(** [a > b]; false as soon as a NaN is involved. *)
Definition f64_gt (a b : f64) : bool :=
  match a, b with
  | Fnan, _ | _, Fnan => false
  | Finf s, Finf t => negb s && t
  | Finf s, Ffin _ => negb s
  | Ffin _, Finf t => t
  | Ffin x, Ffin y => negb (Qle_bool x y)
  end.

(** [a == b] on floats. *)
Definition f64_eqb (a b : f64) : bool :=
  match a, b with
  | Finf s, Finf t => Bool.eqb s t
  | Ffin x, Ffin y => Qeq_bool x y
  | _, _ => false
  end.

Definition isfinite (f : f64) : bool :=
  match f with
  | Ffin _ => true
  | _ => false
  end.

(** [df[col]] where the program goes on to use the result as one column.
    With no column of that name pandas raises KeyError; with several it
    returns a table, on which [.dtype] raises AttributeError. *)
Definition getitem (df : DataFrame) (col : string) : Exc Series :=
  match List.filter (named col) df with
  | [] => inl (KeyError col)
  | [c] => inr (snd c)
  | _ :: _ :: _ => inl AttributeError
  end.

(** [df[col] = s] for an existing column name. *)
Definition setitem (df : DataFrame) (col : string) (s : Series) : DataFrame :=
  map (fun c => if named col c then (fst c, s) else c) df.

(** The dtypes that mix to float64: the integers and the floats. *)
Definition is_number_dtype (d : dtype) : bool :=
  match d with
  | int64 | uint64 | float64 => true
  | bool_ | object_ | datetime64 => false
  end.

(** The dtype of a row [df.iloc[i]]: the common dtype of the columns.  One
    dtype throughout is kept; integers and floats of different dtypes mix
    to float64; every other mix is object. *)
Definition common_dtype (df : DataFrame) : dtype :=
  match map (fun c => dtype_of (snd c)) df with
  | [] => object_
  | d :: ds =>
      if forallb (dtype_eqb d) ds then d
      else if forallb is_number_dtype (d :: ds) then float64
      else object_
  end.

(** A cell as the row holds it: in a float64 row an integer has become the
    nearest float. *)
Definition as_row (d : dtype) (v : value) : value :=
  match d, v with
  | float64, VInt z => VFloat (f64_of_Z z)
  | _, _ => v
  end.

(** [df.iloc[i][col]] where the program goes on to test the cell.  A row
    beyond the last raises IndexError and an unknown name KeyError; with
    several columns of that name the lookup gives a Series, on which the
    truth test that follows raises ValueError.  The cell is read from the
    row, which has the common dtype of the columns. *)
Definition iloc_cell (df : DataFrame) (i : nat) (col : string) : Exc value :=
  if Nat.ltb i (len_df df) then
    let! s := match getitem df col with
              | inl AttributeError =>
                  inl (ValueError "The truth value of a Series is ambiguous")
              | r => r
              end in
    match nth_error (values s) i with
    | Some v => inr (as_row (common_dtype df) v)
    | None => inl IndexError
    end
  else inl IndexError.

(** ** Coercion to numbers: [pd.to_numeric(..., errors='coerce')] *)

(** What the text of one cell parses to. *)
Inductive number : Type :=
  | NInt (z : Z)
  | NFloat (f : f64).

Definition INT64_MIN : Z := - 2 ^ 63.
Definition INT64_MAX : Z := 2 ^ 63 - 1.

Definition UINT64_MAX : Z := 2 ^ 64 - 1.

Definition in_int64 (z : Z) : bool := (INT64_MIN <=? z) && (z <=? INT64_MAX).

(** The integers pandas keeps as integers: those of int64 or uint64. *)
Definition in_int_range (z : Z) : bool := (INT64_MIN <=? z) && (z <=? UINT64_MAX).

(** The C cast of a 64-bit integer to int64: the value modulo [2 ^ 64]. *)
Definition wrap_int64 (z : Z) : Z := (z + 2 ^ 63) mod 2 ^ 64 - 2 ^ 63.

(** Truncation toward zero. *)
Definition Qtrunc (q : Q) : Z := Z.quot (Qnum q) (Z.pos (Qden q)).

(** The C cast of a finite float64 to int64 that numpy performs.  Outside
    the int64 range the cast is left to the platform; x86-64 yields the
    "integer indefinite" value, INT64_MIN. *)
Definition cast_int64 (q : Q) : Z :=
  let t := Qtrunc q in if in_int64 t then t else INT64_MIN.

(** ** Files, parser options and the collaborators *)

(** A path: the parent directory and the final component ([Path.name]). *)
Definition Path : Type := string * string.

Definition name (p : Path) : string := snd p.

Definition bytes : Type := list Byte.byte.

(** The [quoting] constants of Python's [csv] module. *)
Definition QUOTE_MINIMAL : Z := 0.
Definition QUOTE_ALL : Z := 1.
Definition QUOTE_NONE : Z := 3.

(** The keyword arguments [pd.read_csv] is called with; [low_memory=False]
    is passed on every call and is left out. *)
Record csv_args : Type := mkArgs {
  encoding : string;
  engine : string;
  on_bad_lines : string;
  quoting : Z;
  delimiter : string
}.

(** What the spreadsheet writer leaves behind: the artifact, or an error
    together with whatever reached the disk before it. *)
Inductive write_outcome : Type :=
  | Written (artifact : bytes)
  | WriteFailed (e : exn) (partial : bytes).

(** The libraries behind the pipeline.  Each is a function of the bytes or
    value it is given, so all of the file system traffic stays in the
    program's own code below. *)
Class Libs : Type := {
  (** [chardet.detect]: the guessed encoding, if any, and its confidence.  A
      float64 confidence [c] satisfies [c > 0.7] exactly when the rational
      it denotes exceeds 7/10, since no float64 lies between the literal
      and 7/10. *)
  chardet_detect : bytes -> option string * Q;
  (** [pd.read_csv] on the content of the file. *)
  pd_read_csv : bytes -> csv_args -> Exc DataFrame;
  (** [pd.read_excel] on the content of the file. *)
  pd_read_excel : bytes -> Exc DataFrame;
  (** [DataFrame.to_excel] through an openpyxl [ExcelWriter], without index
      and with [float_format='%.15g']. *)
  excel_write : DataFrame -> write_outcome;
  (** The numeric reading of a text cell, as pandas' tokenizer decides it;
      [None] when the text is not a number. *)
  parse_number : string -> option number;
  (** [str] on a float. *)
  str_float : f64 -> string
}.

(** ** The world: file system and presentation sink *)

Inductive level : Type := INFO | SUCCESS | WARNING | ERROR | HIGHLIGHT | DIM.

(** The messages of [main.py], with the values its f-strings interpolate. *)
Inductive message : Type :=
  | MsgDetectedEncoding (enc : string) (confidence : Q)
  | MsgLowConfidence
  | MsgReadWithEncoding (enc : string)
  | MsgMalformed (enc : string) (e : string)
  | MsgAttemptingFallback
  | MsgTrying (strategy_name : string)
  | MsgParsedUsing (strategy_name : string)
  | MsgAllStrategiesFailed (enc : string)
  | MsgErrorReading (enc : string) (e : exn)
  | MsgFailedAnyEncoding
  | MsgTypeChange (col : string) (csv_dtype xlsx_dtype : dtype)
  | MsgDataMismatch (i : nat) (col : string) (csv_val xlsx_val : value)
  | MsgValidationError (e : exn)
  | MsgEmptyCsv (file : string)
  | MsgDimensions (rows cols : nat)
  | MsgConvertedTo (file : string)
  | MsgRemovedOriginal (file : string)
  | MsgKeepingOriginal
  | MsgFailedToProcess (file : string) (e : exn).

Inductive event : Type :=
  | Log (lv : level) (m : message)                    (* ui.logger.<lv>(m) *)
  | DisplayProcessingStart (file kind : string)       (* ui.display_processing_start *)
  | DisplayValidationResult (is_valid d c t s : bool) (* ui.display_validation_result *)
  | ReadCsvCall (p : Path) (a : csv_args).            (* a call of pd.read_csv *)

Record world : Type := World {
  fs : gmap Path bytes;
  trace : list event
}.

(** A program step: it returns or raises, and leaves a world behind. *)
Definition IO (A : Type) : Type := world -> Exc A * world.

Definition ret {A} (a : A) : IO A := fun w => (inr a, w).

Definition raise {A} (e : exn) : IO A := fun w => (inl e, w).

Definition bind {A B} (m : IO A) (k : A -> IO B) : IO B :=
  fun w =>
    match m w with
    | (inr a, w') => k a w'
    | (inl e, w') => (inl e, w')
    end.

Notation "'do!' x ':=' m 'in' k" := (bind m (fun x => k))
  (at level 10, x name, m at level 100, k at level 200).
Notation "m ';;' k" := (bind m (fun _ => k))
  (at level 100, k at level 200, right associativity).

(** [try: m except Exception as e: h e]. *)
Definition try_except {A} (m : IO A) (h : exn -> IO A) : IO A :=
  fun w =>
    match m w with
    | (inr a, w') => (inr a, w')
    | (inl e, w') => h e w'
    end.

Definition lift {A} (r : Exc A) : IO A := fun w => (r, w).

Definition emit (ev : event) : IO unit :=
  fun w => (inr tt, World (fs w) (trace w ++ [ev])).

Definition logger (lv : level) (m : message) : IO unit := emit (Log lv m).

(** The content of a file, as [open(p, 'rb')] followed by a full read gives. *)
Definition read_file (p : Path) : IO bytes :=
  fun w =>
    match fs w !! p with
    | Some b => (inr b, w)
    | None => (inl FileNotFoundError, w)
    end.

Definition write_file (p : Path) (b : bytes) : IO unit :=
  fun w => (inr tt, World (<[p := b]> (fs w)) (trace w)).

(** [p.unlink()]; it fails when there is no such file. *)
Definition unlink (p : Path) : IO unit :=
  fun w =>
    match fs w !! p with
    | Some _ => (inr tt, World (delete p (fs w)) (trace w))
    | None => (inl FileNotFoundError, w)
    end.

(** [f.read(n)]: at most the first [n] bytes. *)
Fixpoint take_bytes (n : N) (b : bytes) : bytes :=
  match b with
  | [] => []
  | x :: r => if N.eqb n 0 then [] else x :: take_bytes (N.pred n) r
  end.

(** ** Text helpers *)

Definition lower_ascii (c : ascii) : ascii :=
  let n := nat_of_ascii c in
  if Nat.leb 65 n && Nat.leb n 90 then ascii_of_nat (n + 32) else c.

(** [str.lower], on the ASCII letters. *)
Fixpoint lower (s : string) : string :=
  match s with
  | EmptyString => EmptyString
  | String c r => String (lower_ascii c) (lower r)
  end.

(** [needle in hay]. *)
Fixpoint contains (needle hay : string) : bool :=
  String.prefix needle hay ||
  match hay with
  | EmptyString => false
  | String _ r => contains needle r
  end.

(** [name.rfind('.')]. *)
Fixpoint rfind_dot (s : string) : option nat :=
  match s with
  | EmptyString => None
  | String c r =>
      match rfind_dot r with
      | Some i => Some (S i)
      | None => if Ascii.eqb c "."%char then Some 0%nat else None
      end
  end.

(** [PurePath.suffix]. *)
Definition suffix (p : Path) : string :=
  let nm := name p in
  match rfind_dot nm with
  | Some i =>
      if Nat.ltb 0 i && Nat.ltb i (String.length nm - 1)
      then substring i (String.length nm - i) nm
      else ""
  | None => ""
  end.

(** [PurePath.with_suffix(sfx)] for a well-formed [sfx] such as ".xlsx";
    a path with an empty name is refused. *)
Definition with_suffix (p : Path) (sfx : string) : Exc Path :=
  let nm := name p in
  if String.eqb nm "" then inl (ValueError "path has an empty name")
  else
    let old_suffix := suffix p in
    inr (fst p,
         (substring 0 (String.length nm - String.length old_suffix) nm ++ sfx)%string).

Section Pipeline.

Context {libs : Libs}.

(** ** The numeric precision normaliser *)

(** An integer reading: kept as an integer when int64 or uint64 can hold
    it, else as the nearest float. *)
Definition int_reading (z : Z) : value :=
  if in_int_range z then VInt z else VFloat (f64_of_Z z).

(** One cell under [errors='coerce']: unparseable entries become NaN. *)
Definition to_numeric_scalar (v : value) : value :=
  match v with
  | VNone => VFloat Fnan
  | VStr s =>
      match parse_number s with
      | Some (NInt z) => int_reading z
      | Some (NFloat f) => VFloat f
      | None => VFloat Fnan
      end
  | VFloat f => VFloat f
  | VInt z => int_reading z
  | VBool b => VBool b
  end.

Definition is_VFloat (v : value) : bool :=
  match v with VFloat _ => true | _ => false end.

Definition is_VInt (v : value) : bool :=
  match v with VInt _ => true | _ => false end.

Definition int_of_bool (v : value) : value :=
  match v with
  | VBool b => VInt (if b then 1 else 0)
  | _ => v
  end.

Definition fits_int64 (v : value) : bool :=
  match v with VInt z => in_int64 z | _ => true end.

Definition is_negative (v : value) : bool :=
  match v with VInt z => z <? 0 | _ => false end.

(** The resulting column: float64 as soon as one float or one NaN was
    seen; else, if an integer was seen, int64 when every integer fits it,
    uint64 when one exceeds int64 and none is negative, and float64 when
    integers beyond int64 come with negative ones; else bool. *)
Definition to_numeric (s : Series) : Series :=
  let xs := map to_numeric_scalar (values s) in
  let floats := mkSeries float64 (map (fun v => VFloat (to_float v)) xs) in
  if existsb is_VFloat xs then floats
  else if existsb is_VInt xs then
    if forallb fits_int64 xs then mkSeries int64 (map int_of_bool xs)
    else if existsb is_negative xs then floats
    else mkSeries uint64 (map int_of_bool xs)
  else match xs with
       | [] => mkSeries int64 []
       | _ => mkSeries bool_ xs
       end.

(** [s.isna().all()]. *)
Definition isna_all (s : Series) : bool := forallb isna (values s).

(** [s.dropna()]. *)
Definition dropna (s : Series) : Series :=
  mkSeries (dtype_of s) (List.filter notna (values s)).

Definition len (s : Series) : nat := length (values s).

(** One cell of [astype(int)]: a finite float is cast, a bool becomes 0 or
    1, and an integer is taken modulo [2 ^ 64], which changes those of a
    uint64 column that exceed int64. *)
Definition astype_int_cell (v : value) : value :=
  match v with
  | VFloat (Ffin q) => VInt (cast_int64 q)
  | VBool b => VInt (if b then 1 else 0)
  | VInt z => VInt (wrap_int64 z)
  | _ => v
  end.

Definition finite_cell (v : value) : bool :=
  match v with
  | VFloat f => isfinite f
  | VNone => false
  | _ => true
  end.

(** [s.astype(int)] on a numeric column.  On float64, pandas first checks
    that every value is finite and raises IntCastingNaNError if not. *)
Definition astype_int (s : Series) : Exc Series :=
  match dtype_of s with
  | float64 =>
      if forallb finite_cell (values s)
      then inr (mkSeries int64 (map astype_int_cell (values s)))
      else inl IntCastingNaNError
  | _ => inr (mkSeries int64 (map astype_int_cell (values s)))
  end.

(** [a == b] on two numeric scalars.  Two integers are compared as
    integers.  (numpy compares a uint64 with an int64 as floats; for a value
    and its cast to int64, the one comparison the program makes, the answer
    is the same: they agree exactly when the cast changed nothing.) *)
Definition value_eqb (a b : value) : bool :=
  match a, b with
  | VNone, _ | _, VNone | VStr _, _ | _, VStr _ => false
  | VInt x, VInt y => Z.eqb x y
  | _, _ => f64_eqb (to_float a) (to_float b)
  end.

Fixpoint zip_with {A B C} (f : A -> B -> C) (l : list A) (m : list B) : list C :=
  match l, m with
  | a :: l', b :: m' => f a b :: zip_with f l' m'
  | _, _ => []
  end.

(** [(s.notna() & (s == t)).all()]. *)
Definition all_notna_and_eq (s t : Series) : bool :=
  forallb (fun b => b)
          (zip_with (fun a b => notna a && value_eqb a b) (values s) (values t)).

(** The body of the [try] in [preserve_numeric_precision], for the column
    [col] whose current content is [s]. *)
Definition coerce_column (df_copy : DataFrame) (col : string) (s : Series)
  : Exc DataFrame :=
  let numeric_col := to_numeric s in
  if negb (isna_all numeric_col) then
    let non_null_original := dropna s in
    let non_null_numeric := dropna numeric_col in
    if Nat.eqb (len non_null_numeric) (len non_null_original) then
      let! ints := astype_int numeric_col in
      if all_notna_and_eq numeric_col ints
      then inr df_copy
      else inr (setitem df_copy col numeric_col)
    else inr df_copy
  else inr df_copy.

(** The loop over [df_copy.columns]. *)
Fixpoint preserve_loop (cols : list string) (df_copy : DataFrame) : Exc DataFrame :=
  match cols with
  | [] => inr df_copy
  | col :: rest =>
      let! s := getitem df_copy col in
      if dtype_eqb (dtype_of s) object_ then
        match coerce_column df_copy col s with
        | inr df' => preserve_loop rest df'
        | inl e =>
            if is_ValueError_or_TypeError e
            then preserve_loop rest df_copy
            else inl e
        end
      else preserve_loop rest df_copy
  end.

Definition preserve_numeric_precision (df : DataFrame) : Exc DataFrame :=
  let df_copy := df in
  preserve_loop (columns df_copy) df_copy.

(** ** The encoding detector *)

Definition default_sample_size : N := 100000.

(** Python's truth value of [result['encoding']]: [None] and the empty
    string are false. *)
Definition truthy (o : option string) : bool :=
  match o with
  | Some e => negb (String.eqb e "")
  | None => false
  end.

Definition Qgt_bool (a b : Q) : bool := negb (Qle_bool a b).

Definition detect_file_encoding (file_path : Path) (sample_size : N) : IO string :=
  do! content := read_file file_path in
  let raw_data := take_bytes sample_size content in
  let result := chardet_detect raw_data in
  let detected_encoding := fst result in
  let confidence := snd result in
  if truthy detected_encoding && Qgt_bool confidence (7 # 10) then
    let enc := default "" detected_encoding in
    logger DIM (MsgDetectedEncoding enc confidence) ;;
    ret enc
  else
    logger WARNING MsgLowConfidence ;;
    ret "utf-8".

(** ** The resilient CSV reader *)

(** One call of [pd.read_csv(file_path, ...)]: it opens the file itself. *)
Definition read_csv_at (file_path : Path) (a : csv_args) : IO DataFrame :=
  emit (ReadCsvCall file_path a) ;;
  do! content := read_file file_path in
  lift (pd_read_csv content a).

Definition try_parse_csv_with_strategy (file_path : Path) (encoding engine
    on_bad_lines : string) (quoting : Z) (delimiter : string)
  : IO (option DataFrame) :=
  try_except
    (do! df := read_csv_at file_path
                 (mkArgs encoding engine on_bad_lines quoting delimiter) in
     ret (Some df))
    (fun _ => ret None).

(** The arguments of the first, standard parse: pandas' defaults. *)
Definition standard_args (enc : string) : csv_args :=
  mkArgs enc "c" "error" QUOTE_MINIMAL ",".

(** The list [strategies] built for the encoding [enc]. *)
Definition strategies (enc : string) : list (string * csv_args) :=
  [ ("Python engine with error skip", mkArgs enc "python" "skip" QUOTE_MINIMAL ",");
    ("Python engine with error warn", mkArgs enc "python" "warn" QUOTE_MINIMAL ",");
    ("C engine with QUOTE_ALL", mkArgs enc "c" "error" QUOTE_ALL ",");
    ("C engine with QUOTE_NONE", mkArgs enc "c" "error" QUOTE_NONE ",");
    ("Python engine with QUOTE_ALL", mkArgs enc "python" "warn" QUOTE_ALL ",") ].

(** The loop over [strategies]; [None] when it runs to its end. *)
Fixpoint try_strategies (file_path : Path) (enc : string)
    (l : list (string * csv_args)) : IO (option DataFrame) :=
  match l with
  | [] => ret None
  | (strategy_name, a) :: rest =>
      logger DIM (MsgTrying strategy_name) ;;
      do! df := try_parse_csv_with_strategy file_path (encoding a) (engine a)
                  (on_bad_lines a) (quoting a) (delimiter a) in
      match df with
      | Some df =>
          logger SUCCESS (MsgParsedUsing strategy_name) ;;
          logger DIM (MsgReadWithEncoding enc) ;;
          ret (Some df)
      | None => try_strategies file_path enc rest
      end
  end.

(** The test on the message of a ParserError. *)
Definition expected_fields (error_msg : string) : bool :=
  contains "expected" (lower error_msg) && contains "fields" (lower error_msg).

(** The loop over [encodings_to_try]. *)
Fixpoint read_loop (file_path : Path) (encodings_to_try : list string)
  : IO (option DataFrame) :=
  match encodings_to_try with
  | [] =>
      logger ERROR MsgFailedAnyEncoding ;;
      ret None
  | enc :: rest =>
      try_except
        (do! df := read_csv_at file_path (standard_args enc) in
         logger DIM (MsgReadWithEncoding enc) ;;
         ret (Some df))
        (fun e =>
           match e with
           | UnicodeDecodeError => read_loop file_path rest
           | ParserError error_msg =>
               if expected_fields error_msg then
                 logger WARNING (MsgMalformed enc error_msg) ;;
                 logger INFO MsgAttemptingFallback ;;
                 do! df := try_strategies file_path enc (strategies enc) in
                 match df with
                 | Some df => ret (Some df)
                 | None =>
                     logger ERROR (MsgAllStrategiesFailed enc) ;;
                     read_loop file_path rest
                 end
               else
                 logger ERROR (MsgErrorReading enc e) ;;
                 read_loop file_path rest
           | _ =>
               logger ERROR (MsgErrorReading enc e) ;;
               read_loop file_path rest
           end)
  end.

(** [list(dict.fromkeys(keys))]: the keys of an insertion-ordered
    dictionary, [d] being the keys inserted so far. *)
Fixpoint dict_fromkeys (keys d : list string) : list string :=
  match keys with
  | [] => d
  | k :: rest =>
      dict_fromkeys rest (if existsb (String.eqb k) d then d else d ++ [k])
  end.

Definition candidate_encodings (encoding : string) : list string :=
  let encodings_to_try := [encoding; "utf-8"; "latin-1"; "cp1252"; "iso-8859-1"] in
  dict_fromkeys encodings_to_try [].

Definition read_csv_with_encoding (file_path : Path) : IO (option DataFrame) :=
  do! encoding := detect_file_encoding file_path default_sample_size in
  read_loop file_path (candidate_encodings encoding).

(** ** The conversion validator *)

Record ValidationResult : Type := mkValidationResult {
  dimensions_match : bool;
  columns_match : bool;
  data_types_preserved : bool;
  sample_data_match : bool
}.

Definition is_valid (v : ValidationResult) : bool :=
  forallb (fun b => b)
    [dimensions_match v; columns_match v; data_types_preserved v;
     sample_data_match v].

(** [pd.read_excel(xlsx_path)]. *)
Definition read_excel_at (xlsx_path : Path) : IO DataFrame :=
  do! content := read_file xlsx_path in
  lift (pd_read_excel content).

(** [str(v)]. *)
Definition py_str (v : value) : string :=
  match v with
  | VStr s => s
  | VInt z => pretty z
  | VBool b => if b then "True" else "False"
  | VNone => "None"
  | VFloat f => str_float f
  end.

(** The loop that compares the dtypes column by column. *)
Fixpoint check_dtypes (df_csv df_xlsx : DataFrame) (cols : list string)
    (data_types_preserved : bool) : IO bool :=
  match cols with
  | [] => ret data_types_preserved
  | col :: rest =>
      do! csv_col := lift (getitem df_csv col) in
      let csv_dtype := dtype_of csv_col in
      do! xlsx_col := lift (getitem df_xlsx col) in
      let xlsx_dtype := dtype_of xlsx_col in
      if negb (dtype_eqb csv_dtype xlsx_dtype) then
        if negb (is_numeric_dtype csv_dtype && is_numeric_dtype xlsx_dtype) then
          logger WARNING (MsgTypeChange col csv_dtype xlsx_dtype) ;;
          check_dtypes df_csv df_xlsx rest false
        else check_dtypes df_csv df_xlsx rest data_types_preserved
      else check_dtypes df_csv df_xlsx rest data_types_preserved
  end.

(** The literal [1e-6]: the float64 nearest to it. *)
Definition tolerance : f64 := round64 (1 # 1000000).

(** The inner loop of the sample check: the cells of row [i]. *)
Fixpoint check_row (df_csv df_xlsx : DataFrame) (i : nat) (cols : list string)
    (sample_data_match : bool) : IO bool :=
  match cols with
  | [] => ret sample_data_match
  | col :: rest =>
      do! csv_val := lift (iloc_cell df_csv i col) in
      do! xlsx_val := lift (iloc_cell df_xlsx i col) in
      if isna csv_val && isna xlsx_val then
        check_row df_csv df_xlsx i rest sample_data_match
      else if is_numeric_scalar csv_val && is_numeric_scalar xlsx_val then
        if f64_gt (f64_abs (f64_sub (to_float csv_val) (to_float xlsx_val))) tolerance
        then
          logger WARNING (MsgDataMismatch i col csv_val xlsx_val) ;;
          check_row df_csv df_xlsx i rest false
        else check_row df_csv df_xlsx i rest sample_data_match
      else if negb (String.eqb (py_str csv_val) (py_str xlsx_val)) then
        logger WARNING (MsgDataMismatch i col csv_val xlsx_val) ;;
        check_row df_csv df_xlsx i rest false
      else check_row df_csv df_xlsx i rest sample_data_match
  end.

(** The outer loop, over [range(sample_size)]. *)
Fixpoint check_rows (df_csv df_xlsx : DataFrame) (rows : list nat)
    (sample_data_match : bool) : IO bool :=
  match rows with
  | [] => ret sample_data_match
  | i :: rest =>
      do! sample_data_match :=
        check_row df_csv df_xlsx i (columns df_csv) sample_data_match in
      check_rows df_csv df_xlsx rest sample_data_match
  end.

Definition all_false : ValidationResult :=
  mkValidationResult false false false false.

(** The body of the [try] in [validate_conversion]. *)
Definition validate_body (csv_path xlsx_path : Path) : IO ValidationResult :=
  do! df_csv := read_csv_with_encoding csv_path in
  match df_csv with
  | None => ret all_false
  | Some df_csv =>
      do! df_xlsx := read_excel_at xlsx_path in
      let dimensions_match := shape_eqb (shape df_csv) (shape df_xlsx) in
      let columns_match := bool_decide (columns df_csv = columns df_xlsx) in
      do! data_types_preserved :=
        check_dtypes df_csv df_xlsx (columns df_csv) true in
      do! sample_data_match :=
        if Nat.ltb 0 (len_df df_csv) then
          let sample_size := Nat.min 5 (len_df df_csv) in
          check_rows df_csv df_xlsx (seq 0 sample_size) true
        else ret true in
      ret (mkValidationResult dimensions_match columns_match
             data_types_preserved sample_data_match)
  end.

Definition validate_conversion (csv_path xlsx_path : Path) : IO ValidationResult :=
  try_except (validate_body csv_path xlsx_path)
    (fun e =>
       logger ERROR (MsgValidationError e) ;;
       ret all_false).

(** ** The conversion orchestrator *)

(** The [with pd.ExcelWriter(xlsx_path, ...)] block. *)
Definition write_excel (xlsx_path : Path) (df : DataFrame) : IO unit :=
  match excel_write df with
  | Written artifact => write_file xlsx_path artifact
  | WriteFailed e partial => write_file xlsx_path partial ;; raise e
  end.

(** The body of the [try] in [process_csv_file]. *)
Definition process_body (file_path : Path) : IO bool :=
  emit (DisplayProcessingStart (name file_path) "CSV") ;;
  do! xlsx_path := lift (with_suffix file_path ".xlsx") in
  do! df := read_csv_with_encoding file_path in
  match df with
  | None => ret false
  | Some df =>
      if empty df then
        logger WARNING (MsgEmptyCsv (name file_path)) ;;
        ret false
      else
        logger INFO (MsgDimensions (fst (shape df)) (snd (shape df))) ;;
        do! df_processed := lift (preserve_numeric_precision df) in
        write_excel xlsx_path df_processed ;;
        logger SUCCESS (MsgConvertedTo (name xlsx_path)) ;;
        do! validation := validate_conversion file_path xlsx_path in
        emit (DisplayValidationResult (is_valid validation)
                (dimensions_match validation) (columns_match validation)
                (data_types_preserved validation)
                (sample_data_match validation)) ;;
        if is_valid validation then
          unlink file_path ;;
          logger DIM (MsgRemovedOriginal (name file_path)) ;;
          ret true
        else
          logger ERROR MsgKeepingOriginal ;;
          ret false
  end.

Definition process_csv_file (file_path : Path) : IO bool :=
  try_except (process_body file_path)
    (fun e =>
       logger ERROR (MsgFailedToProcess (name file_path) e) ;;
       ret false).

(** ** Vocabulary of the properties *)

(** The decision [coerce_column] takes for a text column. *)
Definition replaces (s : Series) : bool :=
  let numeric_col := to_numeric s in
  negb (isna_all numeric_col)
  && Nat.eqb (len (dropna numeric_col)) (len (dropna s))
  && match astype_int numeric_col with
     | inr ints => negb (all_notna_and_eq numeric_col ints)
     | inl _ => false
     end.

Definition normalize_col (c : string * Series) : string * Series :=
  if dtype_eqb (dtype_of (snd c)) object_ && replaces (snd c)
  then (fst c, to_numeric (snd c))
  else c.

Definition finite_number (v : value) : bool := isfinite (to_float v).

Definition has_fraction (v : value) : bool :=
  match to_float v with
  | Ffin q => negb (Z.eqb (Z.rem (Qnum q) (Z.pos (Qden q))) 0)
  | _ => false
  end.

Definition replaced_by_numeric (df : DataFrame) (col : string) (s : Series) : Prop :=
  exists df', preserve_numeric_precision df = inr df'
              /\ getitem df' col = inr (to_numeric s).

Definition left_as_text (df : DataFrame) (col : string) (s : Series) : Prop :=
  exists df', preserve_numeric_precision df = inr df' /\ getitem df' col = inr s.

Definition normalize_in (cols : list string) (c : string * Series) : string * Series :=
  if existsb (String.eqb (fst c)) cols then normalize_col c else c.

Definition as_floats (s : Series) : list value :=
  map (fun v => VFloat (to_float v)) (map to_numeric_scalar (values s)).

Definition cell_is_integer (y : value) : bool :=
  notna y && value_eqb y (astype_int_cell y).

(** Whether [pd.read_csv] returns a table for these arguments. *)
Definition succeeds (content : bytes) (a : csv_args) : bool :=
  match pd_read_csv content a with inr _ => true | inl _ => false end.

End Pipeline.

(** ** Vocabulary that does not involve the libraries *)

(** A step reads the files [ps] at most: its result and the events it adds
    are the same in every world that agrees on them, and it leaves the
    file system as it found it. *)
Definition depends_on {A} (ps : list Path) (m : IO A) : Prop :=
  forall f : gmap Path bytes, exists (r : Exc A) (evs : list event),
    forall (f' : gmap Path bytes) (t : list event),
      (forall p, In p ps -> f' !! p = f !! p) ->
      m (World f' t) = (r, World f' (t ++ evs)).

(** The arguments of the [pd.read_csv] calls on [p] among the events. *)
Fixpoint csv_calls (p : Path) (evs : list event) : list csv_args :=
  match evs with
  | [] => []
  | ReadCsvCall q a :: rest =>
      if bool_decide (q = p) then a :: csv_calls p rest else csv_calls p rest
  | _ :: rest => csv_calls p rest
  end.

Definition is_standard (a : csv_args) : bool :=
  String.eqb (engine a) "c" && String.eqb (on_bad_lines a) "error"
  && Z.eqb (quoting a) QUOTE_MINIMAL && String.eqb (delimiter a) ",".

(** The encodings of the standard parses among the calls. *)
Definition standard_attempts (p : Path) (evs : list event) : list string :=
  map encoding (List.filter is_standard (csv_calls p evs)).

(** The relaxations the specification names, (i) to (v). *)
Inductive relaxation : Type :=
  | LenientSkipBadLines
  | LenientWarnBadLines
  | StrictQuoteAll
  | StrictNoQuoting
  | LenientQuoteAll.

(** How a relaxation reads as arguments of [pd.read_csv]: the lenient
    engine is pandas' "python" engine, the strict one its "c" engine. *)
Definition describes (r : relaxation) (a : csv_args) : Prop :=
  match r with
  | LenientSkipBadLines => engine a = "python" /\ on_bad_lines a = "skip"
  | LenientWarnBadLines => engine a = "python" /\ on_bad_lines a = "warn"
  | StrictQuoteAll => engine a = "c" /\ quoting a = QUOTE_ALL
  | StrictNoQuoting => engine a = "c" /\ quoting a = QUOTE_NONE
  | LenientQuoteAll => engine a = "python" /\ quoting a = QUOTE_ALL
  end.

Definition relaxation_order : list relaxation :=
  [LenientSkipBadLines; LenientWarnBadLines; StrictQuoteAll; StrictNoQuoting;
   LenientQuoteAll].

(** De-duplication that keeps the first occurrence of every element. *)
Fixpoint dedup_first (l : list string) : list string :=
  match l with
  | [] => []
  | x :: rest => x :: List.filter (fun y => negb (String.eqb x y)) (dedup_first rest)
  end.

(** The detector's policy on chardet's answer. *)
Definition encoding_policy (result : option string * Q) : string :=
  match fst result with
  | Some e =>
      if negb (String.eqb e "") && Qgt_bool (snd result) (7 # 10) then e else "utf-8"
  | None => "utf-8"
  end.

Definition returns {A} (r : Exc A) : bool :=
  match r with inr _ => true | inl _ => false end.

(** Whether the lookups of the dtype loop all succeed. *)
Definition dtype_lookups (df_csv df_xlsx : DataFrame) (cols : list string) : bool :=
  forallb (fun col => returns (getitem df_csv col) && returns (getitem df_xlsx col)) cols.

(** Whether the cell lookups of row [i] all succeed. *)
Definition row_lookups (df_csv df_xlsx : DataFrame) (i : nat) (cols : list string) : bool :=
  forallb (fun col => returns (iloc_cell df_csv i col) && returns (iloc_cell df_xlsx i col))
    cols.

(** Whether every lookup the dtype and sample checks make succeeds. *)
Definition lookups_succeed (df_csv df_xlsx : DataFrame) : bool :=
  dtype_lookups df_csv df_xlsx (columns df_csv)
  && forallb (fun i => row_lookups df_csv df_xlsx i (columns df_csv))
       (seq 0 (Nat.min 5 (len_df df_csv))).

(** The invariant of a table: distinct column names, columns of one length. *)
Definition well_formed (df : DataFrame) : Prop :=
  List.NoDup (columns df)
  /\ forall c, In c df -> length (values (snd c)) = len_df df.

(** ** Vocabulary of the further properties *)

Section MoreVocabulary.

Context {libs : Libs}.

(** *** The reader as a function of the content *)

(** The first table a list of strategies yields on the content [c]. *)
Fixpoint first_relaxed (c : bytes) (l : list (string * csv_args)) : option DataFrame :=
  match l with
  | [] => None
  | (_, a) :: rest =>
      match pd_read_csv c a with
      | inr df => Some df
      | inl _ => first_relaxed c rest
      end
  end.

(** What one encoding yields: the standard parse, or, when that reports a
    field count, the first strategy that parses. *)
Definition attempt (c : bytes) (enc : string) : option DataFrame :=
  match pd_read_csv c (standard_args enc) with
  | inr df => Some df
  | inl (ParserError msg) =>
      if expected_fields msg then first_relaxed c (strategies enc) else None
  | inl _ => None
  end.

(** First success wins, over the encodings in order. *)
Fixpoint first_success (c : bytes) (encs : list string) : option DataFrame :=
  match encs with
  | [] => None
  | enc :: rest =>
      match attempt c enc with
      | Some df => Some df
      | None => first_success c rest
      end
  end.

(** The encodings gone through: each in order, up to and including the
    first that yields a table. *)
Fixpoint attempted (c : bytes) (encs : list string) : list string :=
  match encs with
  | [] => []
  | enc :: rest =>
      enc :: match attempt c enc with
             | Some _ => []
             | None => attempted c rest
             end
  end.

(** The strategies called: up to and including the first that parses. *)
Fixpoint relaxed_calls (c : bytes) (l : list (string * csv_args)) : list csv_args :=
  match l with
  | [] => []
  | (_, a) :: rest => a :: (if succeeds c a then [] else relaxed_calls c rest)
  end.

Definition calls_for (c : bytes) (enc : string) : list csv_args :=
  standard_args enc ::
  match pd_read_csv c (standard_args enc) with
  | inl (ParserError msg) =>
      if expected_fields msg then relaxed_calls c (strategies enc) else []
  | _ => []
  end.

Fixpoint expected_calls (c : bytes) (encs : list string) : list csv_args :=
  match encs with
  | [] => []
  | enc :: rest =>
      calls_for c enc ++
      match attempt c enc with
      | Some _ => []
      | None => expected_calls c rest
      end
  end.

(** The encoding the detector settles on for a file of content [c]. *)
Definition detected (c : bytes) : string :=
  encoding_policy (chardet_detect (take_bytes default_sample_size c)).

(** The candidates in the order the program lists them, before duplicates
    are dropped. *)
Definition claimed_candidates (c : bytes) : list string :=
  [detected c; "utf-8"; "latin-1"; "cp1252"; "iso-8859-1"].

(** *** The validator as a function of the two tables *)

(** The dtype test of the validator: equal, or both numeric. *)
Definition dtypes_compatible (d1 d2 : dtype) : bool :=
  dtype_eqb d1 d2 || (is_numeric_dtype d1 && is_numeric_dtype d2).

(** The cell test of the validator. *)
Definition cells_agree (x y : value) : bool :=
  (isna x && isna y)
  || (if is_numeric_scalar x && is_numeric_scalar y
      then negb (f64_gt (f64_abs (f64_sub (to_float x) (to_float y))) tolerance)
      else String.eqb (py_str x) (py_str y)).

Definition dtype_ok (a b : DataFrame) (col : string) : bool :=
  match getitem a col, getitem b col with
  | inr s1, inr s2 => dtypes_compatible (dtype_of s1) (dtype_of s2)
  | _, _ => false
  end.

Definition cell_ok (a b : DataFrame) (i : nat) (col : string) : bool :=
  match iloc_cell a i col, iloc_cell b i col with
  | inr x, inr y => cells_agree x y
  | _, _ => false
  end.

(** The rows the sample check looks at. *)
Definition sampled_rows (df : DataFrame) : list nat :=
  seq 0 (Nat.min 5 (len_df df)).

(** The verdict on two tables, as a function of the tables. *)
Definition verdict (a b : DataFrame) : ValidationResult :=
  if lookups_succeed a b then
    mkValidationResult
      (shape_eqb (shape a) (shape b))
      (bool_decide (columns a = columns b))
      (forallb (dtype_ok a b) (columns a))
      (forallb (fun i => forallb (cell_ok a b i) (columns a)) (sampled_rows a))
  else all_false.

End MoreVocabulary.

(** ** The pipeline with the console of [ui.py]

    [ui.py] hands every log line to a [RichHandler] with [markup=True] and
    prints its own lines through [console.print]; the text interpolated
    into a line is not escaped.  A closing tag in that text which matches
    no open tag makes rich raise MarkupError out of the logging call.  The
    definitions above take a console that renders every line; the module
    [Rich] repeats the functions that log, word for word, over a console
    that may refuse a line.  Calls of [pd.read_csv] are recorded in the
    trace as before: they are not lines of the console. *)

Class Console : Type := {
  (** Whether rich renders the line of an event. *)
  renders : event -> bool;
  (** [str] of the MarkupError raised for a line that is refused. *)
  markup_message : event -> string
}.

(** The console that renders every line. *)
Definition quiet : Console :=
  {| renders := fun _ => true; markup_message := fun _ => "" |}.

Module Rich.

Section Pipeline.

Context {libs : Libs} {console : Console}.

(** A line of the console: printed, or refused with MarkupError, in which
    case nothing is printed. *)
Definition emit (ev : event) : IO unit :=
  fun w =>
    if renders ev then (inr tt, World (fs w) (trace w ++ [ev]))
    else (inl (MarkupError (markup_message ev)), w).

Definition logger (lv : level) (m : message) : IO unit := emit (Log lv m).

Definition detect_file_encoding (file_path : Path) (sample_size : N) : IO string :=
  do! content := read_file file_path in
  let raw_data := take_bytes sample_size content in
  let result := chardet_detect raw_data in
  let detected_encoding := fst result in
  let confidence := snd result in
  if truthy detected_encoding && Qgt_bool confidence (7 # 10) then
    let enc := default "" detected_encoding in
    logger DIM (MsgDetectedEncoding enc confidence) ;;
    ret enc
  else
    logger WARNING MsgLowConfidence ;;
    ret "utf-8".

(** The loop over [strategies]; [None] when it runs to its end. *)
Fixpoint try_strategies (file_path : Path) (enc : string)
    (l : list (string * csv_args)) : IO (option DataFrame) :=
  match l with
  | [] => ret None
  | (strategy_name, a) :: rest =>
      logger DIM (MsgTrying strategy_name) ;;
      do! df := try_parse_csv_with_strategy file_path (encoding a) (engine a)
                  (on_bad_lines a) (quoting a) (delimiter a) in
      match df with
      | Some df =>
          logger SUCCESS (MsgParsedUsing strategy_name) ;;
          logger DIM (MsgReadWithEncoding enc) ;;
          ret (Some df)
      | None => try_strategies file_path enc rest
      end
  end.

(** The loop over [encodings_to_try]. *)
Fixpoint read_loop (file_path : Path) (encodings_to_try : list string)
  : IO (option DataFrame) :=
  match encodings_to_try with
  | [] =>
      logger ERROR MsgFailedAnyEncoding ;;
      ret None
  | enc :: rest =>
      try_except
        (do! df := read_csv_at file_path (standard_args enc) in
         logger DIM (MsgReadWithEncoding enc) ;;
         ret (Some df))
        (fun e =>
           match e with
           | UnicodeDecodeError => read_loop file_path rest
           | ParserError error_msg =>
               if expected_fields error_msg then
                 logger WARNING (MsgMalformed enc error_msg) ;;
                 logger INFO MsgAttemptingFallback ;;
                 do! df := try_strategies file_path enc (strategies enc) in
                 match df with
                 | Some df => ret (Some df)
                 | None =>
                     logger ERROR (MsgAllStrategiesFailed enc) ;;
                     read_loop file_path rest
                 end
               else
                 logger ERROR (MsgErrorReading enc e) ;;
                 read_loop file_path rest
           | _ =>
               logger ERROR (MsgErrorReading enc e) ;;
               read_loop file_path rest
           end)
  end.

Definition read_csv_with_encoding (file_path : Path) : IO (option DataFrame) :=
  do! encoding := detect_file_encoding file_path default_sample_size in
  read_loop file_path (candidate_encodings encoding).

(** The loop that compares the dtypes column by column. *)
Fixpoint check_dtypes (df_csv df_xlsx : DataFrame) (cols : list string)
    (data_types_preserved : bool) : IO bool :=
  match cols with
  | [] => ret data_types_preserved
  | col :: rest =>
      do! csv_col := lift (getitem df_csv col) in
      let csv_dtype := dtype_of csv_col in
      do! xlsx_col := lift (getitem df_xlsx col) in
      let xlsx_dtype := dtype_of xlsx_col in
      if negb (dtype_eqb csv_dtype xlsx_dtype) then
        if negb (is_numeric_dtype csv_dtype && is_numeric_dtype xlsx_dtype) then
          logger WARNING (MsgTypeChange col csv_dtype xlsx_dtype) ;;
          check_dtypes df_csv df_xlsx rest false
        else check_dtypes df_csv df_xlsx rest data_types_preserved
      else check_dtypes df_csv df_xlsx rest data_types_preserved
  end.

(** The inner loop of the sample check: the cells of row [i]. *)
Fixpoint check_row (df_csv df_xlsx : DataFrame) (i : nat) (cols : list string)
    (sample_data_match : bool) : IO bool :=
  match cols with
  | [] => ret sample_data_match
  | col :: rest =>
      do! csv_val := lift (iloc_cell df_csv i col) in
      do! xlsx_val := lift (iloc_cell df_xlsx i col) in
      if isna csv_val && isna xlsx_val then
        check_row df_csv df_xlsx i rest sample_data_match
      else if is_numeric_scalar csv_val && is_numeric_scalar xlsx_val then
        if f64_gt (f64_abs (f64_sub (to_float csv_val) (to_float xlsx_val))) tolerance
        then
          logger WARNING (MsgDataMismatch i col csv_val xlsx_val) ;;
          check_row df_csv df_xlsx i rest false
        else check_row df_csv df_xlsx i rest sample_data_match
      else if negb (String.eqb (py_str csv_val) (py_str xlsx_val)) then
        logger WARNING (MsgDataMismatch i col csv_val xlsx_val) ;;
        check_row df_csv df_xlsx i rest false
      else check_row df_csv df_xlsx i rest sample_data_match
  end.

(** The outer loop, over [range(sample_size)]. *)
Fixpoint check_rows (df_csv df_xlsx : DataFrame) (rows : list nat)
    (sample_data_match : bool) : IO bool :=
  match rows with
  | [] => ret sample_data_match
  | i :: rest =>
      do! sample_data_match :=
        check_row df_csv df_xlsx i (columns df_csv) sample_data_match in
      check_rows df_csv df_xlsx rest sample_data_match
  end.

(** The body of the [try] in [validate_conversion]. *)
Definition validate_body (csv_path xlsx_path : Path) : IO ValidationResult :=
  do! df_csv := read_csv_with_encoding csv_path in
  match df_csv with
  | None => ret all_false
  | Some df_csv =>
      do! df_xlsx := read_excel_at xlsx_path in
      let dimensions_match := shape_eqb (shape df_csv) (shape df_xlsx) in
      let columns_match := bool_decide (columns df_csv = columns df_xlsx) in
      do! data_types_preserved :=
        check_dtypes df_csv df_xlsx (columns df_csv) true in
      do! sample_data_match :=
        if Nat.ltb 0 (len_df df_csv) then
          let sample_size := Nat.min 5 (len_df df_csv) in
          check_rows df_csv df_xlsx (seq 0 sample_size) true
        else ret true in
      ret (mkValidationResult dimensions_match columns_match
             data_types_preserved sample_data_match)
  end.

Definition validate_conversion (csv_path xlsx_path : Path) : IO ValidationResult :=
  try_except (validate_body csv_path xlsx_path)
    (fun e =>
       logger ERROR (MsgValidationError e) ;;
       ret all_false).

(** The body of the [try] in [process_csv_file]. *)
Definition process_body (file_path : Path) : IO bool :=
  emit (DisplayProcessingStart (name file_path) "CSV") ;;
  do! xlsx_path := lift (with_suffix file_path ".xlsx") in
  do! df := read_csv_with_encoding file_path in
  match df with
  | None => ret false
  | Some df =>
      if empty df then
        logger WARNING (MsgEmptyCsv (name file_path)) ;;
        ret false
      else
        logger INFO (MsgDimensions (fst (shape df)) (snd (shape df))) ;;
        do! df_processed := lift (preserve_numeric_precision df) in
        write_excel xlsx_path df_processed ;;
        logger SUCCESS (MsgConvertedTo (name xlsx_path)) ;;
        do! validation := validate_conversion file_path xlsx_path in
        emit (DisplayValidationResult (is_valid validation)
                (dimensions_match validation) (columns_match validation)
                (data_types_preserved validation)
                (sample_data_match validation)) ;;
        if is_valid validation then
          unlink file_path ;;
          logger DIM (MsgRemovedOriginal (name file_path)) ;;
          ret true
        else
          logger ERROR MsgKeepingOriginal ;;
          ret false
  end.

Definition process_csv_file (file_path : Path) : IO bool :=
  try_except (process_body file_path)
    (fun e =>
       logger ERROR (MsgFailedToProcess (name file_path) e) ;;
       ret false).

End Pipeline.

End Rich.

(** A step leaves the file system as it found it. *)
Definition keeps_fs {A} (m : IO A) : Prop :=
  forall w r w', m w = (r, w') -> fs w' = fs w.

(** ** A sample instance of the collaborators

    Table-driven stand-ins for the libraries and a reader of plain decimals
    for [parse_number]; the examples at the end of the file run on them. *)

Module Sample.

Definition digit (c : ascii) : option Z :=
  let n := Z.of_nat (nat_of_ascii c) in
  if (48 <=? n) && (n <=? 57) then Some (n - 48) else None.

Fixpoint digits (s : string) (acc : Z) : option Z :=
  match s with
  | EmptyString => Some acc
  | String c r =>
      match digit c with
      | Some d => digits r (10 * acc + d)
      | None => None
      end
  end.

Fixpoint split_dot (s : string) : string * option string :=
  match s with
  | EmptyString => (EmptyString, None)
  | String c r =>
      if Ascii.eqb c "."%char then (EmptyString, Some r)
      else let '(a, b) := split_dot r in (String c a, b)
  end.

(** Unsigned decimals: digits, optionally followed by a point and digits. *)
Definition parse_decimal (s : string) : option number :=
  match split_dot s with
  | (EmptyString, _) => None
  | (ip, None) =>
      match digits ip 0 with
      | Some z => Some (NInt z)
      | None => None
      end
  | (ip, Some fp) =>
      match digits ip 0, digits fp 0 with
      | Some a, Some b =>
          let k := Z.to_pos (10 ^ Z.of_nat (String.length fp)) in
          Some (NFloat (round64 (Qmake (a * Z.pos k + b) k)))
      | _, _ => None
      end
  end.

Definition text (l : list value) : Series := mkSeries object_ l.

Definition floats (l : list Q) : Series :=
  mkSeries float64 (map (fun q => VFloat (Ffin q)) l).

Definition ints (l : list Z) : Series := mkSeries int64 (map VInt l).

Definition orders : DataFrame :=
  [("id", ints [7; 42]); ("price", floats [3 # 2; 9 # 4]);
   ("label", text [VStr "a"; VStr "b"])].

Definition stock : DataFrame := [("sku", ints [1; 2]); ("qty", ints [10; 20])].

(** [stock] as a faulty writer would give it back: one quantity differs. *)
Definition stock_drifted : DataFrame :=
  [("sku", ints [1; 2]); ("qty", ints [10; 21])].

(** [stock] with its second column under another name. *)
Definition stock_renamed : DataFrame :=
  [("sku", ints [1; 2]); ("quantity", ints [10; 20])].

Definition headers_only : DataFrame := [("id", text []); ("price", text [])].

(** The text columns of the specification's examples. *)
Definition identifiers : Series := text [VStr "007"; VStr "042"; VStr "100"].
Definition partly_numeric : Series := text [VStr "1.5"; VStr "2.0"; VStr "bad"].
Definition fractional : Series := text [VStr "1.5"; VStr "2.25"; VStr "3.0"].
Definition fractional_with_gap : Series := text [VStr "1.5"; VFloat Fnan].

(** Identifiers of which one is just above the int64 range. *)
Definition large_identifiers : Series :=
  text [VStr "9223372036854775808"; VStr "1"].

Definition ragged_msg : string :=
  "Error tokenizing data. C error: Expected 2 fields in line 3, saw 3".

(** The CSV files of the sample, told apart by their single byte. *)
Definition read_csv (content : bytes) (a : csv_args) : Exc DataFrame :=
  match content with
  | [] => inl EmptyDataError
  | [Byte.x01] => inr orders
  | [Byte.x02] => inr stock
  | [Byte.x03] =>
      if String.eqb (engine a) "python" && String.eqb (on_bad_lines a) "warn"
      then inr stock else inl (ParserError ragged_msg)
  | [Byte.x04] =>
      if String.eqb (encoding a) "latin-1" then inr stock else inl UnicodeDecodeError
  | [Byte.x05] => inr headers_only
  | _ => inl (OtherError "unsupported sample")
  end.

Definition detect (raw : bytes) : option string * Q :=
  match raw with
  | [] => (None, 0%Q)
  | [Byte.x04] => (Some "Windows-1254", 1 # 2)
  | _ => (Some "ascii", 1%Q)
  end.

Definition to_excel (df : DataFrame) : write_outcome :=
  if bool_decide (columns df = ["id"; "price"; "label"]) then Written [Byte.x10]
  else if bool_decide (columns df = ["sku"; "qty"]) then Written [Byte.x11]
  else WriteFailed (OtherError "unsupported sample") [].

Definition read_excel (content : bytes) : Exc DataFrame :=
  match content with
  | [Byte.x10] => inr orders
  | [Byte.x11] => inr stock_drifted
  | [Byte.x12] => inr stock_renamed
  | _ => inl (OtherError "not a workbook")
  end.

#[export] Instance libs : Libs := {|
  chardet_detect := detect;
  pd_read_csv := read_csv;
  pd_read_excel := read_excel;
  excel_write := to_excel;
  parse_number := parse_decimal;
  str_float := fun _ => "float"
|}.

Definition in_downloads (file : string) : Path := ("Downloads", file).

Definition downloads : world :=
  World (list_to_map
           [(in_downloads "orders.csv", [Byte.x01]);
            (in_downloads "stock.csv", [Byte.x02]);
            (in_downloads "stock.xlsx", [Byte.x11]);
            (in_downloads "ragged.csv", [Byte.x03]);
            (in_downloads "latin.csv", [Byte.x04]);
            (in_downloads "empty.csv", []);
            (in_downloads "headers.csv", [Byte.x05]);
            (in_downloads "renamed.xlsx", [Byte.x12])]) [].

End Sample.

(** ** A second sample: a source with a gap, a workbook that fills it *)

Module Gaps.

(** Two readings, the second one missing. *)
Definition measured : DataFrame :=
  [("t", Sample.ints [1; 2]);
   ("reading", mkSeries float64 [VFloat (Ffin (3 # 2)); VFloat Fnan])].

(** The same table with a number in place of the missing reading. *)
Definition filled : DataFrame :=
  [("t", Sample.ints [1; 2]); ("reading", Sample.floats [3 # 2; 0 # 1])].

#[export] Instance libs : Libs := {|
  chardet_detect := Sample.detect;
  pd_read_csv := fun _ _ => inr measured;
  pd_read_excel := fun _ => inr filled;
  excel_write := fun _ => Written [Byte.x10];
  parse_number := Sample.parse_decimal;
  str_float := fun _ => "float"
|}.


End Gaps.

(** ** A third sample: a column name that holds a closing tag *)

Module Tagged.

(** The source table: its one column is called "a[/b]". *)
Definition tagged : DataFrame := [("a[/b]", Sample.ints [1; 2])].

(** A workbook in which the column is called "a". *)
Definition plain : DataFrame := [("a", Sample.ints [1; 2])].

#[export] Instance libs : Libs := {|
  chardet_detect := Sample.detect;
  pd_read_csv := fun _ _ => inr tagged;
  pd_read_excel := fun _ => inr plain;
  excel_write := fun _ => Written [Byte.x10];
  parse_number := Sample.parse_decimal;
  str_float := fun _ => "float"
|}.

(** The texts an exception carries into its [str]. *)
Definition exn_texts (e : exn) : list string :=
  match e with
  | ParserError m | KeyError m | ValueError m | TypeError m
  | MarkupError m | OtherError m => [m]
  | _ => []
  end.

(** The texts interpolated into the line of an event. *)
Definition texts (ev : event) : list string :=
  match ev with
  | Log _ m =>
      match m with
      | MsgDetectedEncoding enc _ | MsgReadWithEncoding enc
      | MsgAllStrategiesFailed enc => [enc]
      | MsgMalformed enc e => [enc; e]
      | MsgTrying n | MsgParsedUsing n => [n]
      | MsgErrorReading enc e => enc :: exn_texts e
      | MsgTypeChange col _ _ => [col]
      | MsgDataMismatch _ col a b => [col; py_str a; py_str b]
      | MsgValidationError e => exn_texts e
      | MsgEmptyCsv file | MsgConvertedTo file | MsgRemovedOriginal file => [file]
      | MsgFailedToProcess file e => file :: exn_texts e
      | _ => []
      end
  | DisplayProcessingStart file kind => [file; kind]
  | _ => []
  end.

(** Every line of the program closes the tags it opens, so a closing tag in
    the interpolated text matches no open tag. *)
Definition refused (ev : event) : bool := existsb (contains "[/") (texts ev).

#[export] Instance console : Console := {|
  renders := fun ev => negb (refused ev);
  markup_message := fun ev =>
    match ev with
    | Log ERROR (MsgValidationError (KeyError "a[/b]")) =>
        "closing tag '[/b]' at position 27 doesn't match any open tag"
    | _ => "closing tag '[/b]' doesn't match any open tag"
    end
|}.

Definition source : Path := Sample.in_downloads "tagged.csv".
Definition produced : Path := Sample.in_downloads "tagged.xlsx".

Definition downloads : world :=
  World (list_to_map [(source, [Byte.x01]); (produced, [Byte.x10])]) [].

End Tagged.

(** The world of the sample once "orders.xlsx" has been produced. *)
Definition downloads_with_orders : world :=
  World (<[Sample.in_downloads "orders.xlsx" := [Byte.x10]]> (fs Sample.downloads)) [].

(** * Properties *)

Section Footprint.

Variable ps : list Path.

Lemma depends_ret {A} (a : A) : depends_on ps (ret a).
Proof. intros f. exists (inr a), []. intros f' t _. unfold ret. by rewrite app_nil_r. Qed.

Lemma depends_raise {A} (e : exn) : depends_on ps (@raise A e).
Proof. intros f. exists (inl e), []. intros f' t _. unfold raise. by rewrite app_nil_r. Qed.

Lemma depends_lift {A} (r : Exc A) : depends_on ps (lift r).
Proof. intros f. exists r, []. intros f' t _. unfold lift. by rewrite app_nil_r. Qed.

Lemma depends_emit ev : depends_on ps (emit ev).
Proof. intros f. exists (inr tt), [ev]. by intros f' t _. Qed.

Lemma depends_logger lv m : depends_on ps (logger lv m).
Proof. apply depends_emit. Qed.

Lemma depends_read_file p : In p ps -> depends_on ps (read_file p).
Proof.
  intros Hp f. exists (match f !! p with Some b => inr b | None => inl FileNotFoundError end), [].
  intros f' t Hf. unfold read_file. simpl. rewrite (Hf p Hp), app_nil_r.
  by destruct (f !! p).
Qed.

Lemma depends_bind {A B} (m : IO A) (k : A -> IO B) :
  depends_on ps m -> (forall a, depends_on ps (k a)) -> depends_on ps (bind m k).
Proof.
  intros Hm Hk f. destruct (Hm f) as [r [evs Hr]].
  destruct r as [e|a].
  - exists (inl e), evs. intros f' t Hf. unfold bind. by rewrite (Hr f' t Hf).
  - destruct (Hk a f) as [r' [evs' Hr']]. exists r', (evs ++ evs').
    intros f' t Hf. unfold bind. rewrite (Hr f' t Hf), (Hr' f' _ Hf).
    by rewrite app_assoc.
Qed.

Lemma depends_try_except {A} (m : IO A) (h : exn -> IO A) :
  depends_on ps m -> (forall e, depends_on ps (h e)) -> depends_on ps (try_except m h).
Proof.
  intros Hm Hh f. destruct (Hm f) as [r [evs Hr]].
  destruct r as [e|a].
  - destruct (Hh e f) as [r' [evs' Hr']]. exists r', (evs ++ evs').
    intros f' t Hf. unfold try_except. rewrite (Hr f' t Hf), (Hr' f' _ Hf).
    by rewrite app_assoc.
  - exists (inr a), evs. intros f' t Hf. unfold try_except. by rewrite (Hr f' t Hf).
Qed.

End Footprint.

Ltac depends_step :=
  first
    [ apply depends_ret | apply depends_raise | apply depends_lift
    | apply depends_emit | apply depends_logger
    | apply depends_read_file; simpl; tauto
    | apply depends_bind; [|intros ?]
    | apply depends_try_except; [|intros ?] ].

Ltac depends_auto := repeat (depends_step; simpl).

Section NormaliserProperties.

Context {libs : Libs}.

(** ** The normaliser *)

Lemma astype_int_raises s e :
  astype_int s = inl e -> e = IntCastingNaNError.
Proof.
  unfold astype_int. destruct (dtype_of s); try discriminate.
  destruct (forallb _ _); [discriminate|]. congruence.
Qed.

Lemma coerce_column_spec df col s :
  coerce_column df col s
  = inr (if replaces s then setitem df col (to_numeric s) else df)
  \/ (coerce_column df col s = inl IntCastingNaNError /\ replaces s = false).
Proof.
  unfold coerce_column, replaces.
  destruct (isna_all (to_numeric s)); simpl; [by left|].
  destruct (Nat.eqb _ _); simpl; [|by left].
  destruct (astype_int (to_numeric s)) as [e|ints] eqn:E; simpl.
  - right. by rewrite (astype_int_raises _ _ E).
  - left. by destruct (all_notna_and_eq _ _).
Qed.

Lemma filter_named_notin col (df : DataFrame) :
  ~ In col (columns df) -> List.filter (named col) df = [].
Proof.
  induction df as [|[n s] df IH]; simpl; [done|].
  intros Hn. unfold named at 1. simpl.
  destruct (String.eqb_spec n col) as [->|Hne]; [tauto|]. apply IH. tauto.
Qed.

Lemma getitem_unique (df : DataFrame) col s :
  List.NoDup (columns df) -> In (col, s) df -> getitem df col = inr s.
Proof.
  unfold getitem. induction df as [|[n t] df IH]; simpl; [done|].
  intros Hnd [Heq|Hin].
  - inversion Heq; subst. unfold named at 1; simpl. rewrite String.eqb_refl.
    inversion Hnd; subst. by rewrite filter_named_notin.
  - inversion Hnd as [|? ? Hn Hnd']; subst.
    unfold named at 1; simpl.
    destruct (String.eqb_spec n col) as [->|Hne].
    + exfalso. apply Hn. change col with (fst (col, s)). by apply in_map.
    + by apply IH.
Qed.

Lemma unique_column (df : DataFrame) col s t :
  List.NoDup (columns df) -> In (col, s) df -> In (col, t) df -> s = t.
Proof.
  induction df as [|[n u] df IH]; simpl; [done|].
  intros Hnd Hs Ht. inversion Hnd as [|? ? Hn Hnd']; subst.
  assert (Hfst : forall x, In (n, x) df -> False).
  { intros x Hx. apply Hn. change n with (fst (n, x)). by apply in_map. }
  destruct Hs as [Hs|Hs], Ht as [Ht|Ht].
  - congruence.
  - inversion Hs; subst. destruct (Hfst _ Ht).
  - inversion Ht; subst. destruct (Hfst _ Hs).
  - by apply IH.
Qed.

Lemma columns_map_same (f : string * Series -> string * Series) (df : DataFrame) :
  (forall c, fst (f c) = fst c) -> columns (map f df) = columns df.
Proof.
  intros Hf. unfold columns. rewrite List.map_map. apply List.map_ext. apply Hf.
Qed.

Lemma fst_normalize_col c : fst (normalize_col c) = fst c.
Proof. unfold normalize_col. by destruct (_ && _). Qed.

Lemma preserve_loop_spec cols : forall df : DataFrame,
  List.NoDup cols -> (forall c, In c cols -> In c (columns df)) ->
  List.NoDup (columns df) ->
  preserve_loop cols df = inr (map (normalize_in cols) df).
Proof.
  induction cols as [|col rest IH]; intros df Hcols Hsub Hnd.
  - simpl. f_equal.
    rewrite (List.map_ext (normalize_in []) (fun c => c)); [|done].
    by rewrite List.map_id.
  - inversion Hcols as [|? ? Hnotin Hrest]; subst.
    assert (Hin : In col (columns df)) by (apply Hsub; by left).
    apply in_map_iff in Hin as [[n s] [Hn Hin]]. simpl in Hn. subst n.
    cbn [preserve_loop]. rewrite (getitem_unique df col s Hnd Hin). cbn [exc_bind].
    set (G := fun c : string * Series => if named col c then normalize_col c else c).
    assert (Hstep : forall df1, df1 = map G df ->
              preserve_loop rest df1 = inr (map (normalize_in (col :: rest)) df)).
    { intros df1 ->. rewrite IH; [|done| |].
      - f_equal. rewrite List.map_map. apply List.map_ext. intros c.
        unfold G, normalize_in, named. cbn [existsb].
        destruct (String.eqb_spec (fst c) col) as [Hc|Hc]; cbn [orb]; [|done].
        rewrite fst_normalize_col.
        replace (existsb (String.eqb (fst c)) rest) with false; [done|].
        symmetry. apply not_true_is_false. intros Hex.
        apply existsb_exists in Hex as [x [Hx Hxe]].
        apply String.eqb_eq in Hxe. congruence.
      - intros c Hc. rewrite columns_map_same.
        + apply Hsub. by right.
        + intros c0. unfold G. destruct (named col c0); [apply fst_normalize_col|done].
      - rewrite columns_map_same; [done|].
        intros c0. unfold G. destruct (named col c0); [apply fst_normalize_col|done]. }
    assert (Hcol : forall c, In c df -> named col c = true -> c = (col, s)).
    { intros [n t] Hc Hnamed. unfold named in Hnamed. simpl in Hnamed.
      apply String.eqb_eq in Hnamed. subst n. f_equal.
      eapply unique_column; eauto. }
    assert (Hkeep : dtype_eqb (dtype_of s) object_ && replaces s = false -> df = map G df).
    { intros Hno. rewrite (List.map_ext_in G (fun c => c)); [by rewrite List.map_id|].
      intros c Hc. unfold G. destruct (named col c) eqn:Hnm; [|done].
      rewrite (Hcol c Hc Hnm). unfold normalize_col. simpl. by rewrite Hno. }
    assert (Hset : dtype_eqb (dtype_of s) object_ && replaces s = true ->
                   setitem df col (to_numeric s) = map G df).
    { intros Hyes. unfold setitem. apply List.map_ext_in.
      intros c Hc. unfold G. destruct (named col c) eqn:Hnm; [|done].
      rewrite (Hcol c Hc Hnm). unfold normalize_col. simpl. by rewrite Hyes. }
    destruct (dtype_eqb (dtype_of s) object_) eqn:Hobj.
    + destruct (coerce_column_spec df col s) as [E|[E Hr]]; rewrite E.
      * apply Hstep. destruct (replaces s); [by apply Hset|by apply Hkeep].
      * cbn [is_ValueError_or_TypeError]. apply Hstep. apply Hkeep. by rewrite Hr.
    + apply Hstep. by apply Hkeep.
Qed.

Lemma preserve_numeric_precision_spec (df : DataFrame) :
  List.NoDup (columns df) ->
  preserve_numeric_precision df = inr (map normalize_col df).
Proof.
  intros Hnd. unfold preserve_numeric_precision.
  rewrite preserve_loop_spec; [|done|done|done].
  f_equal. apply List.map_ext_in. intros c Hc. unfold normalize_in.
  replace (existsb (String.eqb (fst c)) (columns df)) with true; [done|].
  symmetry. apply existsb_exists. exists (fst c). split.
  - unfold columns. by apply in_map.
  - apply String.eqb_refl.
Qed.

(** *** Rounding and casts *)

Lemma round64_not_nan q : round64 q <> Fnan.
Proof.
  unfold round64. destruct (Qnum q =? 0); [done|].
  destruct (scaled _ _ _) as [num den].
  destruct (0 <=? _); [|done]. by destruct (_ <=? _).
Qed.

Lemma round64_zero q : Qnum q = 0 -> round64 q = Ffin 0.
Proof. intros H. unfold round64. by rewrite H. Qed.

Lemma floor_log2_int a : 0 < a -> floor_log2 a 1 = Z.log2 a.
Proof.
  intros Ha. unfold floor_log2, scaled. change (Z.log2 1) with 0.
  rewrite Z.sub_0_r. pose proof (Z.log2_nonneg a) as Hl.
  replace (0 <=? Z.log2 a) with true by (symmetry; apply Z.leb_le; lia).
  rewrite Z.mul_1_l. destruct (Z.log2_spec a Ha) as [Hlo _].
  by replace (a <? 2 ^ Z.log2 a) with false by (symmetry; apply Z.ltb_ge; lia).
Qed.

Lemma round_half_even_le num den :
  0 <= num -> 0 < den -> round_half_even num den * den <= num + den.
Proof.
  intros Hn Hd. unfold round_half_even.
  pose proof (Z.div_mod num den ltac:(lia)) as Hdm.
  pose proof (Z.mod_pos_bound num den Hd) as Hr.
  destruct (_ ?= _); [destruct (Z.even _)|..]; nia.
Qed.

(** An integer far below the largest float has a finite nearest float. *)
Lemma f64_of_Z_finite z : Z.abs z < 2 ^ 1023 -> isfinite (f64_of_Z z) = true.
Proof.
  intros Hz. unfold f64_of_Z, round64. cbn [Qnum Qden inject_Z].
  destruct (z =? 0) eqn:Hz0; [done|]. apply Z.eqb_neq in Hz0.
  assert (Ha : 0 < Z.abs z) by lia.
  rewrite (floor_log2_int _ Ha).
  destruct (Z.log2_spec _ Ha) as [Hlo _].
  set (e := Z.log2 (Z.abs z)) in *. set (u := Z.max (e - 52) (- 1074)).
  unfold scaled. destruct (0 <=? u) eqn:Hu; [|done].
  apply Z.leb_le in Hu. rewrite Z.mul_1_l.
  assert (Hpow : 0 < 2 ^ u) by (apply Z.pow_pos_nonneg; lia).
  pose proof (round_half_even_le (Z.abs z) (2 ^ u) ltac:(lia) Hpow) as Hm.
  assert (Hue : 2 ^ u <= 2 ^ e) by (apply Z.pow_le_mono_r; lia).
  assert (Htop : 2 ^ 1024 = 2 * 2 ^ 1023) by (by rewrite <- Z.pow_succ_r).
  replace (2 ^ 1024 <=? round_half_even (Z.abs z) (2 ^ u) * 2 ^ u) with false; [done|].
  symmetry. apply Z.leb_gt. lia.
Qed.

Lemma in_int_range_small z : in_int_range z = true -> Z.abs z < 2 ^ 1023.
Proof.
  unfold in_int_range, INT64_MIN, UINT64_MAX. rewrite andb_true_iff, !Z.leb_le.
  intros [Hlo Hhi].
  assert (2 ^ 64 < 2 ^ 1023) by (apply Z.pow_lt_mono_r; lia).
  assert (2 ^ 63 < 2 ^ 64) by (apply Z.pow_lt_mono_r; lia). lia.
Qed.

Lemma wrap_int64_bounds z : in_int64 (wrap_int64 z) = true.
Proof.
  unfold in_int64, wrap_int64, INT64_MIN, INT64_MAX.
  pose proof (Z.mod_pos_bound (z + 2 ^ 63) (2 ^ 64) ltac:(lia)) as Hb.
  apply andb_true_iff. rewrite !Z.leb_le. lia.
Qed.

Lemma wrap_int64_id z : in_int64 z = true -> wrap_int64 z = z.
Proof.
  unfold in_int64, wrap_int64, INT64_MIN, INT64_MAX.
  rewrite andb_true_iff, !Z.leb_le. intros [Hlo Hhi].
  rewrite Z.mod_small by lia. lia.
Qed.

Lemma wrap_int64_changes z : in_int64 z = false -> Z.eqb z (wrap_int64 z) = false.
Proof.
  intros Hz. apply Z.eqb_neq. intros Heq.
  pose proof (wrap_int64_bounds z) as Hb. rewrite <- Heq in Hb. congruence.
Qed.

(** *** The coerced column *)

Lemma int_reading_numeric z : is_numeric_scalar (int_reading z) = true.
Proof. unfold int_reading. by destruct (in_int_range z). Qed.

Lemma to_numeric_scalar_numeric v : is_numeric_scalar (to_numeric_scalar v) = true.
Proof.
  destruct v as [|f|z|b|t]; simpl; try done; [apply int_reading_numeric|].
  destruct (parse_number t) as [[z|f]|]; try done. apply int_reading_numeric.
Qed.

Lemma to_numeric_scalar_isna v : isna v = true -> to_numeric_scalar v = VFloat Fnan.
Proof. destruct v as [|[| |]| | |]; simpl; congruence. Qed.

Lemma int_reading_int z y : int_reading z = VInt y -> in_int_range y = true.
Proof.
  unfold int_reading. destruct (in_int_range z) eqn:Hz; [|done]. congruence.
Qed.

Lemma to_numeric_scalar_int v z :
  to_numeric_scalar v = VInt z -> in_int_range z = true.
Proof.
  destruct v as [|f|y|b|t]; simpl; try done; [apply int_reading_int|].
  destruct (parse_number t) as [[y|f]|]; try done. apply int_reading_int.
Qed.

Lemma to_float_not_nan x :
  is_numeric_scalar x = true -> notna x = true -> to_float x <> Fnan.
Proof.
  destruct x as [|f|z|b|t]; simpl; try done.
  - by destruct f.
  - intros _ _. apply round64_not_nan.
  - intros _ _. apply round64_not_nan.
Qed.

Lemma zip_with_map_r {A B C} (h : A -> B -> C) (f : A -> B) (l : list A) :
  zip_with h l (map f l) = map (fun a => h a (f a)) l.
Proof. induction l as [|a l IH]; simpl; [done|]. by rewrite IH. Qed.

Lemma forallb_false_witness {A} (f : A -> bool) (l : list A) :
  forallb f l = false <-> exists x, In x l /\ f x = false.
Proof.
  induction l as [|a l IH]; simpl.
  - split; [done|]. by intros [x [[] _]].
  - rewrite andb_false_iff, IH. split.
    + intros [Ha|[x [Hx Hf]]]; eauto.
    + intros [x [[->|Hx] Hf]]; eauto.
Qed.

Lemma filter_notna_map (g : value -> value) (l : list value) :
  (forall v, In v l -> notna (g v) = notna v) ->
  length (List.filter notna (map g l)) = length (List.filter notna l).
Proof.
  induction l as [|a l IH]; simpl; [done|]. intros Hg.
  rewrite (Hg a) by (by left). destruct (notna a); simpl; rewrite IH; auto.
Qed.

Lemma in_as_floats s y :
  In y (as_floats s) <->
  exists v, In v (values s) /\ y = VFloat (to_float (to_numeric_scalar v)).
Proof.
  unfold as_floats. rewrite in_map_iff. split.
  - intros [x [<- Hx]]. apply in_map_iff in Hx as [v [<- Hv]]. eauto.
  - intros [v [Hv ->]]. eexists. split; [done|]. by apply in_map.
Qed.

(** The three shapes of the coerced column. *)
Lemma to_numeric_cases s :
  let xs := map to_numeric_scalar (values s) in
  to_numeric s = mkSeries float64 (as_floats s)
  \/ (existsb is_VFloat xs = false /\ forallb fits_int64 xs = true
      /\ (to_numeric s = mkSeries int64 (map int_of_bool xs)
          \/ to_numeric s = mkSeries bool_ xs))
  \/ (existsb is_VFloat xs = false /\ forallb fits_int64 xs = false
      /\ existsb is_negative xs = false
      /\ to_numeric s = mkSeries uint64 (map int_of_bool xs)).
Proof.
  intros xs. unfold to_numeric. fold xs. fold (as_floats s). cbv zeta.
  destruct (existsb is_VFloat xs) eqn:Hf; [by left|].
  destruct (existsb is_VInt xs) eqn:Hi.
  - destruct (forallb fits_int64 xs) eqn:Hfit; [right; left; eauto|].
    destruct (existsb is_negative xs) eqn:Hneg; [by left|].
    right. right. done.
  - right. left. split; [done|]. split.
    + apply forallb_forall. intros x Hx. destruct x; try done.
      assert (existsb is_VInt xs = true) by (apply existsb_exists; eauto).
      congruence.
    + destruct xs; [by left|by right].
Qed.

Lemma to_numeric_float s :
  existsb is_VFloat (map to_numeric_scalar (values s)) = true ->
  to_numeric s = mkSeries float64 (as_floats s).
Proof. intros Hf. unfold to_numeric. cbv zeta. by rewrite Hf. Qed.

Lemma to_numeric_dtype s : dtype_of (to_numeric s) <> object_.
Proof.
  destruct (to_numeric_cases s) as [->|[[_ [_ [->| ->]]]|[_ [_ [_ ->]]]]]; done.
Qed.

Lemma no_float_cells s x :
  existsb is_VFloat (map to_numeric_scalar (values s)) = false ->
  In x (map to_numeric_scalar (values s)) ->
  (exists z, x = VInt z /\ in_int_range z = true) \/ (exists b, x = VBool b).
Proof.
  intros Hnf Hx. pose proof Hx as Hx'.
  apply in_map_iff in Hx' as [v [Hv _]].
  pose proof (to_numeric_scalar_numeric v) as Hnum. rewrite Hv in Hnum.
  destruct x as [|f|z|b|t]; try done.
  - assert (existsb is_VFloat (map to_numeric_scalar (values s)) = true)
      by (apply existsb_exists; eauto).
    congruence.
  - left. exists z. split; [done|]. by apply (to_numeric_scalar_int v).
  - right. eauto.
Qed.

(** *** When a column is replaced *)

(** A column read as integers that all fit int64, or as booleans, is equal
    to its integer cast and is not replaced. *)
Lemma replaces_int64 s :
  existsb is_VFloat (map to_numeric_scalar (values s)) = false ->
  forallb fits_int64 (map to_numeric_scalar (values s)) = true ->
  replaces s = false.
Proof.
  intros Hnf Hfit.
  set (xs := map to_numeric_scalar (values s)) in *.
  assert (Hcell : forall x, In x xs ->
            notna (int_of_bool x)
            && value_eqb (int_of_bool x) (astype_int_cell (int_of_bool x)) = true
            /\ notna x && value_eqb x (astype_int_cell x) = true).
  { intros x Hx. rewrite forallb_forall in Hfit. specialize (Hfit x Hx).
    destruct (no_float_cells s x Hnf Hx) as [[z [-> _]]|[b ->]]; simpl in *.
    - rewrite (wrap_int64_id z Hfit). by rewrite Z.eqb_refl.
    - split; [by rewrite wrap_int64_id by (by destruct b); rewrite Z.eqb_refl|].
      destruct b; reflexivity. }
  assert (E : forall (d : dtype) (g : value -> value),
            (forall x, In x xs ->
               notna (g x) && value_eqb (g x) (astype_int_cell (g x)) = true) ->
            all_notna_and_eq (mkSeries d (map g xs))
              (mkSeries int64 (map astype_int_cell (map g xs))) = true).
  { intros d g Hg. unfold all_notna_and_eq. simpl. rewrite zip_with_map_r.
    apply forallb_forall. intros b Hb.
    apply in_map_iff in Hb as [y [<- Hy]]. apply in_map_iff in Hy as [x [<- Hx]].
    by apply Hg. }
  unfold replaces. apply andb_false_iff. right.
  pose proof (to_numeric_cases s) as Hc. cbv zeta in Hc. fold xs in Hc.
  destruct Hc as [Hfl|[[_ [_ [-> | ->]]]|[_ [Hno _]]]].
  - exfalso. pose proof (f_equal dtype_of Hfl) as Hd. revert Hd.
    unfold to_numeric. cbv zeta. fold xs. rewrite Hnf, Hfit.
    destruct (existsb is_VInt xs); [done|]. by destruct xs.
  - unfold astype_int. cbn [dtype_of values].
    rewrite (E int64 int_of_bool); [done|]. intros x Hx. by destruct (Hcell x Hx).
  - unfold astype_int. cbn [dtype_of values].
    pose proof (E bool_ (fun x => x)) as E2. rewrite List.map_id in E2.
    rewrite E2; [done|]. intros x Hx. by destruct (Hcell x Hx).
  - congruence.
Qed.

(** A column read as integers of which one exceeds int64 and none is
    negative becomes uint64; the cast to int64 changes the large ones, so
    the column is replaced. *)
Lemma replaces_uint64 s :
  let xs := map to_numeric_scalar (values s) in
  existsb is_VFloat xs = false -> forallb fits_int64 xs = false ->
  existsb is_negative xs = false ->
  to_numeric s = mkSeries uint64 (map int_of_bool xs) /\ replaces s = true.
Proof.
  intros xs Hnf Hfit Hneg.
  assert (Hnum : to_numeric s = mkSeries uint64 (map int_of_bool xs)).
  { pose proof (to_numeric_cases s) as Hc. cbv zeta in Hc. fold xs in Hc.
    destruct Hc as [Hfl|[[_ [Hyes _]]|[_ [_ [_ Hu]]]]]; [| |done].
    - exfalso. pose proof (f_equal dtype_of Hfl) as Hd. revert Hd.
      unfold to_numeric. cbv zeta. fold xs. rewrite Hnf, Hfit, Hneg.
      destruct (existsb is_VInt xs); [done|]. by destruct xs.
    - congruence. }
  split; [done|].
  apply forallb_false_witness in Hfit as [x0 [Hx0 Hbig]].
  assert (Hpresent : forall x, In x xs -> notna (int_of_bool x) = true).
  { intros x Hx. by destruct (no_float_cells s x Hnf Hx) as [[z [-> _]]|[b ->]]. }
  assert (Hsrc : forall v, In v (values s) -> notna v = true).
  { intros v Hv. apply negb_true_iff, not_true_is_false. intros Hna.
    assert (existsb is_VFloat xs = true); [|congruence].
    apply existsb_exists. exists (VFloat Fnan). split; [|done].
    rewrite <- (to_numeric_scalar_isna v Hna). by apply in_map. }
  unfold replaces. rewrite Hnum.
  apply andb_true_iff; split; [apply andb_true_iff; split|].
  - apply negb_true_iff. unfold isna_all. cbn [values].
    apply forallb_false_witness. exists (int_of_bool x0). split; [by apply in_map|].
    apply negb_true_iff. by apply Hpresent.
  - apply Nat.eqb_eq. unfold len, dropna. cbn [values].
    rewrite (forallb_filter_id notna (values s)) by (by apply forallb_forall).
    rewrite forallb_filter_id.
    + unfold xs. by rewrite !length_map.
    + apply forallb_forall. intros y Hy. apply in_map_iff in Hy as [x [<- Hx]].
      by apply Hpresent.
  - unfold astype_int. cbn [dtype_of values].
    apply negb_true_iff. unfold all_notna_and_eq. cbn [values].
    rewrite zip_with_map_r. apply forallb_false_witness. exists false. split; [|done].
    apply in_map_iff. exists (int_of_bool x0). split; [|by apply in_map].
    destruct x0 as [|f|z|b|t]; try done. simpl in *.
    by rewrite (wrap_int64_changes z Hbig).
Qed.

(** The decision on a column coerced to float64. *)
Lemma replaces_float s :
  to_numeric s = mkSeries float64 (as_floats s) ->
  replaces s
  = negb (forallb isna (as_floats s))
    && Nat.eqb (length (List.filter notna (as_floats s)))
               (length (List.filter notna (values s)))
    && (if forallb finite_cell (as_floats s)
        then negb (forallb cell_is_integer (as_floats s)) else false).
Proof.
  intros Hf. unfold replaces. rewrite Hf.
  unfold isna_all, len, dropna, astype_int. simpl.
  destruct (forallb finite_cell (as_floats s)); [|done].
  unfold all_notna_and_eq. simpl. rewrite zip_with_map_r.
  clear Hf. apply (f_equal (andb _)), (f_equal negb).
  induction (as_floats s) as [|y l IH]; simpl; [done|]. by rewrite IH.
Qed.

Lemma replaces_all_finite s :
  replaces s = true ->
  forall v, In v (values s) -> finite_number (to_numeric_scalar v) = true.
Proof.
  intros Hr v Hv.
  destruct (to_numeric_cases s) as [Hfl|[[Hnf [Hfit _]]|[Hnf _]]].
  - rewrite (replaces_float s Hfl) in Hr.
    apply andb_true_iff in Hr as [_ Hr].
    destruct (forallb finite_cell (as_floats s)) eqn:Hfin; [|done].
    rewrite forallb_forall in Hfin.
    apply (Hfin (VFloat (to_float (to_numeric_scalar v)))).
    apply in_as_floats. eauto.
  - by rewrite (replaces_int64 s Hnf Hfit) in Hr.
  - unfold finite_number.
    destruct (no_float_cells s (to_numeric_scalar v) Hnf (in_map _ _ _ Hv))
      as [[z [-> Hz]]|[b ->]].
    + apply f64_of_Z_finite. by apply in_int_range_small.
    + destruct b; reflexivity.
Qed.

Lemma normalized_column (df : DataFrame) col s :
  List.NoDup (columns df) -> In (col, s) df -> dtype_of s = object_ ->
  preserve_numeric_precision df = inr (map normalize_col df)
  /\ getitem (map normalize_col df) col
     = inr (if replaces s then to_numeric s else s).
Proof.
  intros Hnd Hin Hobj. split; [by apply preserve_numeric_precision_spec|].
  apply getitem_unique.
  - rewrite columns_map_same; [done|apply fst_normalize_col].
  - apply in_map_iff. exists (col, s). split; [|done].
    unfold normalize_col. simpl. rewrite Hobj. simpl. by destruct (replaces s).
Qed.

Lemma replaced_iff_replaces (df : DataFrame) col s :
  List.NoDup (columns df) -> In (col, s) df -> dtype_of s = object_ ->
  (replaced_by_numeric df col s <-> replaces s = true)
  /\ (replaces s = false -> left_as_text df col s).
Proof.
  intros Hnd Hin Hobj.
  destruct (normalized_column df col s Hnd Hin Hobj) as [Hp Hg].
  split; [split|].
  - intros [df' [Hp' Hg']]. rewrite Hp in Hp'. inversion Hp'; subst df'.
    rewrite Hg in Hg'. destruct (replaces s); [done|].
    inversion Hg' as [Heq]. pose proof (to_numeric_dtype s) as Hd.
    rewrite <- Heq in Hd. done.
  - intros Hr. eexists. split; [exact Hp|]. by rewrite Hg, Hr.
  - intros Hr. eexists. split; [exact Hp|]. by rewrite Hg, Hr.
Qed.

(** C10.  A text (object) column that contains a missing value, and whose
    other values all coerce to numbers, is left unchanged as text, whether or
    not some coerced value has a fractional part: [astype(int)] raises
    IntCastingNaNError on the coerced column, the error is a ValueError, so
    the handler of the column catches it, and it is what the body of the
    [try] raises as soon as the column has a value that is not missing. *)
Theorem missing_value_keeps_text (df : DataFrame) (col : string) (s : Series) :
  List.NoDup (columns df) -> In (col, s) df -> dtype_of s = object_ ->
  (exists v, In v (values s) /\ isna v = true) ->
  (forall v, In v (values s) -> isna v = false ->
     notna (to_numeric_scalar v) = true) ->
  left_as_text df col s
  /\ astype_int (to_numeric s) = inl IntCastingNaNError
  /\ is_ValueError_or_TypeError IntCastingNaNError = true
  /\ ((exists v, In v (values s) /\ isna v = false) ->
      coerce_column df col s = inl IntCastingNaNError).
Proof.
  intros Hnd Hin Hobj [v0 [Hv0 Hna0]] Hcoerce.
  pose proof (to_numeric_scalar_isna v0 Hna0) as Hnan.
  assert (Hf : existsb is_VFloat (map to_numeric_scalar (values s)) = true).
  { apply existsb_exists. exists (to_numeric_scalar v0). split; [by apply in_map|].
    by rewrite Hnan. }
  pose proof (to_numeric_float s Hf) as Hnum.
  assert (Hraise : astype_int (to_numeric s) = inl IntCastingNaNError).
  { rewrite Hnum. unfold astype_int. simpl.
    replace (forallb finite_cell (as_floats s)) with false; [done|].
    symmetry. apply forallb_false_witness.
    exists (VFloat (to_float (to_numeric_scalar v0))). split.
    - apply in_as_floats. eauto.
    - by rewrite Hnan. }
  split; [|split; [done|split; [done|]]].
  - apply (replaced_iff_replaces df col s Hnd Hin Hobj).
    apply not_true_is_false. intros Hr.
    pose proof (replaces_all_finite s Hr v0 Hv0) as Hfin. by rewrite Hnan in Hfin.
  - intros [v1 [Hv1 Hna1]]. unfold coerce_column. rewrite Hraise.
    assert (Hsame : forall v, In v (values s) ->
              notna (VFloat (to_float (to_numeric_scalar v))) = notna v).
    { intros v Hv. destruct (isna v) eqn:Hna.
      - rewrite (to_numeric_scalar_isna v Hna). unfold notna. by rewrite Hna.
      - specialize (Hcoerce v Hv Hna). unfold notna at 2. rewrite Hna. simpl.
        pose proof (to_float_not_nan _ (to_numeric_scalar_numeric v) Hcoerce) as Hnn.
        unfold notna. simpl. by destruct (to_float (to_numeric_scalar v)). }
    replace (isna_all (to_numeric s)) with false.
    + replace (Nat.eqb (len (dropna (to_numeric s))) (len (dropna s))) with true; [done|].
      symmetry. apply Nat.eqb_eq. unfold len, dropna. rewrite Hnum. simpl.
      unfold as_floats. rewrite List.map_map. by apply filter_notna_map.
    + symmetry. unfold isna_all. rewrite Hnum. simpl.
      apply forallb_false_witness.
      exists (VFloat (to_float (to_numeric_scalar v1))). split.
      * apply in_as_floats. eauto.
      * specialize (Hsame v1 Hv1). unfold notna in Hsame. rewrite Hna1 in Hsame.
        by apply negb_true_iff in Hsame.
Qed.

End NormaliserProperties.

Section ReaderProperties.

Context {libs : Libs}.

(** ** What the reader and the validator depend on *)

Lemma depends_detect ps p n : In p ps -> depends_on ps (detect_file_encoding p n).
Proof.
  intros Hp. unfold detect_file_encoding.
  apply depends_bind; [by apply depends_read_file|]. intros content.
  simpl. destruct (_ && _); depends_auto.
Qed.

Lemma depends_read_csv_at ps p a : In p ps -> depends_on ps (read_csv_at p a).
Proof.
  intros Hp. unfold read_csv_at.
  apply depends_bind; [apply depends_emit|]. intros _.
  apply depends_bind; [by apply depends_read_file|]. intros c. apply depends_lift.
Qed.

Lemma depends_try_parse ps p e g o q d :
  In p ps -> depends_on ps (try_parse_csv_with_strategy p e g o q d).
Proof.
  intros Hp. unfold try_parse_csv_with_strategy.
  apply depends_try_except; [|intros ?; apply depends_ret].
  apply depends_bind; [by apply depends_read_csv_at|]. intros ?. apply depends_ret.
Qed.

Lemma depends_try_strategies ps p enc l :
  In p ps -> depends_on ps (try_strategies p enc l).
Proof.
  intros Hp. induction l as [|[nm a] l IH]; simpl; [apply depends_ret|].
  apply depends_bind; [apply depends_logger|]. intros _.
  apply depends_bind; [by apply depends_try_parse|]. intros [df|]; [|done].
  depends_auto.
Qed.

Lemma depends_read_loop ps p encs : In p ps -> depends_on ps (read_loop p encs).
Proof.
  intros Hp. induction encs as [|enc rest IH]; cbn [read_loop]; [depends_auto|].
  apply depends_try_except.
  - apply depends_bind; [by apply depends_read_csv_at|]. intros df. depends_auto.
  - intros e.
    assert (Hlog : depends_on ps
              (bind (logger ERROR (MsgErrorReading enc e)) (fun _ => read_loop p rest))).
    { apply depends_bind; [apply depends_logger|]. by intros _. }
    destruct e; try done.
    destruct (expected_fields msg); [|done].
    apply depends_bind; [apply depends_logger|]. intros _.
    apply depends_bind; [apply depends_logger|]. intros _.
    apply depends_bind; [by apply depends_try_strategies|]. intros [df|]; [apply depends_ret|].
    apply depends_bind; [apply depends_logger|]. by intros _.
Qed.

Lemma depends_read_csv ps p : In p ps -> depends_on ps (read_csv_with_encoding p).
Proof.
  intros Hp. unfold read_csv_with_encoding.
  apply depends_bind; [by apply depends_detect|]. intros enc.
  by apply depends_read_loop.
Qed.

Lemma depends_check_dtypes ps a b cols flag : depends_on ps (check_dtypes a b cols flag).
Proof.
  revert flag. induction cols as [|c cols IH]; intros flag; simpl; [apply depends_ret|].
  apply depends_bind; [apply depends_lift|]. intros s1.
  apply depends_bind; [apply depends_lift|]. intros s2.
  destruct (negb _); [|done]. destruct (negb _); [|done].
  apply depends_bind; [apply depends_logger|]. by intros _.
Qed.

Lemma depends_check_row ps a b i cols flag : depends_on ps (check_row a b i cols flag).
Proof.
  revert flag. induction cols as [|c cols IH]; intros flag; simpl; [apply depends_ret|].
  apply depends_bind; [apply depends_lift|]. intros v1.
  apply depends_bind; [apply depends_lift|]. intros v2.
  destruct (_ && _); [done|]. destruct (_ && _).
  - destruct (f64_gt _ _); [|done].
    apply depends_bind; [apply depends_logger|]. by intros _.
  - destruct (negb _); [|done].
    apply depends_bind; [apply depends_logger|]. by intros _.
Qed.

Lemma depends_check_rows ps a b rows flag : depends_on ps (check_rows a b rows flag).
Proof.
  revert flag. induction rows as [|i rows IH]; intros flag; simpl; [apply depends_ret|].
  apply depends_bind; [apply depends_check_row|]. by intros ?.
Qed.

Lemma depends_validate_body csv xlsx :
  depends_on [csv; xlsx] (validate_body csv xlsx).
Proof.
  unfold validate_body.
  apply depends_bind; [apply depends_read_csv; simpl; tauto|]. intros [df|]; [|apply depends_ret].
  apply depends_bind.
  { unfold read_excel_at. apply depends_bind; [apply depends_read_file; simpl; tauto|].
    intros ?. apply depends_lift. }
  intros dx. apply depends_bind; [apply depends_check_dtypes|]. intros ?.
  apply depends_bind; [|intros ?; apply depends_ret].
  destruct (Nat.ltb _ _); [apply depends_check_rows|apply depends_ret].
Qed.

Lemma depends_validate csv xlsx :
  depends_on [csv; xlsx] (validate_conversion csv xlsx).
Proof.
  unfold validate_conversion. apply depends_try_except; [apply depends_validate_body|].
  intros e. depends_auto.
Qed.

(** ** The reader *)

Lemma csv_calls_app p e1 e2 : csv_calls p (e1 ++ e2) = csv_calls p e1 ++ csv_calls p e2.
Proof.
  induction e1 as [|ev e1 IH]; simpl; [done|].
  destruct ev; try done. case_bool_decide; simpl; by rewrite IH.
Qed.

Lemma read_csv_at_run p a f t :
  read_csv_at p a (World f t)
  = (match f !! p with
     | Some c => pd_read_csv c a
     | None => inl FileNotFoundError
     end, World f (t ++ [ReadCsvCall p a])).
Proof.
  unfold read_csv_at, bind, emit, read_file, lift. simpl. by destruct (f !! p).
Qed.

Lemma try_parse_run p a f t c :
  f !! p = Some c ->
  try_parse_csv_with_strategy p (encoding a) (engine a) (on_bad_lines a)
    (quoting a) (delimiter a) (World f t)
  = (inr (match pd_read_csv c a with inr df => Some df | inl _ => None end),
     World f (t ++ [ReadCsvCall p a])).
Proof.
  intros Hc. unfold try_parse_csv_with_strategy, try_except, bind.
  replace (mkArgs (encoding a) (engine a) (on_bad_lines a) (quoting a) (delimiter a))
    with a by (by destruct a).
  rewrite read_csv_at_run, Hc. by destruct (pd_read_csv c a).
Qed.

(** The strategies before the first one that parses all fail, and the loop
    returns what that one parsed after exactly these calls. *)
Lemma try_strategies_first_success p enc c pre nm a post df : forall f t,
  f !! p = Some c ->
  Forall (fun s => succeeds c (snd s) = false) pre ->
  pd_read_csv c a = inr df ->
  exists evs,
    try_strategies p enc (pre ++ (nm, a) :: post) (World f t)
    = (inr (Some df), World f (t ++ evs))
    /\ csv_calls p evs = map snd pre ++ [a].
Proof.
  induction pre as [|[n b] pre IH]; intros f t Hc Hpre Ha.
  - simpl. unfold bind at 1. unfold logger at 1, emit at 1. simpl.
    unfold bind at 1. rewrite (try_parse_run p a _ _ c Hc), Ha. simpl.
    eexists. split.
    + unfold bind, logger, emit, ret. simpl. rewrite <- !app_assoc. reflexivity.
    + simpl. by rewrite bool_decide_true.
  - inversion Hpre as [|? ? Hb Hpre']; subst. simpl in Hb. unfold succeeds in Hb.
    simpl. unfold bind at 1. unfold logger at 1, emit at 1. simpl.
    unfold bind at 1. rewrite (try_parse_run p b _ _ c Hc).
    destruct (pd_read_csv c b); [|done]. simpl.
    destruct (IH f ((t ++ [Log DIM (MsgTrying n)]) ++ [ReadCsvCall p b]) Hc Hpre' Ha)
      as [evs [Hrun Hcalls]].
    exists ([Log DIM (MsgTrying n); ReadCsvCall p b] ++ evs). split.
    + rewrite Hrun. do 2 f_equal. by rewrite <- !app_assoc.
    + rewrite csv_calls_app, Hcalls. simpl. by rewrite bool_decide_true.
Qed.

Lemma try_strategies_all_fail p enc c l : forall f t,
  f !! p = Some c ->
  Forall (fun s => succeeds c (snd s) = false) l ->
  exists evs,
    try_strategies p enc l (World f t) = (inr None, World f (t ++ evs))
    /\ csv_calls p evs = map snd l.
Proof.
  induction l as [|[n b] l IH]; intros f t Hc Hl.
  - exists []. simpl. unfold ret. by rewrite app_nil_r.
  - inversion Hl as [|? ? Hb Hl']; subst. simpl in Hb. unfold succeeds in Hb.
    simpl. unfold bind at 1. unfold logger at 1, emit at 1. simpl.
    unfold bind at 1. rewrite (try_parse_run p b _ _ c Hc).
    destruct (pd_read_csv c b); [|done]. simpl.
    destruct (IH f ((t ++ [Log DIM (MsgTrying n)]) ++ [ReadCsvCall p b]) Hc Hl')
      as [evs [Hrun Hcalls]].
    exists ([Log DIM (MsgTrying n); ReadCsvCall p b] ++ evs). split.
    + rewrite Hrun. do 2 f_equal. by rewrite <- !app_assoc.
    + rewrite csv_calls_app, Hcalls. simpl. by rewrite bool_decide_true.
Qed.

Lemma map_snd_split {A B} (l : list (A * B)) pre b post :
  map snd l = pre ++ b :: post ->
  exists pre' a post', l = pre' ++ (a, b) :: post' /\ map snd pre' = pre.
Proof.
  revert pre. induction l as [|[a0 b0] l IH]; intros pre Hl.
  - by destruct pre.
  - destruct pre as [|b1 pre]; simpl in Hl; inversion Hl; subst.
    + by exists [], a0, l.
    + destruct (IH pre) as [pre' [a [post' [-> Hp]]]]; [done|].
      exists ((a0, b1) :: pre'), a, post'. simpl. by rewrite Hp.
Qed.

Lemma Forall_map_snd {A B} (P : B -> Prop) (l : list (A * B)) :
  Forall P (map snd l) -> Forall (fun s => P (snd s)) l.
Proof. induction l; simpl; intros HF; inversion HF; subst; constructor; auto. Qed.

(** C3.  When the standard parse under the encoding [enc] fails with a
    ParserError whose message mentions "expected" and "fields", the reader
    stays with [enc]: its five strategies are, in this order, the lenient
    engine skipping bad lines, the lenient engine warning on them, the
    strict engine with QUOTE_ALL, the strict engine with QUOTE_NONE and the
    lenient engine with QUOTE_ALL, all for [enc].  The reader returns the
    table of the first strategy that parses, after calling exactly the
    standard parse and the strategies up to that one; a strategy that raises
    counts as failed.  Only when all five fail does it go on with the
    remaining encodings. *)
Theorem malformed_parse_tries_relaxations (p : Path) (enc : string)
    (rest : list string) (c : bytes) (msg : string) (f : gmap Path bytes)
    (t : list event) :
  f !! p = Some c ->
  pd_read_csv c (standard_args enc) = inl (ParserError msg) ->
  expected_fields msg = true ->
  Forall2 describes relaxation_order (map snd (strategies enc))
  /\ Forall (fun a => encoding a = enc) (map snd (strategies enc))
  /\ (forall pre a post df,
        map snd (strategies enc) = pre ++ a :: post ->
        Forall (fun b => succeeds c b = false) pre ->
        pd_read_csv c a = inr df ->
        exists evs,
          read_loop p (enc :: rest) (World f t)
          = (inr (Some df), World f (t ++ evs))
          /\ csv_calls p evs = standard_args enc :: pre ++ [a])
  /\ (Forall (fun b => succeeds c b = false) (map snd (strategies enc)) ->
      exists evs,
        read_loop p (enc :: rest) (World f t)
        = read_loop p rest (World f (t ++ evs))
        /\ csv_calls p evs = standard_args enc :: map snd (strategies enc)).
Proof.
  intros Hc Hstd Hmsg.
  assert (Hrun : read_loop p (enc :: rest) (World f t)
    = bind (try_strategies p enc (strategies enc))
        (fun df => match df with
                   | Some df => ret (Some df)
                   | None => bind (logger ERROR (MsgAllStrategiesFailed enc))
                               (fun _ => read_loop p rest)
                   end)
        (World f (t ++ [ReadCsvCall p (standard_args enc);
                        Log WARNING (MsgMalformed enc msg);
                        Log INFO MsgAttemptingFallback]))).
  { cbn [read_loop]. unfold try_except. unfold bind at 1.
    rewrite read_csv_at_run, Hc, Hstd, Hmsg.
    unfold bind at 1. unfold logger at 1, emit at 1. cbn [fs trace].
    unfold bind at 1. unfold logger at 1, emit at 1. cbn [fs trace].
    by rewrite <- !app_assoc. }
  split; [|split; [|split]].
  - unfold relaxation_order. simpl. repeat constructor.
  - simpl. repeat constructor.
  - intros pre a post df Hsplit Hpre Ha.
    destruct (map_snd_split _ _ _ _ Hsplit) as [pre' [nm [post' [Hl Hp]]]].
    subst pre. apply Forall_map_snd in Hpre.
    destruct (try_strategies_first_success p enc c pre' nm a post' df f
                (t ++ [ReadCsvCall p (standard_args enc);
                       Log WARNING (MsgMalformed enc msg);
                       Log INFO MsgAttemptingFallback]) Hc Hpre Ha)
      as [evs [Hts Hcalls]].
    eexists. split.
    + rewrite Hrun. unfold bind at 1. rewrite Hl, Hts. unfold ret.
      rewrite <- app_assoc. reflexivity.
    + rewrite csv_calls_app, Hcalls. simpl. by rewrite bool_decide_true.
  - intros Hall. apply Forall_map_snd in Hall.
    destruct (try_strategies_all_fail p enc c (strategies enc) f
                (t ++ [ReadCsvCall p (standard_args enc);
                       Log WARNING (MsgMalformed enc msg);
                       Log INFO MsgAttemptingFallback]) Hc Hall)
      as [evs [Hts Hcalls]].
    eexists. split.
    + rewrite Hrun. unfold bind at 1. rewrite Hts.
      unfold bind at 1. unfold logger at 1, emit at 1. cbn [fs trace].
      rewrite <- !app_assoc. reflexivity.
    + rewrite !csv_calls_app, Hcalls. simpl. by rewrite bool_decide_true.
Qed.

(** *** The candidate encodings *)

Lemma filter_not_in_app (d : list string) k (l : list string) :
  List.filter (fun y => negb (existsb (String.eqb y) (d ++ [k]))) l
  = List.filter (fun y => negb (existsb (String.eqb y) d))
      (List.filter (fun y => negb (String.eqb k y)) l).
Proof.
  induction l as [|y l IH]; simpl; [done|].
  rewrite existsb_app. simpl. rewrite orb_false_r, (String.eqb_sym k y).
  destruct (String.eqb y k); simpl.
  - by rewrite orb_true_r.
  - rewrite orb_false_r. destruct (existsb (String.eqb y) d); simpl; by rewrite IH.
Qed.

Lemma filter_seen_drop (d : list string) k (l : list string) :
  existsb (String.eqb k) d = true ->
  List.filter (fun y => negb (existsb (String.eqb y) d))
    (List.filter (fun y => negb (String.eqb k y)) l)
  = List.filter (fun y => negb (existsb (String.eqb y) d)) l.
Proof.
  intros Hk. induction l as [|y l IH]; simpl; [done|].
  destruct (String.eqb_spec k y) as [->|Hne]; simpl.
  - by rewrite Hk.
  - by rewrite IH.
Qed.

Lemma dict_fromkeys_spec keys : forall d,
  dict_fromkeys keys d
  = d ++ List.filter (fun y => negb (existsb (String.eqb y) d)) (dedup_first keys).
Proof.
  induction keys as [|k keys IH]; intros d; simpl; [by rewrite app_nil_r|].
  rewrite IH. destruct (existsb (String.eqb k) d) eqn:Hk; simpl.
  - by rewrite filter_seen_drop.
  - by rewrite filter_not_in_app, <- app_assoc.
Qed.

Lemma dict_fromkeys_dedup keys : dict_fromkeys keys [] = dedup_first keys.
Proof.
  rewrite dict_fromkeys_spec. simpl.
  induction (dedup_first keys) as [|y l IH]; simpl; [done|]. by rewrite IH.
Qed.

Lemma in_dedup_first x l : In x (dedup_first l) <-> In x l.
Proof.
  induction l as [|a l IH]; simpl; [done|].
  rewrite filter_In, IH, negb_true_iff. split.
  - intros [?|[? _]]; auto.
  - intros [->|Hx]; [by left|].
    destruct (String.eqb_spec a x) as [->|Hne]; [by left|by right].
Qed.

Lemma NoDup_dedup_first l : List.NoDup (dedup_first l).
Proof.
  induction l as [|a l IH]; simpl; constructor.
  - rewrite filter_In, String.eqb_refl. by intros [_ ?].
  - by apply List.NoDup_filter.
Qed.

(** *** The detector *)

Lemma detect_run p n f t :
  detect_file_encoding p n (World f t)
  = match f !! p with
    | None => (inl FileNotFoundError, World f t)
    | Some c =>
        let result := chardet_detect (take_bytes n c) in
        (inr (encoding_policy result),
         World f (t ++ [if truthy (fst result) && Qgt_bool (snd result) (7 # 10)
                        then Log DIM (MsgDetectedEncoding (encoding_policy result)
                                        (snd result))
                        else Log WARNING MsgLowConfidence]))
    end.
Proof.
  unfold detect_file_encoding, bind at 1, read_file. simpl.
  destruct (f !! p) as [c|]; [|done]. unfold encoding_policy.
  destruct (chardet_detect (take_bytes n c)) as [[e|] q]; simpl; [|done].
  by destruct (negb (String.eqb e "") && Qgt_bool q (7 # 10)).
Qed.

(** C6.  For a file that can be opened, [detect_file_encoding] always
    returns an encoding.  It returns the detector's guess when there is one
    (a name, hence not the empty string) and the confidence is strictly
    above 0.7, and "utf-8" when the detector has no guess or the confidence
    is at most 0.7. *)
Theorem detect_file_encoding_policy (p : Path) (n : N) (w : world) (content : bytes) :
  fs w !! p = Some content ->
  let result := chardet_detect (take_bytes n content) in
  (exists enc w', detect_file_encoding p n w = (inr enc, w'))
  /\ (forall e, fst result = Some e -> e <> "" -> (7 # 10 < snd result)%Q ->
      fst (detect_file_encoding p n w) = inr e)
  /\ (fst result = None \/ (snd result <= 7 # 10)%Q ->
      fst (detect_file_encoding p n w) = inr "utf-8").
Proof.
  intros Hc result. destruct w as [f t]. simpl in Hc.
  rewrite detect_run, Hc. fold result. cbn [fst]. split; [eauto|]. split.
  - intros e He Hne Hlt. unfold encoding_policy. rewrite He.
    replace (String.eqb e "") with false
      by (symmetry; by apply String.eqb_neq).
    unfold Qgt_bool. replace (Qle_bool (snd result) (7 # 10)) with false; [done|].
    symmetry. apply not_true_is_false. rewrite Qle_bool_iff.
    by apply Qlt_not_le.
  - intros Hor. unfold encoding_policy. destruct (fst result) as [e|]; [|done].
    destruct Hor as [?|Hle]; [done|].
    unfold Qgt_bool. apply Qle_bool_iff in Hle. rewrite Hle.
    by rewrite andb_false_r.
Qed.

(** *** The order of the attempts *)

Lemma strategies_not_standard enc :
  Forall (fun s => is_standard (snd s) = false) (strategies enc).
Proof. unfold strategies. repeat constructor. Qed.

End ReaderProperties.

Section ValidatorProperties.

Context {libs : Libs}.

(** ** The validator *)

Lemma check_dtypes_run a b cols : forall flag f t,
  exists r evs,
    check_dtypes a b cols flag (World f t) = (r, World f (t ++ evs))
    /\ returns r = dtype_lookups a b cols.
Proof.
  induction cols as [|c cols IH]; intros flag f t.
  - exists (inr flag), []. simpl. unfold ret. by rewrite app_nil_r.
  - cbn [check_dtypes dtype_lookups forallb]. unfold bind at 1, lift at 1.
    destruct (getitem a c) as [e|s1].
    { exists (inl e), []. by rewrite app_nil_r. }
    unfold bind at 1, lift at 1.
    destruct (getitem b c) as [e|s2].
    { exists (inl e), []. by rewrite app_nil_r. }
    cbn [returns andb]. fold (dtype_lookups a b cols).
    destruct (negb (dtype_eqb (dtype_of s1) (dtype_of s2))); [|apply IH].
    destruct (negb (is_numeric_dtype (dtype_of s1) && is_numeric_dtype (dtype_of s2)));
      [|apply IH].
    unfold bind at 1, logger at 1, emit at 1. cbn [fs trace].
    destruct (IH false f (t ++ [Log WARNING (MsgTypeChange c (dtype_of s1) (dtype_of s2))]))
      as [r [evs [Hrun Hr]]].
    exists r. eexists. rewrite Hrun, <- app_assoc. done.
Qed.

Lemma check_row_run a b i cols : forall flag f t,
  exists r evs,
    check_row a b i cols flag (World f t) = (r, World f (t ++ evs))
    /\ returns r = row_lookups a b i cols.
Proof.
  induction cols as [|c cols IH]; intros flag f t.
  - exists (inr flag), []. simpl. unfold ret. by rewrite app_nil_r.
  - cbn [check_row row_lookups forallb]. unfold bind at 1, lift at 1.
    destruct (iloc_cell a i c) as [e|v1].
    { exists (inl e), []. by rewrite app_nil_r. }
    unfold bind at 1, lift at 1.
    destruct (iloc_cell b i c) as [e|v2].
    { exists (inl e), []. by rewrite app_nil_r. }
    cbn [returns andb]. fold (row_lookups a b i cols).
    assert (Hlog : exists r evs,
      bind (logger WARNING (MsgDataMismatch i c v1 v2))
        (fun _ => check_row a b i cols false) (World f t)
      = (r, World f (t ++ evs)) /\ returns r = row_lookups a b i cols).
    { unfold bind at 1, logger at 1, emit at 1. cbn [fs trace].
      destruct (IH false f (t ++ [Log WARNING (MsgDataMismatch i c v1 v2)]))
        as [r [evs [Hrun Hr]]].
      exists r. eexists. rewrite Hrun, <- app_assoc. done. }
    destruct (isna v1 && isna v2); [apply IH|].
    destruct (is_numeric_scalar v1 && is_numeric_scalar v2).
    + destruct (f64_gt _ _); [apply Hlog|apply IH].
    + destruct (negb _); [apply Hlog|apply IH].
Qed.

Lemma check_rows_run a b rows : forall flag f t,
  exists r evs,
    check_rows a b rows flag (World f t) = (r, World f (t ++ evs))
    /\ returns r = forallb (fun i => row_lookups a b i (columns a)) rows.
Proof.
  induction rows as [|i rows IH]; intros flag f t.
  - exists (inr flag), []. simpl. unfold ret. by rewrite app_nil_r.
  - cbn [check_rows forallb]. unfold bind at 1.
    destruct (check_row_run a b i (columns a) flag f t) as [r [evs [-> Hr]]].
    rewrite <- Hr. destruct r as [e|flag'].
    + exists (inl e), evs. done.
    + destruct (IH flag' f (t ++ evs)) as [r' [evs' [-> Hr']]].
      exists r', (evs ++ evs'). by rewrite <- app_assoc.
Qed.

Lemma read_csv_frame p f t r w1 :
  read_csv_with_encoding p (World f t) = (r, w1) ->
  exists evs, w1 = World f (t ++ evs)
    /\ forall f' t', f' !! p = f !! p ->
         read_csv_with_encoding p (World f' t') = (r, World f' (t' ++ evs)).
Proof.
  intros Hrun. destruct (depends_read_csv [p] p (or_introl eq_refl) f) as [r0 [evs Hr]].
  rewrite Hr in Hrun by done. inversion Hrun; subst. exists evs. split; [done|].
  intros f' t' Hf. apply Hr. intros q [<-|[]]. done.
Qed.

Lemma validate_conversion_run csv xlsx w :
  validate_conversion csv xlsx w
  = match validate_body csv xlsx w with
    | (inr v, w') => (inr v, w')
    | (inl e, w') =>
        (inr all_false, World (fs w') (trace w' ++ [Log ERROR (MsgValidationError e)]))
    end.
Proof.
  unfold validate_conversion, try_except.
  by destruct (validate_body csv xlsx w) as [[e|v] w'].
Qed.


Lemma validate_conversion_returns csv xlsx w :
  exists v w', validate_conversion csv xlsx w = (inr v, w').
Proof.
  rewrite validate_conversion_run.
  destruct (validate_body csv xlsx w) as [[e|v] w']; eauto.
Qed.

Lemma getitem_returns (df : DataFrame) col :
  List.NoDup (columns df) ->
  (returns (getitem df col) = true <-> In col (columns df)).
Proof.
  intros Hnd. split.
  - unfold getitem. intros Hr.
    destruct (List.filter (named col) df) as [|c l] eqn:Hf; [done|].
    assert (Hc : In c (List.filter (named col) df)) by (rewrite Hf; by left).
    apply filter_In in Hc as [Hin Hnamed]. unfold named in Hnamed.
    apply String.eqb_eq in Hnamed. subst col. unfold columns. by apply in_map.
  - intros Hin. apply in_map_iff in Hin as [[n s] [Hn Hin]]. simpl in Hn. subst n.
    by rewrite (getitem_unique df col s Hnd Hin).
Qed.

Lemma iloc_cell_returns (df : DataFrame) i col :
  well_formed df ->
  (returns (iloc_cell df i col) = true
   <-> (i < len_df df)%nat /\ In col (columns df)).
Proof.
  intros [Hnd Hlen]. unfold iloc_cell. split.
  - destruct (Nat.ltb_spec i (len_df df)) as [Hi|Hi]; [|done].
    intros Hr. split; [done|]. apply (getitem_returns df col Hnd).
    destruct (getitem df col) as [[]|s]; done.
  - intros [Hi Hin]. apply in_map_iff in Hin as [[n s] [Hn Hin]]. simpl in Hn. subst n.
    replace (Nat.ltb i (len_df df)) with true by (symmetry; by apply Nat.ltb_lt).
    rewrite (getitem_unique df col s Hnd Hin). simpl.
    specialize (Hlen _ Hin). simpl in Hlen.
    destruct (nth_error (values s) i) eqn:Hnth; [done|].
    apply nth_error_None in Hnth. lia.
Qed.

Lemma lookups_succeed_iff (df_csv df_xlsx : DataFrame) :
  well_formed df_csv -> well_formed df_xlsx ->
  (lookups_succeed df_csv df_xlsx = true
   <-> (forall col, In col (columns df_csv) -> In col (columns df_xlsx))
       /\ (Nat.min 5 (len_df df_csv) <= len_df df_xlsx)%nat).
Proof.
  intros Ha Hb. unfold lookups_succeed, dtype_lookups, row_lookups.
  rewrite andb_true_iff, !forallb_forall. split.
  - intros [Hd Hr].
    assert (Hincl : forall col, In col (columns df_csv) -> In col (columns df_xlsx)).
    { intros col Hc. specialize (Hd col Hc). apply andb_true_iff in Hd as [_ Hd].
      by apply (getitem_returns df_xlsx col (proj1 Hb)). }
    split; [done|].
    destruct (Nat.min 5 (len_df df_csv)) as [|m] eqn:Hm; [lia|].
    specialize (Hr m). rewrite forallb_forall in Hr.
    destruct df_csv as [|[n s] rest]; [simpl in Hm; lia|].
    assert (Hin : In m (seq 0 (S m))) by (apply in_seq; lia).
    specialize (Hr Hin n (or_introl eq_refl)).
    apply andb_true_iff in Hr as [_ Hr].
    apply (iloc_cell_returns df_xlsx m n Hb) in Hr. lia.
  - intros [Hincl Hrows]. split.
    + intros col Hc. apply andb_true_iff. split.
      * by apply (getitem_returns df_csv col (proj1 Ha)).
      * apply (getitem_returns df_xlsx col (proj1 Hb)). auto.
    + intros i Hi. apply in_seq in Hi. apply forallb_forall. intros col Hc.
      apply andb_true_iff. split.
      * apply (iloc_cell_returns df_csv i col Ha). split; [lia|done].
      * apply (iloc_cell_returns df_xlsx i col Hb). split; [lia|auto].
Qed.


Lemma shape_eqb_eq (a b : nat * nat) : shape_eqb a b = true <-> a = b.
Proof.
  destruct a as [r c], b as [r' c']. unfold shape_eqb. simpl.
  rewrite andb_true_iff, !Nat.eqb_eq. split; [intros []|intros [=]]; subst; done.
Qed.



(** ** The orchestrator *)

Lemma read_csv_file_exists p f t r w1 :
  read_csv_with_encoding p (World f t) = (inr r, w1) -> is_Some (f !! p).
Proof.
  unfold read_csv_with_encoding, bind at 1. rewrite detect_run.
  destruct (f !! p); [eauto|done].
Qed.

Lemma process_csv_file_run p w :
  process_csv_file p w
  = match process_body p w with
    | (inr b, w') => (inr b, w')
    | (inl e, w') =>
        (inr false,
         World (fs w') (trace w' ++ [Log ERROR (MsgFailedToProcess (name p) e)]))
    end.
Proof.
  unfold process_csv_file, try_except.
  by destruct (process_body p w) as [[e|b] w'].
Qed.

(** C8.  When the read of the file fails (the reader returns no table, as
    for a zero-byte file, or raises) or yields a table with zero rows,
    [process_csv_file] returns false and leaves the file system as it was:
    no artifact is written and the original is not deleted. *)
Theorem process_csv_file_skips_empty (file_path : Path) (w w1 : world)
    (r : Exc (option DataFrame)) :
  read_csv_with_encoding file_path w = (r, w1) ->
  r = inr None \/ (exists e, r = inl e)
  \/ (exists df, r = inr (Some df) /\ len_df df = 0%nat) ->
  exists w', process_csv_file file_path w = (inr false, w') /\ fs w' = fs w.
Proof.
  destruct w as [f t]. intros Hread Hr.
  destruct (read_csv_frame file_path f t _ _ Hread) as [evs [-> Hframe]].
  rewrite process_csv_file_run. unfold process_body.
  unfold bind at 1, emit at 1. cbn [fs trace].
  unfold bind at 1, lift at 1.
  destruct (with_suffix file_path ".xlsx") as [e|xlsx_path]; [eauto|].
  unfold bind at 1. rewrite (Hframe f _ eq_refl).
  destruct Hr as [->|[[e ->]|[df [-> Hlen]]]]; [unfold ret; eauto|eauto|].
  unfold empty. rewrite Hlen. cbn [Nat.eqb orb].
  unfold bind, logger, emit, ret. cbn [fs trace]. eauto.
Qed.

Lemma substring_all s : substring 0 (String.length s) s = s.
Proof. induction s as [|c s IH]; simpl; [done|]. by rewrite IH. Qed.

Lemma substring_split s : forall i,
  (i <= String.length s)%nat ->
  (substring 0 i s ++ substring i (String.length s - i) s)%string = s.
Proof.
  induction s as [|c s IH]; intros i Hi; simpl in *.
  - by replace i with 0%nat by lia.
  - destruct i as [|i]; simpl.
    + by rewrite substring_all.
    + change (String c (substring 0 i s ++ substring i (String.length s - i) s)%string
              = String c s).
      f_equal. apply IH. lia.
Qed.

Lemma length_substring s : forall i n,
  (i + n <= String.length s)%nat -> String.length (substring i n s) = n.
Proof.
  induction s as [|c s IH]; intros i n Hi; simpl in *.
  - replace n with 0%nat by lia. by destruct i.
  - destruct i as [|i]; simpl.
    + destruct n as [|n]; simpl; [done|]. rewrite IH by lia. done.
    + apply IH. lia.
Qed.

Lemma string_app_inv_head (a b c : string) : (a ++ b = a ++ c)%string -> b = c.
Proof.
  induction a as [|x a IH]; [done|].
  change (String x (a ++ b)%string = String x (a ++ c)%string -> b = c).
  intros Heq. inversion Heq. auto.
Qed.

Lemma with_suffix_of_csv (p : Path) :
  lower (suffix p) = ".csv" ->
  exists x, with_suffix p ".xlsx" = inr x /\ x <> p.
Proof.
  intros Hcsv. unfold with_suffix.
  assert (Hsfx : suffix p <> "") by (intros E; by rewrite E in Hcsv).
  unfold suffix in Hsfx, Hcsv |- *.
  destruct (rfind_dot (name p)) as [i|] eqn:Hdot; [|done].
  destruct (Nat.ltb 0 i && Nat.ltb i (String.length (name p) - 1)) eqn:Hi; [|done].
  apply andb_true_iff in Hi as [_ Hi]. apply Nat.ltb_lt in Hi.
  destruct (String.eqb_spec (name p) "") as [E|_].
  { rewrite E in Hi. simpl in Hi. lia. }
  eexists. split; [reflexivity|].
  rewrite length_substring by lia.
  replace (String.length (name p) - (String.length (name p) - i))%nat with i by lia.
  destruct p as [d nm]. unfold name in *. simpl in *. intros Heq.
  inversion Heq as [Hnm].
  pose proof (substring_split nm i ltac:(lia)) as Hsplit.
  assert (Hsame : (substring 0 i nm ++ substring i (String.length nm - i) nm)%string
                  = (substring 0 i nm ++ ".xlsx")%string) by congruence.
  apply string_app_inv_head in Hsame. rewrite Hsame in Hcsv. discriminate.
Qed.


End ValidatorProperties.

(** * Further properties of the pipeline *)

(** ** The encoding detector *)

Section DetectorMore.

Context {libs : Libs}.

Lemma take_bytes_app (pre rest : bytes) :
  take_bytes (N.of_nat (length pre)) (pre ++ rest) = pre.
Proof.
  induction pre as [|x pre IH].
  - simpl. destruct rest; [done|]. done.
  - cbn [length app take_bytes].
    replace (N.eqb (N.of_nat (S (length pre))) 0) with false
      by (symmetry; apply N.eqb_neq; lia).
    replace (N.pred (N.of_nat (S (length pre)))) with (N.of_nat (length pre)) by lia.
    by rewrite IH.
Qed.

(** X1.  [detect_file_encoding] looks at the first [sample_size] bytes
    only: two files whose contents share the sample, whatever follows it,
    get the same answer. *)
Theorem detection_reads_the_sample_only (p1 p2 : Path) (w1 w2 : world)
    (sample rest1 rest2 : bytes) :
  fs w1 !! p1 = Some (sample ++ rest1) ->
  fs w2 !! p2 = Some (sample ++ rest2) ->
  fst (detect_file_encoding p1 (N.of_nat (length sample)) w1)
  = fst (detect_file_encoding p2 (N.of_nat (length sample)) w2).
Proof.
  destruct w1 as [f1 t1], w2 as [f2 t2]. cbn [fs]. intros H1 H2.
  rewrite !detect_run. unfold Path, bytes in *. rewrite H1, H2. cbv zeta. cbn [fst].
  by rewrite !take_bytes_app.
Qed.

(** X2.  On a file that exists [detect_file_encoding] returns, leaves
    the disk as it was, and its answer is never the empty string: it is
    "utf-8" or the name chardet guessed. *)
Theorem detected_encoding_not_empty (p : Path) (n : N) (w : world) (c : bytes) :
  fs w !! p = Some c ->
  exists enc w',
    detect_file_encoding p n w = (inr enc, w')
    /\ enc <> ""
    /\ fs w' = fs w
    /\ (enc = "utf-8" \/ fst (chardet_detect (take_bytes n c)) = Some enc).
Proof.
  destruct w as [f t]. cbn [fs]. intros Hc. rewrite detect_run, Hc. cbv zeta.
  eexists. eexists. split; [reflexivity|]. cbn [fs]. unfold encoding_policy.
  destruct (fst (chardet_detect (take_bytes n c))) as [e|]; [|by auto].
  destruct (String.eqb_spec e "") as [->|Hne]; simpl; [by auto|].
  destruct (Qgt_bool _ _); [|by auto]. split; [done|]. split; [done|]. by right.
Qed.

End DetectorMore.

(** ** The resilient reader *)

Section ReaderMore.

Context {libs : Libs}.

Lemma try_strategies_result p enc c l : forall f t,
  f !! p = Some c ->
  exists evs,
    try_strategies p enc l (World f t)
    = (inr (first_relaxed c l), World f (t ++ evs))
    /\ csv_calls p evs = relaxed_calls c l.
Proof.
  induction l as [|[n a] l IH]; intros f t Hc.
  - exists []. simpl. unfold ret. by rewrite app_nil_r.
  - simpl. unfold bind at 1. unfold logger at 1, emit at 1. cbn [fs trace].
    unfold bind at 1. rewrite (try_parse_run p a _ _ c Hc). unfold succeeds.
    destruct (pd_read_csv c a) as [e|df].
    + destruct (IH f ((t ++ [Log DIM (MsgTrying n)]) ++ [ReadCsvCall p a]) Hc)
        as [evs [Hrun Hcalls]].
      exists ([Log DIM (MsgTrying n); ReadCsvCall p a] ++ evs). split.
      * rewrite Hrun. do 2 f_equal. by rewrite <- !app_assoc.
      * rewrite csv_calls_app, Hcalls. simpl. by rewrite bool_decide_true.
    + eexists. split.
      * unfold bind, logger, emit, ret. cbn [fs trace]. rewrite <- !app_assoc.
        reflexivity.
      * simpl. by rewrite bool_decide_true.
Qed.

Lemma read_loop_result p c encs : forall f t,
  f !! p = Some c ->
  exists evs,
    read_loop p encs (World f t)
    = (inr (first_success c encs), World f (t ++ evs))
    /\ csv_calls p evs = expected_calls c encs.
Proof.
  induction encs as [|enc rest IH]; intros f t Hc.
  - exists [Log ERROR MsgFailedAnyEncoding]. done.
  - assert (Hnext : forall evs0,
      csv_calls p evs0 = calls_for c enc -> attempt c enc = None ->
      exists evs,
        read_loop p rest (World f (t ++ evs0))
        = (inr (first_success c (enc :: rest)), World f (t ++ evs))
        /\ csv_calls p evs = expected_calls c (enc :: rest)).
    { intros evs0 H0 Hnone. destruct (IH f (t ++ evs0) Hc) as [evs [Hrun Hcalls]].
      exists (evs0 ++ evs). rewrite Hrun, <- app_assoc. simpl. rewrite Hnone.
      split; [done|]. by rewrite csv_calls_app, H0, Hcalls. }
    assert (Hother : forall e,
      calls_for c enc = [standard_args enc] -> attempt c enc = None ->
      exists evs,
        bind (logger ERROR (MsgErrorReading enc e)) (fun _ => read_loop p rest)
          (World f (t ++ [ReadCsvCall p (standard_args enc)]))
        = (inr (first_success c (enc :: rest)), World f (t ++ evs))
        /\ csv_calls p evs = expected_calls c (enc :: rest)).
    { intros e Hcf Hnone. unfold bind at 1. unfold logger at 1, emit at 1.
      cbn [fs trace]. rewrite <- app_assoc. apply Hnext; [|done].
      rewrite Hcf. simpl. by rewrite bool_decide_true. }
    cbn [read_loop]. unfold try_except. unfold bind at 1.
    rewrite read_csv_at_run, Hc.
    unfold calls_for, attempt in *.
    destruct (pd_read_csv c (standard_args enc)) as [e|df] eqn:Hstd.
    + destruct e; try (apply Hother; done).
      * apply Hnext; [|done]. simpl. by rewrite bool_decide_true.
      * destruct (expected_fields msg) eqn:Hmsg; [|apply Hother; done].
        unfold bind at 1. unfold logger at 1, emit at 1. cbn [fs trace].
        unfold bind at 1. unfold logger at 1, emit at 1. cbn [fs trace].
        unfold bind at 1.
        destruct (try_strategies_result p enc c (strategies enc) f
                    (((t ++ [ReadCsvCall p (standard_args enc)]) ++
                        [Log WARNING (MsgMalformed enc msg)]) ++
                     [Log INFO MsgAttemptingFallback]) Hc)
          as [evs [Hrun Hcalls]].
        rewrite Hrun.
        destruct (first_relaxed c (strategies enc)) as [df|] eqn:Hfirst.
        -- eexists. split.
           ++ unfold ret. cbn [first_success]. unfold attempt.
              rewrite Hstd, Hmsg, Hfirst. rewrite <- !app_assoc. reflexivity.
           ++ cbn [expected_calls]. unfold attempt, calls_for.
              rewrite Hstd, Hmsg, Hfirst, app_nil_r.
              rewrite !csv_calls_app, Hcalls. simpl. by rewrite bool_decide_true.
        -- unfold bind at 1. unfold logger at 1, emit at 1. cbn [fs trace].
           rewrite <- !app_assoc.
           destruct (IH f (t ++ [ReadCsvCall p (standard_args enc)] ++
                             [Log WARNING (MsgMalformed enc msg)] ++
                             [Log INFO MsgAttemptingFallback] ++ evs ++
                             [Log ERROR (MsgAllStrategiesFailed enc)]) Hc)
             as [evs2 [Hrun2 Hcalls2]].
           eexists. split.
           ++ rewrite Hrun2. cbn [first_success]. unfold attempt.
              rewrite Hstd, Hmsg, Hfirst. rewrite <- !app_assoc. reflexivity.
           ++ cbn [expected_calls]. unfold attempt, calls_for.
              rewrite Hstd, Hmsg, Hfirst.
              rewrite !csv_calls_app, Hcalls, Hcalls2. simpl.
              by rewrite bool_decide_true.
    + eexists. split.
      * unfold bind, logger, emit, ret. cbn [fs trace first_success].
        unfold attempt. rewrite Hstd, <- app_assoc. reflexivity.
      * cbn [expected_calls]. unfold attempt, calls_for. rewrite Hstd.
        simpl. by rewrite bool_decide_true.
Qed.

Lemma read_csv_result p c f t :
  f !! p = Some c ->
  exists ev0 evs,
    read_csv_with_encoding p (World f t)
    = (inr (first_success c (candidate_encodings (detected c))),
       World f (t ++ ev0 :: evs))
    /\ csv_calls p (ev0 :: evs) = expected_calls c (candidate_encodings (detected c)).
Proof.
  intros Hc. unfold read_csv_with_encoding. unfold bind at 1.
  rewrite detect_run, Hc. cbv zeta. fold (detected c).
  match goal with |- context [World f (t ++ [?ev])] => set (ev0 := ev) end.
  destruct (read_loop_result p c (candidate_encodings (detected c)) f (t ++ [ev0]) Hc)
    as [evs [Hrun Hcalls]].
  exists ev0, evs. rewrite Hrun, <- app_assoc. split; [done|].
  change (ev0 :: evs) with ([ev0] ++ evs). rewrite csv_calls_app, Hcalls.
  unfold ev0. by destruct (_ && _).
Qed.

Lemma in_candidates c enc :
  In enc (candidate_encodings (detected c)) <-> In enc (claimed_candidates c).
Proof. unfold candidate_encodings. rewrite dict_fromkeys_dedup. apply in_dedup_first. Qed.

Lemma relaxed_calls_not_standard c l :
  Forall (fun s => is_standard (snd s) = false) l ->
  List.filter is_standard (relaxed_calls c l) = [].
Proof.
  induction l as [|[n a] l IH]; intros Hl; [done|].
  inversion Hl as [|? ? Ha Hl']; subst. simpl in Ha.
  cbn [relaxed_calls List.filter]. rewrite Ha.
  destruct (succeeds c a); [done|]. by apply IH.
Qed.

Lemma standard_of_calls_for c enc :
  map encoding (List.filter is_standard (calls_for c enc)) = [enc].
Proof.
  unfold calls_for. cbn [List.filter].
  replace (is_standard (standard_args enc)) with true by done.
  cbn [map encoding standard_args]. f_equal.
  destruct (pd_read_csv c (standard_args enc)) as [[]|]; try done.
  destruct (expected_fields msg); [|done].
  by rewrite (relaxed_calls_not_standard c _ (strategies_not_standard enc)).
Qed.

Lemma standard_of_expected_calls c encs :
  map encoding (List.filter is_standard (expected_calls c encs)) = attempted c encs.
Proof.
  induction encs as [|enc rest IH]; [done|].
  cbn [expected_calls attempted].
  rewrite List.filter_app, List.map_app, standard_of_calls_for.
  destruct (attempt c enc); [done|]. by rewrite IH.
Qed.

Lemma attempted_prefix c encs :
  encs <> [] ->
  exists k, (0 < k)%nat /\ attempted c encs = take k encs.
Proof.
  induction encs as [|enc rest IH]; [done|]. intros _. cbn [attempted].
  destruct (attempt c enc).
  - exists 1%nat. split; [lia|]. by destruct rest.
  - destruct rest as [|enc' rest'].
    + exists 1%nat. split; [lia|done].
    + destruct IH as [k [Hk Hrest]]; [done|].
      exists (S k). split; [lia|]. cbn [take]. by rewrite Hrest.
Qed.

Lemma attempted_all c encs :
  first_success c encs = None -> attempted c encs = encs.
Proof.
  induction encs as [|enc rest IH]; [done|]. cbn [first_success attempted].
  destruct (attempt c enc); [done|]. intros Hnone. by rewrite IH.
Qed.

(** C7.  The candidate list is [guess, utf-8, latin-1, cp1252, iso-8859-1]
    with every repetition after the first occurrence removed: it has no
    duplicates, the same members, and the guess at its head.  On a file that
    can be opened the reader returns, and the encodings of the standard
    parses it performs are, in the order of the calls, the candidates from
    the first one on, each tried because the one before yielded no table,
    up to and including the first that yields a table: a part of the list
    that is never empty, and the whole list when the read fails. *)
Theorem candidate_encodings_in_order (p : Path) (f : gmap Path bytes)
    (t : list event) (content : bytes) :
  f !! p = Some content ->
  let guess :=
    encoding_policy (chardet_detect (take_bytes default_sample_size content)) in
  candidate_encodings guess
  = dedup_first [guess; "utf-8"; "latin-1"; "cp1252"; "iso-8859-1"]
  /\ List.NoDup (candidate_encodings guess)
  /\ (forall e, In e (candidate_encodings guess)
                <-> In e [guess; "utf-8"; "latin-1"; "cp1252"; "iso-8859-1"])
  /\ hd_error (candidate_encodings guess) = Some guess
  /\ exists r ev0 evs,
       read_csv_with_encoding p (World f t) = (inr r, World f (t ++ ev0 :: evs))
       /\ r = first_success content (candidate_encodings guess)
       /\ standard_attempts p evs = attempted content (candidate_encodings guess)
       /\ hd_error (standard_attempts p evs) = Some guess
       /\ (exists k, (0 < k)%nat
                     /\ standard_attempts p evs = take k (candidate_encodings guess))
       /\ (r = None -> standard_attempts p evs = candidate_encodings guess).
Proof.
  intros Hc guess.
  assert (Hcand : candidate_encodings guess
                  = dedup_first [guess; "utf-8"; "latin-1"; "cp1252"; "iso-8859-1"]).
  { unfold candidate_encodings. apply dict_fromkeys_dedup. }
  assert (Hhd : exists rest, candidate_encodings guess = guess :: rest).
  { rewrite Hcand. cbn [dedup_first]. eauto. }
  destruct Hhd as [rest Hhd].
  split; [exact Hcand|]. split; [rewrite Hcand; apply NoDup_dedup_first|].
  split; [intros e; rewrite Hcand; apply in_dedup_first|].
  split; [by rewrite Hhd|].
  unfold read_csv_with_encoding. unfold bind at 1. rewrite detect_run, Hc.
  cbv zeta. fold guess.
  match goal with |- context [World f (t ++ [?ev])] => set (ev0 := ev) end.
  destruct (read_loop_result p content (candidate_encodings guess) f (t ++ [ev0]) Hc)
    as [evs [Hrun Hcalls]].
  exists (first_success content (candidate_encodings guess)), ev0, evs.
  rewrite Hrun, <- app_assoc.
  assert (Hatt : standard_attempts p evs
                 = attempted content (candidate_encodings guess)).
  { unfold standard_attempts. rewrite Hcalls. apply standard_of_expected_calls. }
  split; [done|]. split; [done|]. split; [done|]. split; [|split].
  - rewrite Hatt, Hhd. done.
  - rewrite Hatt. apply attempted_prefix. by rewrite Hhd.
  - intros Hnone. rewrite Hatt. by apply attempted_all.
Qed.

(** X3.  On a file that exists [read_csv_with_encoding] returns, without
    raising and without changing the disk, the table of the first candidate
    encoding, in order, whose standard parse succeeds or, when that parse
    reports a field count, whose first successful strategy succeeds; it
    returns no table when there is no such encoding. *)
Theorem reader_is_first_success (p : Path) (w : world) (c : bytes) :
  fs w !! p = Some c ->
  exists w',
    read_csv_with_encoding p w
    = (inr (first_success c (candidate_encodings (detected c))), w')
    /\ fs w' = fs w.
Proof.
  destruct w as [f t]. cbn [fs]. intros Hc.
  destruct (read_csv_result p c f t Hc) as [ev0 [evs [Hrun _]]].
  eexists. split; [exact Hrun|done].
Qed.

(** X4.  On a path with no file [read_csv_with_encoding] raises
    FileNotFoundError, from the detection that precedes its handlers, and
    logs nothing. *)
Theorem reader_missing_file (p : Path) (w : world) :
  fs w !! p = None ->
  read_csv_with_encoding p w = (inl FileNotFoundError, w).
Proof.
  destruct w as [f t]. cbn [fs]. intros Hc.
  unfold read_csv_with_encoding, bind. by rewrite detect_run, Hc.
Qed.

Lemma first_relaxed_some c l df :
  first_relaxed c l = Some df ->
  exists a, In a (map snd l) /\ pd_read_csv c a = inr df.
Proof.
  induction l as [|[n a] l IH]; simpl; [done|].
  destruct (pd_read_csv c a) as [e|df0] eqn:Ha.
  - intros Hf. destruct (IH Hf) as [b [Hb Hr]]. eauto.
  - intros [= ->]. eauto.
Qed.

Lemma first_relaxed_none c l :
  first_relaxed c l = None <-> Forall (fun a => succeeds c a = false) (map snd l).
Proof.
  induction l as [|[n a] l IH]; simpl; [split; [constructor|done]|].
  destruct (pd_read_csv c a) as [e|df0] eqn:Ha.
  - rewrite IH. split.
    + intros HF. constructor; [|done]. unfold succeeds. by rewrite Ha.
    + intros HF. by inversion HF.
  - split; [done|]. intros HF. inversion HF as [|? ? Hs _]; subst.
    unfold succeeds in Hs. by rewrite Ha in Hs.
Qed.

Lemma first_success_some c encs df :
  first_success c encs = Some df ->
  exists enc, In enc encs /\ attempt c enc = Some df.
Proof.
  induction encs as [|enc rest IH]; simpl; [done|].
  destruct (attempt c enc) as [df0|] eqn:Ha.
  - intros [= ->]. eauto.
  - intros Hf. destruct (IH Hf) as [e [He Hr]]. eauto.
Qed.

Lemma first_success_none c encs :
  first_success c encs = None <-> forall enc, In enc encs -> attempt c enc = None.
Proof.
  induction encs as [|enc rest IH]; simpl; [split; [intros _ e []|done]|].
  destruct (attempt c enc) as [df0|] eqn:Ha.
  - split; [done|]. intros Hall. specialize (Hall enc (or_introl eq_refl)). congruence.
  - rewrite IH. split.
    + intros Hall e [<-|He]; auto.
    + intros Hall e He. apply Hall. by right.
Qed.

Lemma strategies_encoding enc a :
  In a (map snd (strategies enc)) -> encoding a = enc.
Proof. simpl. intros [<-|[<-|[<-|[<-|[<-|[]]]]]]; done. Qed.

Lemma attempt_some c enc df :
  attempt c enc = Some df ->
  exists a,
    pd_read_csv c a = inr df /\ encoding a = enc
    /\ (a = standard_args enc \/ In a (map snd (strategies enc))).
Proof.
  unfold attempt. destruct (pd_read_csv c (standard_args enc)) as [e|df0] eqn:Hstd.
  - destruct e; try done. destruct (expected_fields msg); [|done].
    intros Hf. destruct (first_relaxed_some _ _ _ Hf) as [a [Ha Hr]].
    exists a. split; [done|]. split; [by apply strategies_encoding|by right].
  - intros [= ->]. exists (standard_args enc). split; [done|]. split; [done|by left].
Qed.

Lemma attempt_none c enc :
  attempt c enc = None
  <-> succeeds c (standard_args enc) = false
      /\ (forall msg,
            pd_read_csv c (standard_args enc) = inl (ParserError msg) ->
            expected_fields msg = true ->
            Forall (fun a => succeeds c a = false) (map snd (strategies enc))).
Proof.
  unfold attempt, succeeds at 1.
  destruct (pd_read_csv c (standard_args enc)) as [e|df0] eqn:Hstd.
  - split.
    + intros Ha. split; [done|]. intros msg [= ->] Hmsg. rewrite Hmsg in Ha.
      by apply first_relaxed_none.
    + intros [_ Hall]. destruct e; try done.
      destruct (expected_fields msg) eqn:Hmsg; [|done].
      apply first_relaxed_none. by apply (Hall msg).
  - split; [done|]. by intros [? _].
Qed.

(** X5.  A table [read_csv_with_encoding] returns is the result of one
    [pd.read_csv] call on the content of the file, under one of the
    candidate encodings, with the standard arguments or with those of one of
    the five strategies. *)
Theorem reader_returns_a_parse (p : Path) (w w' : world) (c : bytes) (df : DataFrame) :
  fs w !! p = Some c ->
  read_csv_with_encoding p w = (inr (Some df), w') ->
  exists a,
    pd_read_csv c a = inr df
    /\ In (encoding a) (claimed_candidates c)
    /\ (a = standard_args (encoding a) \/ In a (map snd (strategies (encoding a)))).
Proof.
  destruct w as [f t]. cbn [fs]. intros Hc Hrun.
  destruct (read_csv_result p c f t Hc) as [ev0 [evs [Hr _]]].
  rewrite Hr in Hrun. inversion Hrun as [[Hfs Hw]].
  destruct (first_success_some _ _ _ Hfs) as [enc [Henc Ha]].
  destruct (attempt_some _ _ _ Ha) as [a [Hparse [He Hkind]]].
  exists a. subst enc. split; [done|]. split; [by apply in_candidates|done].
Qed.

(** X6.  On a file that exists [read_csv_with_encoding] returns no table
    exactly when, under every candidate encoding, the standard parse fails
    and, if it fails with a field-count ParserError, all five strategies
    fail as well. *)
Theorem reader_fails_iff (p : Path) (w : world) (c : bytes) :
  fs w !! p = Some c ->
  (fst (read_csv_with_encoding p w) = inr None
   <-> forall enc, In enc (claimed_candidates c) ->
         succeeds c (standard_args enc) = false
         /\ (forall msg,
               pd_read_csv c (standard_args enc) = inl (ParserError msg) ->
               expected_fields msg = true ->
               Forall (fun a => succeeds c a = false) (map snd (strategies enc)))).
Proof.
  destruct w as [f t]. cbn [fs]. intros Hc.
  destruct (read_csv_result p c f t Hc) as [ev0 [evs [Hr _]]].
  rewrite Hr. cbn [fst]. split.
  - intros [= Hnone] enc Henc. apply attempt_none.
    rewrite first_success_none in Hnone. apply Hnone. by apply in_candidates.
  - intros Hall. f_equal. apply first_success_none. intros enc Henc.
    apply attempt_none. apply Hall. by apply in_candidates.
Qed.

Lemma relaxed_calls_incl c l a :
  In a (relaxed_calls c l) -> In a (map snd l).
Proof.
  induction l as [|[n b] l IH]; simpl; [done|].
  intros [<-|Ha]; [by left|]. right. destruct (succeeds c b); [done|auto].
Qed.

Lemma expected_calls_relaxed c encs a :
  In a (expected_calls c encs) -> is_standard a = false ->
  exists msg,
    pd_read_csv c (standard_args (encoding a)) = inl (ParserError msg)
    /\ expected_fields msg = true
    /\ In (encoding a) encs
    /\ In a (map snd (strategies (encoding a))).
Proof.
  induction encs as [|enc rest IH]; cbn [expected_calls]; [done|].
  intros Hin Hns. apply in_app_or in Hin as [Hin|Hin].
  - unfold calls_for in Hin. destruct Hin as [<-|Hin]; [done|].
    destruct (pd_read_csv c (standard_args enc)) as [e|df] eqn:Hstd; [|done].
    destruct e; try done. destruct (expected_fields msg) eqn:Hmsg; [|done].
    apply relaxed_calls_incl in Hin.
    pose proof (strategies_encoding _ _ Hin) as He. rewrite He.
    exists msg. split; [done|]. split; [done|]. split; [by left|done].
  - destruct (attempt c enc); [done|].
    destruct (IH Hin Hns) as [msg [H1 [H2 [H3 H4]]]]. exists msg.
    split; [done|]. split; [done|]. split; [by right|done].
Qed.

(** X7.  Every [pd.read_csv] call of one run of the reader that does
    not use the standard arguments is one of the strategies of its encoding,
    and the standard parse under that encoding failed with a field-count
    ParserError. *)
Theorem relaxations_only_after_field_count (p : Path) (f : gmap Path bytes)
    (t : list event) (c : bytes) (w' : world) (r : Exc (option DataFrame))
    (a : csv_args) :
  f !! p = Some c ->
  read_csv_with_encoding p (World f t) = (r, w') ->
  In a (csv_calls p (drop (length t) (trace w'))) ->
  is_standard a = false ->
  exists msg,
    pd_read_csv c (standard_args (encoding a)) = inl (ParserError msg)
    /\ expected_fields msg = true
    /\ In a (map snd (strategies (encoding a))).
Proof.
  intros Hc Hrun Hin Hns.
  destruct (read_csv_result p c f t Hc) as [ev0 [evs [Hr Hcalls]]].
  rewrite Hr in Hrun. inversion Hrun; subst. cbn [trace] in Hin.
  rewrite drop_app_length in Hin. rewrite Hcalls in Hin.
  destruct (expected_calls_relaxed c _ a Hin Hns) as [msg [H1 [H2 [_ H4]]]]. eauto.
Qed.

Lemma length_relaxed_calls c l : (length (relaxed_calls c l) <= length l)%nat.
Proof.
  induction l as [|[n b] l IH]; simpl; [lia|]. destruct (succeeds c b); simpl; lia.
Qed.

Lemma length_expected_calls c encs :
  (length (expected_calls c encs) <= 6 * length encs)%nat.
Proof.
  induction encs as [|enc rest IH]; cbn [expected_calls length]; [lia|].
  rewrite length_app.
  assert (length (calls_for c enc) <= 6)%nat.
  { unfold calls_for. cbn [length].
    assert (length (strategies enc) = 5%nat) as Hs by done.
    pose proof (length_relaxed_calls c (strategies enc)) as Hr.
    destruct (pd_read_csv c (standard_args enc)) as [[]|]; cbn [length]; try lia.
    destruct (expected_fields msg); cbn [length]; lia. }
  destruct (attempt c enc); cbn [length]; lia.
Qed.

Lemma length_filter_le {A} (g : A -> bool) (l : list A) :
  (length (List.filter g l) <= length l)%nat.
Proof. induction l as [|x l IH]; simpl; [lia|]. destruct (g x); simpl; lia. Qed.

Lemma length_dedup_first l : (length (dedup_first l) <= length l)%nat.
Proof.
  induction l as [|x l IH]; simpl; [lia|].
  pose proof (length_filter_le (fun y => negb (String.eqb x y)) (dedup_first l)). lia.
Qed.

(** X8.  One run of [read_csv_with_encoding] calls [pd.read_csv] on the
    file at most thirty times. *)
Theorem reader_call_bound (p : Path) (f : gmap Path bytes) (t : list event)
    (r : Exc (option DataFrame)) (w' : world) :
  read_csv_with_encoding p (World f t) = (r, w') ->
  (length (csv_calls p (drop (length t) (trace w'))) <= 30)%nat.
Proof.
  intros Hrun. destruct (f !! p) as [c|] eqn:Hc.
  - destruct (read_csv_result p c f t Hc) as [ev0 [evs [Hr Hcalls]]].
    rewrite Hr in Hrun. inversion Hrun; subst. cbn [trace].
    rewrite drop_app_length, Hcalls.
    pose proof (length_expected_calls c (candidate_encodings (detected c))) as H1.
    assert (length (candidate_encodings (detected c)) <= 5)%nat; [|lia].
    unfold candidate_encodings. rewrite dict_fromkeys_dedup.
    apply (length_dedup_first [_; _; _; _; _]).
  - unfold read_csv_with_encoding, bind in Hrun. rewrite detect_run, Hc in Hrun.
    inversion Hrun; subst. cbn [trace]. rewrite drop_all. simpl. lia.
Qed.

End ReaderMore.

(** ** The normaliser *)

Section NormaliserMore.

Context {libs : Libs}.

Lemma length_to_numeric s : length (values (to_numeric s)) = length (values s).
Proof.
  destruct (to_numeric_cases s) as [->|[[_ [_ [->| ->]]]|[_ [_ [_ ->]]]]];
    cbn [values]; unfold as_floats; by rewrite !length_map.
Qed.

Lemma length_normalize_col c :
  length (values (snd (normalize_col c))) = length (values (snd c)).
Proof.
  unfold normalize_col. destruct (_ && _); [|done]. simpl. apply length_to_numeric.
Qed.

Lemma len_df_normalize (df : DataFrame) : len_df (map normalize_col df) = len_df df.
Proof.
  destruct df as [|[n s] df]; [done|]. simpl.
  pose proof (length_normalize_col (n, s)) as Hl.
  by destruct (normalize_col (n, s)).
Qed.

(** X9.  On a table with distinct column names
    [preserve_numeric_precision] returns; the result has the same column
    names in the same order and the same shape, every column whose dtype is
    not object is in it unchanged, and a table whose columns have one length
    stays so. *)
Theorem preserve_numeric_precision_keeps_shape (df : DataFrame) :
  List.NoDup (columns df) ->
  exists df',
    preserve_numeric_precision df = inr df'
    /\ columns df' = columns df
    /\ shape df' = shape df
    /\ (forall col s, In (col, s) df -> dtype_of s <> object_ -> In (col, s) df')
    /\ (well_formed df -> well_formed df').
Proof.
  intros Hnd. exists (map normalize_col df).
  split; [by apply preserve_numeric_precision_spec|].
  assert (Hcols : columns (map normalize_col df) = columns df)
    by (apply columns_map_same, fst_normalize_col).
  split; [done|]. split; [|split].
  - unfold shape. by rewrite len_df_normalize, length_map.
  - intros col s Hin Hd. apply in_map_iff. exists (col, s). split; [|done].
    unfold normalize_col. simpl.
    replace (dtype_eqb (dtype_of s) object_) with false; [done|].
    symmetry. destruct (dtype_of s); done.
  - intros [_ Hlen]. split; [by rewrite Hcols|].
    intros c Hc. apply in_map_iff in Hc as [c0 [<- Hc0]].
    by rewrite length_normalize_col, len_df_normalize, (Hlen c0 Hc0).
Qed.

Lemma normalize_col_idem c : normalize_col (normalize_col c) = normalize_col c.
Proof.
  unfold normalize_col at 2.
  destruct (dtype_eqb (dtype_of (snd c)) object_ && replaces (snd c)) eqn:E.
  - unfold normalize_col. simpl.
    pose proof (to_numeric_dtype (snd c)) as Hd. rewrite E.
    destruct (dtype_of (to_numeric (snd c))); done.
  - unfold normalize_col. by rewrite E.
Qed.

(** X10.  [preserve_numeric_precision] is idempotent: applied to its
    own result it returns that result. *)
Theorem preserve_numeric_precision_idempotent (df df' : DataFrame) :
  List.NoDup (columns df) ->
  preserve_numeric_precision df = inr df' ->
  preserve_numeric_precision df' = inr df'.
Proof.
  intros Hnd Hrun. rewrite preserve_numeric_precision_spec in Hrun by done.
  inversion Hrun; subst df'.
  rewrite preserve_numeric_precision_spec.
  - f_equal. rewrite List.map_map. apply List.map_ext. apply normalize_col_idem.
  - rewrite columns_map_same; [done|apply fst_normalize_col].
Qed.

(** Duplicate names *)
Lemma filter_named_length (df : DataFrame) col :
  length (List.filter (named col) df) = count_occ string_dec (columns df) col.
Proof.
  induction df as [|[n s] df IH]; simpl; [done|].
  unfold named at 1. simpl.
  destruct (string_dec n col) as [->|Hne].
  - rewrite String.eqb_refl. simpl. by rewrite IH.
  - replace (String.eqb n col) with false by (symmetry; by apply String.eqb_neq).
    done.
Qed.

Lemma getitem_duplicate (df : DataFrame) col :
  (2 <= count_occ string_dec (columns df) col)%nat ->
  getitem df col = inl AttributeError.
Proof.
  intros Hc. rewrite <- filter_named_length in Hc. unfold getitem.
  destruct (List.filter (named col) df) as [|c1 [|c2 l]]; simpl in Hc; try lia. done.
Qed.

Lemma getitem_single (df : DataFrame) col :
  count_occ string_dec (columns df) col = 1%nat ->
  exists s, getitem df col = inr s.
Proof.
  intros Hc. rewrite <- filter_named_length in Hc. unfold getitem.
  destruct (List.filter (named col) df) as [|c1 [|c2 l]]; simpl in Hc; try lia. eauto.
Qed.

Lemma columns_setitem (df : DataFrame) col s : columns (setitem df col s) = columns df.
Proof.
  unfold setitem. apply columns_map_same. intros c. by destruct (named col c).
Qed.

Lemma coerce_column_columns df col s df' :
  coerce_column df col s = inr df' -> columns df' = columns df.
Proof.
  intros Hc. destruct (coerce_column_spec df col s) as [E|[E _]]; rewrite E in Hc.
  - inversion Hc. destruct (replaces s); [apply columns_setitem|done].
  - done.
Qed.

Lemma preserve_loop_duplicate cols : forall (df : DataFrame) dup,
  (forall c, In c cols -> In c (columns df)) ->
  In dup cols ->
  (2 <= count_occ string_dec (columns df) dup)%nat ->
  preserve_loop cols df = inl AttributeError.
Proof.
  induction cols as [|col rest IH]; intros df dup Hsub Hdup Hcount; [done|].
  cbn [preserve_loop].
  destruct (le_lt_dec 2 (count_occ string_dec (columns df) col)) as [H2|H1].
  - by rewrite getitem_duplicate.
  - assert (Hin : In col (columns df)) by (apply Hsub; by left).
    apply (count_occ_In string_dec) in Hin.
    destruct (getitem_single df col) as [s Hs]; [lia|].
    rewrite Hs. cbn [exc_bind].
    assert (Hrest : In dup rest).
    { destruct Hdup as [->|?]; [lia|done]. }
    assert (Hgo : forall df1, columns df1 = columns df ->
              preserve_loop rest df1 = inl AttributeError).
    { intros df1 Hc. apply (IH df1 dup); rewrite ?Hc; auto.
      intros c Hc'. apply Hsub. by right. }
    destruct (dtype_eqb (dtype_of s) object_); [|by apply Hgo].
    destruct (coerce_column df col s) as [e|df1] eqn:E.
    + destruct (coerce_column_spec df col s) as [E'|[E' _]]; rewrite E' in E; [done|].
      inversion E; subst e. cbn [is_ValueError_or_TypeError]. by apply Hgo.
    + apply Hgo. by apply coerce_column_columns in E.
Qed.

Lemma not_NoDup_duplicate (l : list string) :
  ~ List.NoDup l -> exists x, In x l /\ (2 <= count_occ string_dec l x)%nat.
Proof.
  induction l as [|a l IH]; intros Hn.
  - destruct Hn. constructor.
  - destruct (in_dec string_dec a l) as [Hin|Hnin].
    + exists a. split; [by left|]. simpl. destruct (string_dec a a); [|done].
      apply (count_occ_In string_dec) in Hin. lia.
    + destruct IH as [x [Hx Hc]].
      { intros Hnd. apply Hn. by constructor. }
      exists x. split; [by right|]. simpl. destruct (string_dec a x); lia.
Qed.

(** X11.  On a table in which a column name occurs twice
    [preserve_numeric_precision] raises AttributeError: the lookup of that
    name gives a table, which has no [dtype], and the lookup is outside the
    [try]. *)
Theorem preserve_numeric_precision_duplicate_names (df : DataFrame) :
  ~ List.NoDup (columns df) ->
  preserve_numeric_precision df = inl AttributeError.
Proof.
  intros Hn. destruct (not_NoDup_duplicate _ Hn) as [x [Hx Hc]].
  unfold preserve_numeric_precision. by apply (preserve_loop_duplicate _ df x).
Qed.

(** X12.  A text column all of whose values read as integers that fit
    int64 is left as text: no value differs from its integer cast. *)
Theorem integer_text_stays_text (df : DataFrame) (col : string) (s : Series) :
  List.NoDup (columns df) -> In (col, s) df -> dtype_of s = object_ ->
  (forall v, In v (values s) ->
     exists z, to_numeric_scalar v = VInt z /\ in_int64 z = true) ->
  left_as_text df col s.
Proof.
  intros Hnd Hin Hobj Hint.
  apply (replaced_iff_replaces df col s Hnd Hin Hobj).
  apply replaces_int64.
  - apply not_true_is_false. intros Hex.
    apply existsb_exists in Hex as [x [Hx Hfl]].
    apply in_map_iff in Hx as [v [<- Hv]]. destruct (Hint v Hv) as [z [Hz _]].
    by rewrite Hz in Hfl.
  - apply forallb_forall. intros x Hx.
    apply in_map_iff in Hx as [v [<- Hv]]. destruct (Hint v Hv) as [z [Hz Hfit]].
    by rewrite Hz.
Qed.

(** X13.  A text column with one value that has no finite reading (a
    missing value, a text that is not a number, an infinity) is left as
    text. *)
Theorem non_finite_value_keeps_text (df : DataFrame) (col : string) (s : Series) :
  List.NoDup (columns df) -> In (col, s) df -> dtype_of s = object_ ->
  (exists v, In v (values s) /\ finite_number (to_numeric_scalar v) = false) ->
  left_as_text df col s.
Proof.
  intros Hnd Hin Hobj [v [Hv Hnf]].
  apply (replaced_iff_replaces df col s Hnd Hin Hobj).
  apply not_true_is_false. intros Hr.
  pose proof (replaces_all_finite s Hr v Hv). congruence.
Qed.

Lemma fits_int64_false (xs : list value) :
  forallb fits_int64 xs = false ->
  exists z, In (VInt z) xs /\ INT64_MAX < z \/ In (VInt z) xs /\ z < INT64_MIN.
Proof.
  intros Hfit. apply forallb_false_witness in Hfit as [x [Hx Hbig]].
  destruct x as [|f|z|b|t]; try done. simpl in Hbig. exists z.
  unfold in_int64 in Hbig. apply andb_false_iff in Hbig as [Hlo|Hhi].
  - right. split; [done|]. by apply Z.leb_gt in Hlo.
  - left. split; [done|]. by apply Z.leb_gt in Hhi.
Qed.

(** X14.  A text column that is replaced becomes float64 or uint64.  As
    float64 it holds, row by row, the floats its values read as, all of them
    finite.  As uint64 it holds the integers its values read as, none of
    them negative and one of them above int64. *)
Theorem replaced_column_is_numeric (df : DataFrame) (col : string) (s : Series) :
  List.NoDup (columns df) -> In (col, s) df -> dtype_of s = object_ ->
  replaced_by_numeric df col s ->
  (to_numeric s
   = mkSeries float64
       (map (fun v => VFloat (to_float (to_numeric_scalar v))) (values s))
   /\ (forall v, In v (values s) ->
         exists q, to_float (to_numeric_scalar v) = Ffin q))
  \/ (to_numeric s
      = mkSeries uint64 (map (fun v => int_of_bool (to_numeric_scalar v)) (values s))
      /\ (forall v, In v (values s) ->
            exists z, int_of_bool (to_numeric_scalar v) = VInt z
                      /\ 0 <= z <= UINT64_MAX)
      /\ (exists v z, In v (values s) /\ to_numeric_scalar v = VInt z
                      /\ INT64_MAX < z)).
Proof.
  intros Hnd Hin Hobj Hrep.
  apply (replaced_iff_replaces df col s Hnd Hin Hobj) in Hrep.
  destruct (to_numeric_cases s) as [Hfl|[[Hnf [Hfit _]]|[Hnf [Hfit [Hneg Hu]]]]].
  - left. split.
    + rewrite Hfl. unfold as_floats. by rewrite List.map_map.
    + intros v Hv. pose proof (replaces_all_finite s Hrep v Hv) as Hfin.
      unfold finite_number in Hfin.
      destruct (to_float (to_numeric_scalar v)); try done. eauto.
  - by rewrite (replaces_int64 s Hnf Hfit) in Hrep.
  - right. split; [rewrite Hu; by rewrite List.map_map|]. split.
    + intros v Hv.
      destruct (no_float_cells s (to_numeric_scalar v) Hnf (in_map _ _ _ Hv))
        as [[z [Hz Hr]]|[b Hb]].
      * rewrite Hz. exists z. split; [done|].
        assert (Hnn : is_negative (VInt z) = false).
        { apply not_true_is_false. intros Hn.
          assert (existsb is_negative (map to_numeric_scalar (values s)) = true);
            [|congruence].
          apply existsb_exists. exists (VInt z). split; [|done].
          rewrite <- Hz. by apply in_map. }
        simpl in Hnn. apply Z.ltb_ge in Hnn.
        unfold in_int_range in Hr. apply andb_true_iff in Hr as [_ Hhi].
        apply Z.leb_le in Hhi. lia.
      * rewrite Hb. destruct b; eexists; (split; [reflexivity|]);
          unfold UINT64_MAX; lia.
    + destruct (fits_int64_false _ Hfit) as [z [[Hz Hbig]|[Hz Hsmall]]].
      * apply in_map_iff in Hz as [v [Hv Hin']]. eauto.
      * exfalso. assert (existsb is_negative (map to_numeric_scalar (values s)) = true);
          [|congruence].
        apply existsb_exists. exists (VInt z). split; [done|]. simpl.
        apply Z.ltb_lt. unfold INT64_MIN in Hsmall. lia.
Qed.

(** X22.  A text column all of whose values read as integers that are not
    negative, one of them above int64 (and within uint64), is replaced, by a
    uint64 column: the cast of [astype(int)] wraps the large value, which
    then differs from its cast, although no value has a fractional part. *)
Theorem large_integer_text_becomes_uint64 (df : DataFrame) (col : string)
    (s : Series) :
  List.NoDup (columns df) -> In (col, s) df -> dtype_of s = object_ ->
  (forall v, In v (values s) -> exists z, to_numeric_scalar v = VInt z /\ 0 <= z) ->
  (exists v z, In v (values s) /\ to_numeric_scalar v = VInt z /\ INT64_MAX < z) ->
  replaced_by_numeric df col s
  /\ to_numeric s
     = mkSeries uint64 (map to_numeric_scalar (values s)).
Proof.
  intros Hnd Hin Hobj Hint [v0 [z0 [Hv0 [Hz0 Hbig]]]].
  set (xs := map to_numeric_scalar (values s)).
  assert (Hnf : existsb is_VFloat xs = false).
  { apply not_true_is_false. intros Hex.
    apply existsb_exists in Hex as [x [Hx Hfl]].
    apply in_map_iff in Hx as [v [<- Hv]]. destruct (Hint v Hv) as [z [Hz _]].
    by rewrite Hz in Hfl. }
  assert (Hfit : forallb fits_int64 xs = false).
  { apply forallb_false_witness. exists (VInt z0). split.
    - rewrite <- Hz0. by apply in_map.
    - simpl. unfold in_int64. apply andb_false_iff. right. by apply Z.leb_gt. }
  assert (Hneg : existsb is_negative xs = false).
  { apply not_true_is_false. intros Hex.
    apply existsb_exists in Hex as [x [Hx Hn]].
    apply in_map_iff in Hx as [v [<- Hv]]. destruct (Hint v Hv) as [z [Hz Hpos]].
    rewrite Hz in Hn. simpl in Hn. apply Z.ltb_lt in Hn. lia. }
  destruct (replaces_uint64 s Hnf Hfit Hneg) as [Hnum Hr].
  split; [by apply (replaced_iff_replaces df col s Hnd Hin Hobj)|].
  rewrite Hnum. f_equal. fold xs. rewrite <- (List.map_id xs) at 2.
  apply List.map_ext_in. intros x Hx.
  apply in_map_iff in Hx as [v [<- Hv]]. destruct (Hint v Hv) as [z [Hz _]].
  by rewrite Hz.
Qed.

End NormaliserMore.

(** ** The validator *)

Section ValidatorMore.

Context {libs : Libs}.

Lemma check_dtypes_flag a b cols : forall flag f t r w',
  check_dtypes a b cols flag (World f t) = (inr r, w') ->
  r = flag && forallb (dtype_ok a b) cols.
Proof.
  induction cols as [|c cols IH]; intros flag f t r w'.
  - simpl. unfold ret. intros [= <- _]. by rewrite andb_true_r.
  - cbn [check_dtypes forallb]. unfold dtype_ok at 1.
    unfold bind at 1, lift at 1. destruct (getitem a c) as [e|s1]; [done|].
    unfold bind at 1, lift at 1. destruct (getitem b c) as [e|s2]; [done|].
    unfold dtypes_compatible.
    destruct (dtype_eqb (dtype_of s1) (dtype_of s2)); cbn [negb orb].
    + intros Hrun. by apply IH in Hrun.
    + destruct (is_numeric_dtype (dtype_of s1) && is_numeric_dtype (dtype_of s2));
        cbn [negb].
      * intros Hrun. by apply IH in Hrun.
      * unfold bind at 1, logger at 1, emit at 1. cbn [fs trace].
        intros Hrun. apply IH in Hrun. rewrite Hrun. simpl. by rewrite andb_false_r.
Qed.

Lemma check_row_flag a b i cols : forall flag f t r w',
  check_row a b i cols flag (World f t) = (inr r, w') ->
  r = flag && forallb (cell_ok a b i) cols.
Proof.
  induction cols as [|c cols IH]; intros flag f t r w'.
  - simpl. unfold ret. intros [= <- _]. by rewrite andb_true_r.
  - cbn [check_row forallb]. unfold cell_ok at 1.
    unfold bind at 1, lift at 1. destruct (iloc_cell a i c) as [e|x]; [done|].
    unfold bind at 1, lift at 1. destruct (iloc_cell b i c) as [e|y]; [done|].
    unfold cells_agree.
    assert (Hbad : forall w0,
      bind (logger WARNING (MsgDataMismatch i c x y))
        (fun _ => check_row a b i cols false) w0 = (inr r, w') -> r = false).
    { intros [f0 t0]. unfold bind at 1, logger at 1, emit at 1. cbn [fs trace].
      intros Hrun. apply IH in Hrun. by rewrite Hrun. }
    destruct (isna x && isna y); cbn [orb].
    { intros Hrun. by apply IH in Hrun. }
    destruct (is_numeric_scalar x && is_numeric_scalar y).
    + destruct (f64_gt _ _); cbn [negb].
      * intros Hrun. apply Hbad in Hrun. rewrite Hrun. by rewrite andb_false_r.
      * intros Hrun. by apply IH in Hrun.
    + destruct (String.eqb (py_str x) (py_str y)); cbn [negb].
      * intros Hrun. by apply IH in Hrun.
      * intros Hrun. apply Hbad in Hrun. rewrite Hrun. by rewrite andb_false_r.
Qed.

Lemma check_rows_flag a b rows : forall flag f t r w',
  check_rows a b rows flag (World f t) = (inr r, w') ->
  r = flag && forallb (fun i => forallb (cell_ok a b i) (columns a)) rows.
Proof.
  induction rows as [|i rows IH]; intros flag f t r w'.
  - simpl. unfold ret. intros [= <- _]. by rewrite andb_true_r.
  - cbn [check_rows forallb]. unfold bind at 1.
    destruct (check_row a b i (columns a) flag (World f t)) as [[e|flag'] [f1 t1]] eqn:E;
      [done|].
    apply check_row_flag in E. intros Hrun. apply IH in Hrun.
    rewrite Hrun, E. by rewrite andb_assoc.
Qed.

(** The validator computes [verdict] on the two tables it reads. *)
Lemma validate_verdict csv xlsx f t w1 df_csv content df_xlsx :
  read_csv_with_encoding csv (World f t) = (inr (Some df_csv), w1) ->
  f !! xlsx = Some content ->
  pd_read_excel content = inr df_xlsx ->
  exists evs,
    validate_conversion csv xlsx (World f t)
    = (inr (verdict df_csv df_xlsx), World f (t ++ evs)).
Proof.
  intros Hread Hx Hexcel.
  destruct (read_csv_frame csv f t _ _ Hread) as [evs1 [-> _]].
  rewrite validate_conversion_run. unfold validate_body. unfold bind at 1.
  rewrite Hread. unfold bind at 1. unfold read_excel_at, bind at 1, read_file.
  cbn [fs]. rewrite Hx. unfold lift at 1. rewrite Hexcel.
  unfold bind at 1. unfold verdict, lookups_succeed.
  destruct (check_dtypes_run df_csv df_xlsx (columns df_csv) true f (t ++ evs1))
    as [r2 [evs2 [Hrun2 Hr2]]].
  rewrite Hrun2. rewrite <- Hr2.
  destruct r2 as [e|dt]; cbn [returns andb].
  { eexists. cbn [fs trace]. rewrite <- !app_assoc. reflexivity. }
  apply check_dtypes_flag in Hrun2. cbn [andb] in Hrun2.
  unfold bind at 1.
  assert (Hrows : exists r evs,
    (if Nat.ltb 0 (len_df df_csv)
     then check_rows df_csv df_xlsx (seq 0 (Nat.min 5 (len_df df_csv))) true
     else ret true) (World f ((t ++ evs1) ++ evs2))
    = (r, World f (((t ++ evs1) ++ evs2) ++ evs))
    /\ returns r = forallb (fun i => row_lookups df_csv df_xlsx i (columns df_csv))
                     (seq 0 (Nat.min 5 (len_df df_csv)))
    /\ forall sm, r = inr sm ->
         sm = forallb (fun i => forallb (cell_ok df_csv df_xlsx i) (columns df_csv))
                (sampled_rows df_csv)).
  { unfold sampled_rows. destruct (Nat.ltb 0 (len_df df_csv)) eqn:Hlen.
    - destruct (check_rows_run df_csv df_xlsx (seq 0 (Nat.min 5 (len_df df_csv)))
                  true f ((t ++ evs1) ++ evs2)) as [r [evs [Hrun Hr]]].
      exists r, evs. split; [done|]. split; [done|].
      intros sm ->. by apply check_rows_flag in Hrun.
    - apply Nat.ltb_ge in Hlen. replace (len_df df_csv) with 0%nat by lia.
      exists (inr true), []. unfold ret. rewrite app_nil_r. split; [done|].
      split; [done|]. by intros sm [= <-]. }
  destruct Hrows as [r3 [evs3 [-> [Hr3 Hsm]]]]. rewrite <- Hr3.
  destruct r3 as [e|sm]; cbn [returns].
  - eexists. cbn [fs trace]. rewrite <- !app_assoc. reflexivity.
  - unfold ret. rewrite (Hsm sm eq_refl), Hrun2. eexists.
    rewrite <- !app_assoc. reflexivity.
Qed.

Lemma column_length (df : DataFrame) col s :
  well_formed df -> In (col, s) df -> length (values s) = len_df df.
Proof. intros [_ Hlen] Hin. exact (Hlen (col, s) Hin). Qed.

Lemma iloc_cell_value (df : DataFrame) i col s x :
  well_formed df -> In (col, s) df -> nth_error (values s) i = Some x ->
  iloc_cell df i col = inr (as_row (common_dtype df) x).
Proof.
  intros Hwf Hin Hnth. pose proof (proj1 Hwf) as Hnd. unfold iloc_cell.
  assert (Hi : (i < len_df df)%nat).
  { rewrite <- (column_length df col s Hwf Hin). apply nth_error_Some. by rewrite Hnth. }
  replace (Nat.ltb i (len_df df)) with true by (symmetry; by apply Nat.ltb_lt).
  rewrite (getitem_unique df col s Hnd Hin). simpl. by rewrite Hnth.
Qed.

Lemma in_columns (df : DataFrame) col :
  In col (columns df) <-> exists s, In (col, s) df.
Proof.
  unfold columns. rewrite in_map_iff. split.
  - intros [[n s] [Hn Hin]]. simpl in Hn. subst. eauto.
  - intros [s Hin]. by exists (col, s).
Qed.

Lemma is_valid_true v :
  is_valid v = true
  <-> dimensions_match v = true /\ columns_match v = true
      /\ data_types_preserved v = true /\ sample_data_match v = true.
Proof.
  unfold is_valid. simpl. rewrite !andb_true_iff. tauto.
Qed.

(** When two well-formed tables get a valid verdict. *)
Lemma verdict_valid_iff (a b : DataFrame) :
  well_formed a -> well_formed b ->
  (is_valid (verdict a b) = true
   <-> shape a = shape b
       /\ columns a = columns b
       /\ (forall col s1 s2, In (col, s1) a -> In (col, s2) b ->
             dtypes_compatible (dtype_of s1) (dtype_of s2) = true)
       /\ (forall i col s1 s2 x y,
             (i < 5)%nat -> In (col, s1) a -> In (col, s2) b ->
             nth_error (values s1) i = Some x ->
             nth_error (values s2) i = Some y ->
             cells_agree (as_row (common_dtype a) x) (as_row (common_dtype b) y)
             = true)).
Proof.
  intros Ha Hb. pose proof (lookups_succeed_iff a b Ha Hb) as Hlook.
  unfold verdict. split.
  - destruct (lookups_succeed a b); [|done].
    rewrite is_valid_true. cbn [dimensions_match columns_match
      data_types_preserved sample_data_match].
    rewrite shape_eqb_eq, bool_decide_eq_true, !forallb_forall.
    intros [Hs [Hc [Hd Hr]]]. split; [done|]. split; [done|]. split.
    + intros col s1 s2 H1 H2. specialize (Hd col). unfold dtype_ok in Hd.
      rewrite (getitem_unique a col s1 (proj1 Ha) H1) in Hd.
      rewrite (getitem_unique b col s2 (proj1 Hb) H2) in Hd.
      apply Hd. apply in_columns. eauto.
    + intros i col s1 s2 x y Hi H1 H2 Hx Hy.
      assert (Hrow : In i (sampled_rows a)).
      { unfold sampled_rows. apply in_seq.
        assert (i < length (values s1))%nat
          by (apply nth_error_Some; by rewrite Hx).
        rewrite (column_length _ _ _ Ha H1) in H. lia. }
      specialize (Hr i Hrow). rewrite forallb_forall in Hr.
      specialize (Hr col). unfold cell_ok in Hr.
      rewrite (iloc_cell_value a i col s1 x Ha H1 Hx) in Hr.
      rewrite (iloc_cell_value b i col s2 y Hb H2 Hy) in Hr.
      apply Hr. apply in_columns. eauto.
  - intros [Hs [Hc [Hd Hr]]].
    assert (Hrows : len_df b = len_df a) by (unfold shape in Hs; congruence).
    replace (lookups_succeed a b) with true.
    2:{ symmetry. apply Hlook. split; [by rewrite Hc|]. lia. }
    rewrite is_valid_true. cbn [dimensions_match columns_match
      data_types_preserved sample_data_match].
    rewrite shape_eqb_eq, bool_decide_eq_true, !forallb_forall.
    split; [done|]. split; [done|]. split.
    + intros col Hcol. pose proof Hcol as Hcol'. rewrite Hc in Hcol'.
      apply in_columns in Hcol as [s1 H1]. apply in_columns in Hcol' as [s2 H2].
      unfold dtype_ok.
      rewrite (getitem_unique a col s1 (proj1 Ha) H1).
      rewrite (getitem_unique b col s2 (proj1 Hb) H2). eauto.
    + intros i Hi. apply forallb_forall. intros col Hcol.
      unfold sampled_rows in Hi. apply in_seq in Hi.
      pose proof Hcol as Hcol'. rewrite Hc in Hcol'.
      apply in_columns in Hcol as [s1 H1]. apply in_columns in Hcol' as [s2 H2].
      assert (Hx : exists x, nth_error (values s1) i = Some x).
      { destruct (nth_error (values s1) i) eqn:E; [eauto|].
        apply nth_error_None in E. pose proof (column_length _ _ _ Ha H1). lia. }
      assert (Hy : exists y, nth_error (values s2) i = Some y).
      { destruct (nth_error (values s2) i) eqn:E; [eauto|].
        apply nth_error_None in E. pose proof (column_length _ _ _ Hb H2). lia. }
      destruct Hx as [x Hx], Hy as [y Hy]. unfold cell_ok.
      rewrite (iloc_cell_value a i col s1 x Ha H1 Hx).
      rewrite (iloc_cell_value b i col s2 y Hb H2 Hy).
      apply (Hr i col s1 s2 x y); [lia|done..].
Qed.


Lemma tolerance_positive : f64_gt (Ffin (Qabs 0)) tolerance = false.
Proof. vm_compute. reflexivity. Qed.

Lemma float_close_to_itself f :
  f64_gt (f64_abs (f64_sub f f)) tolerance = false.
Proof.
  destruct f as [|neg|q]; [done| |].
  - unfold f64_sub. by rewrite Bool.eqb_reflx.
  - unfold f64_sub. rewrite round64_zero; [apply tolerance_positive|].
    destruct q as [n d]. simpl. lia.
Qed.

Lemma cells_agree_refl x : cells_agree x x = true.
Proof.
  unfold cells_agree. rewrite float_close_to_itself, String.eqb_refl.
  destruct (is_numeric_scalar x && is_numeric_scalar x); cbn [negb];
    by rewrite orb_true_r.
Qed.

(** A cell agrees with itself however the two rows hold it. *)
Lemma cells_agree_as_row d1 d2 x :
  cells_agree (as_row d1 x) (as_row d2 x) = true.
Proof.
  assert (Hint : forall z u v,
            (u = VInt z \/ u = VFloat (f64_of_Z z)) ->
            (v = VInt z \/ v = VFloat (f64_of_Z z)) -> cells_agree u v = true).
  { intros z u v Hu Hv. unfold cells_agree.
    assert (Hfu : to_float u = f64_of_Z z) by (by destruct Hu as [-> | ->]).
    assert (Hfv : to_float v = f64_of_Z z) by (by destruct Hv as [-> | ->]).
    assert (Hnu : is_numeric_scalar u = true) by (by destruct Hu as [-> | ->]).
    assert (Hnv : is_numeric_scalar v = true) by (by destruct Hv as [-> | ->]).
    rewrite Hfu, Hfv, Hnu, Hnv, float_close_to_itself. cbn [andb negb].
    apply orb_true_r. }
  destruct x as [|f|z|b|t]; try (destruct d1, d2; apply cells_agree_refl).
  apply (Hint z); [destruct d1|destruct d2]; simpl; tauto.
Qed.

Lemma dtypes_compatible_refl d : dtypes_compatible d d = true.
Proof. by destruct d. Qed.

(** X16.  A produced file that reads back as the very table the source
    is read to gets a valid verdict. *)
Theorem same_table_is_valid (csv_path xlsx_path : Path) (w w1 : world)
    (df : DataFrame) (content : bytes) :
  read_csv_with_encoding csv_path w = (inr (Some df), w1) ->
  fs w !! xlsx_path = Some content ->
  pd_read_excel content = inr df ->
  well_formed df ->
  exists v w',
    validate_conversion csv_path xlsx_path w = (inr v, w') /\ is_valid v = true.
Proof.
  destruct w as [f t]. cbn [fs]. intros Hread Hx Hexcel Hwf.
  destruct (validate_verdict _ _ _ _ _ _ _ _ Hread Hx Hexcel) as [evs Hrun].
  eexists. eexists. split; [exact Hrun|].
  apply verdict_valid_iff; [done..|].
  split; [done|]. split; [done|]. split.
  - intros col s1 s2 H1 H2.
    rewrite (unique_column df col s1 s2 (proj1 Hwf) H1 H2).
    apply dtypes_compatible_refl.
  - intros i col s1 s2 x y _ H1 H2 Hx1 Hy.
    rewrite (unique_column df col s1 s2 (proj1 Hwf) H1 H2) in Hx1.
    assert (x = y) by congruence. subst. apply cells_agree_as_row.
Qed.



Lemma validate_without_artifact csv xlsx f t w1 df_csv :
  read_csv_with_encoding csv (World f t) = (inr (Some df_csv), w1) ->
  match f !! xlsx with
  | None => True
  | Some content => exists e, pd_read_excel content = inl e
  end ->
  exists evs,
    validate_conversion csv xlsx (World f t) = (inr all_false, World f (t ++ evs)).
Proof.
  intros Hread Hbad.
  destruct (read_csv_frame csv f t _ _ Hread) as [evs1 [-> _]].
  rewrite validate_conversion_run. unfold validate_body. unfold bind at 1.
  rewrite Hread. unfold bind at 1. unfold read_excel_at, bind at 1, read_file.
  cbn [fs]. destruct (f !! xlsx) as [content|].
  - destruct Hbad as [e Hexcel]. unfold lift. rewrite Hexcel. cbn [fs trace].
    rewrite <- app_assoc. eauto.
  - cbn [fs trace]. rewrite <- app_assoc. eauto.
Qed.

Lemma verdict_valid_dims (a b : DataFrame) :
  is_valid (verdict a b) = true -> shape a = shape b /\ columns a = columns b.
Proof.
  unfold verdict. destruct (lookups_succeed a b); [|done].
  rewrite is_valid_true. cbn [dimensions_match columns_match].
  rewrite shape_eqb_eq, bool_decide_eq_true. tauto.
Qed.

(** X18.  When the source is re-read and the produced file is absent or
    cannot be read as a workbook, [validate_conversion] returns the
    all-false result and leaves the disk as it was. *)
Theorem unreadable_artifact_is_invalid (csv_path xlsx_path : Path) (w w1 : world)
    (df_csv : DataFrame) :
  read_csv_with_encoding csv_path w = (inr (Some df_csv), w1) ->
  (fs w !! xlsx_path = None
   \/ exists content e, fs w !! xlsx_path = Some content
                        /\ pd_read_excel content = inl e) ->
  exists w',
    validate_conversion csv_path xlsx_path w = (inr all_false, w')
    /\ fs w' = fs w.
Proof.
  destruct w as [f t]. cbn [fs]. intros Hread Hbad.
  destruct (validate_without_artifact csv_path xlsx_path f t w1 df_csv Hread)
    as [evs Hrun].
  { destruct Hbad as [->|[content [e [-> Hexcel]]]]; eauto. }
  rewrite Hrun. eauto.
Qed.

End ValidatorMore.

(** ** The orchestrator *)

Section OrchestratorMore.

Context {libs : Libs}.

Lemma validate_fs csv xlsx f t r w' :
  validate_conversion csv xlsx (World f t) = (r, w') -> fs w' = f.
Proof.
  destruct (depends_validate csv xlsx f) as [r0 [evs Hr]].
  rewrite (Hr f t) by done. by intros [= _ <-].
Qed.

(** The ways through the body of [process_csv_file]. *)
Lemma process_body_cases p f t r w' :
  process_body p (World f t) = (r, w') ->
  (fs w' = f /\ r <> inr true)
  \/ exists x df dfp,
       with_suffix p ".xlsx" = inr x
       /\ (forall t0, fst (read_csv_with_encoding p (World f t0)) = inr (Some df))
       /\ empty df = false
       /\ preserve_numeric_precision df = inr dfp
       /\ ((exists e partial,
              excel_write dfp = WriteFailed e partial
              /\ fs w' = <[x := partial]> f /\ r = inl e)
           \/ (exists artifact v t2,
                 excel_write dfp = Written artifact
                 /\ fst (validate_conversion p x (World (<[x := artifact]> f) t2)) = inr v
                 /\ fs w' = (if is_valid v then delete p (<[x := artifact]> f)
                             else <[x := artifact]> f)
                 /\ (r = inr true -> is_valid v = true)
                 /\ (is_valid v = true -> r = inr true))).
Proof.
  unfold process_body.
  unfold bind at 1, emit at 1. cbn [fs trace].
  unfold bind at 1, lift at 1.
  destruct (with_suffix p ".xlsx") as [e|x] eqn:Hsfx.
  { intros [= <- <-]. left. done. }
  unfold bind at 1.
  destruct (read_csv_with_encoding p (World f (t ++ [DisplayProcessingStart (name p) "CSV"])))
    as [rd w1] eqn:Hread.
  destruct (read_csv_frame p f _ _ _ Hread) as [evs [-> Hframe]].
  destruct rd as [e|[df|]].
  { intros [= <- <-]. left. done. }
  2:{ unfold ret. intros [= <- <-]. left. done. }
  destruct (empty df) eqn:Hempty.
  { unfold bind, logger, emit, ret. cbn [fs trace]. intros [= <- <-]. left. done. }
  unfold bind at 1, logger at 1, emit at 1. cbn [fs trace].
  unfold bind at 1, lift at 1.
  destruct (preserve_numeric_precision df) as [e|dfp] eqn:Hnorm.
  { intros [= <- <-]. left. done. }
  assert (Hrd : forall t0, fst (read_csv_with_encoding p (World f t0)) = inr (Some df)).
  { intros t0. by rewrite (Hframe f t0 eq_refl). }
  unfold bind at 1. unfold write_excel.
  destruct (excel_write dfp) as [artifact|e partial] eqn:Hwrite.
  2:{ unfold bind, write_file, raise. cbn [fs trace]. intros [= <- <-].
      right. exists x, df, dfp. do 4 (split; [done|]). left. eauto. }
  unfold write_file. cbn [fs trace].
  unfold bind at 1, logger at 1, emit at 1. cbn [fs trace].
  unfold bind at 1.
  match goal with
  | |- context [validate_conversion p x ?w0] =>
      destruct (validate_conversion p x w0) as [rv wv] eqn:Hval
  end.
  pose proof (validate_fs _ _ _ _ _ _ Hval) as Hfs.
  match type of Hval with
  | validate_conversion _ _ ?w0 = _ =>
      destruct (validate_conversion_returns p x w0) as [v [wv' Hv]]
  end.
  unfold Path, bytes in *. rewrite Hval in Hv. inversion Hv; subst rv wv'. clear Hv.
  destruct wv as [fv tv]. cbn [fs] in Hfs. subst fv.
  unfold bind at 1, emit at 1. cbn [fs trace].
  intros Hrun. right. exists x, df, dfp. do 4 (split; [done|]). right.
  exists artifact, v. eexists. split; [done|].
  split; [unfold Path, bytes in *; by rewrite Hval|].
  revert Hrun. destruct (is_valid v).
  - assert (Hp : exists c, <[x:=artifact]> f !! p = Some c).
    { destruct (read_csv_file_exists _ _ _ _ _ Hread) as [c Hc].
      destruct (decide (x = p)) as [->|Hne].
      - rewrite lookup_insert_eq. eauto.
      - rewrite lookup_insert_ne by done. eauto. }
    destruct Hp as [c Hp].
    unfold bind at 1, unlink at 1. cbn [fs trace].
    unfold Path, bytes in *. rewrite Hp.
    unfold bind, logger, emit, ret. cbn [fs trace]. intros [= <- <-]. done.
  - unfold bind, logger, emit, ret. cbn [fs trace]. intros [= <- <-]. done.
Qed.

(** What one run of [process_csv_file] does to the disk. *)
Lemma process_csv_file_disk p f t :
  exists b w',
    process_csv_file p (World f t) = (inr b, w')
    /\ ((b = false /\ fs w' = f)
        \/ exists x c, with_suffix p ".xlsx" = inr x
             /\ ((b = false /\ fs w' = <[x := c]> f)
                 \/ (b = true /\ fs w' = delete p (<[x := c]> f)))).
Proof.
  rewrite process_csv_file_run.
  destruct (process_body p (World f t)) as [r w'] eqn:Hbody.
  destruct (process_body_cases _ _ _ _ _ Hbody)
    as [[Hfs Hr]|[x [df [dfp [Hsfx [_ [_ [_ Hrest]]]]]]]].
  - destruct r as [e|[|]]; [|done|]; eexists; eexists; (split; [done|]); left; done.
  - destruct Hrest as [[e [c [_ [Hfs ->]]]]|[c [v [t2 [_ [_ [Hfs [Hr1 Hr2]]]]]]]].
    + eexists. eexists. split; [done|]. right. exists x, c. split; [done|]. by left.
    + destruct (is_valid v) eqn:Hv.
      * rewrite (Hr2 eq_refl). eexists. eexists. split; [done|].
        right. exists x, c. split; [done|]. by right.
      * assert (r <> inr true) by (intros E; by specialize (Hr1 E)).
        destruct r as [e|[|]]; [|done|]; eexists; eexists; (split; [done|]);
          right; exists x, c; (split; [done|]); by left.
Qed.

(** X20.  When [process_csv_file] returns true on a ".csv" file, the
    source was read to a table that is not empty, the disk is the former one
    with the workbook added and the original removed, and the workbook reads
    back to a table the validator accepts against the source: same shape and
    same column names in the same order. *)
Theorem converted_file_reads_back (file_path : Path) (w w' : world) :
  lower (suffix file_path) = ".csv" ->
  process_csv_file file_path w = (inr true, w') ->
  exists (xlsx_path : Path) (df df_xlsx : DataFrame) (artifact : bytes),
    with_suffix file_path ".xlsx" = inr xlsx_path
    /\ fst (read_csv_with_encoding file_path w) = inr (Some df)
    /\ empty df = false
    /\ fs w' = delete file_path (<[xlsx_path := artifact]> (fs w))
    /\ pd_read_excel artifact = inr df_xlsx
    /\ is_valid (verdict df df_xlsx) = true
    /\ shape df_xlsx = shape df
    /\ columns df_xlsx = columns df.
Proof.
  destruct w as [f t]. cbn [fs]. intros Hcsv.
  destruct (with_suffix_of_csv file_path Hcsv) as [x0 [Hsfx0 Hne]].
  rewrite process_csv_file_run.
  destruct (process_body file_path (World f t)) as [r w0] eqn:Hbody.
  destruct (process_body_cases _ _ _ _ _ Hbody)
    as [[Hfs Hr]|[x [df [dfp [Hsfx [Hrd [Hempty [_ Hrest]]]]]]]].
  { destruct r as [e|[|]]; [|done|]; intros [= _]. }
  assert (x = x0) by congruence. subst x0.
  destruct Hrest as [[e [c [_ [_ ->]]]]|[c [v [t2 [_ [Hval [Hfs [Hr1 _]]]]]]]].
  { intros [= _]. }
  destruct r as [e|[|]]; [intros [= _]| |intros [= _]].
  intros [= <-]. specialize (Hr1 eq_refl). rewrite Hr1 in Hfs.
  destruct (read_csv_with_encoding file_path (World (<[x:=c]> f) t2))
    as [rd w1] eqn:Hread2.
  assert (Hrd2 : rd = inr (Some df)).
  { destruct (read_csv_with_encoding file_path (World f t2)) as [rd0 w2] eqn:Hread.
    pose proof (Hrd t2) as Hrd0. rewrite Hread in Hrd0. simpl in Hrd0. subst rd0.
    destruct (read_csv_frame file_path f t2 _ _ Hread) as [evs [-> Hframe]].
    rewrite (Hframe (<[x:=c]> f) t2) in Hread2 by (by apply lookup_insert_ne).
    congruence. }
  subst rd.
  destruct (pd_read_excel c) as [e|df_xlsx] eqn:Hexcel.
  - destruct (validate_without_artifact file_path x (<[x:=c]> f) t2 w1 df Hread2)
      as [evs Hrun].
    { rewrite lookup_insert_eq. eauto. }
    rewrite Hrun in Hval. simpl in Hval. inversion Hval; subst v. done.
  - destruct (validate_verdict file_path x (<[x:=c]> f) t2 w1 df c df_xlsx Hread2)
      as [evs Hrun]; [apply lookup_insert_eq|done|].
    rewrite Hrun in Hval. simpl in Hval. inversion Hval; subst v.
    destruct (verdict_valid_dims _ _ Hr1) as [Hs Hc].
    exists x, df, df_xlsx, c. rewrite (Hrd t). done.
Qed.

Lemma process_csv_file_absent p f t :
  f !! p = None ->
  exists w', process_csv_file p (World f t) = (inr false, w') /\ fs w' = f.
Proof.
  intros Hnone. rewrite process_csv_file_run.
  destruct (process_body p (World f t)) as [r w0] eqn:Hbody.
  destruct (process_body_cases _ _ _ _ _ Hbody)
    as [[Hfs Hr]|[x [df [dfp [_ [Hrd _]]]]]].
  - destruct r as [e|[|]]; [|done|]; eexists; (split; [done|]); done.
  - exfalso. specialize (Hrd t).
    destruct (read_csv_with_encoding p (World f t)) as [rd w1] eqn:Hread.
    simpl in Hrd. subst rd.
    destruct (read_csv_file_exists _ _ _ _ _ Hread) as [c Hc]. congruence.
Qed.

(** X21.  After a run of [process_csv_file] that returned true, a second
    run on the same path returns false and changes nothing. *)
Theorem second_run_changes_nothing (file_path : Path) (w w' : world) :
  process_csv_file file_path w = (inr true, w') ->
  exists w'',
    process_csv_file file_path w' = (inr false, w'') /\ fs w'' = fs w'.
Proof.
  destruct w as [f t]. destruct w' as [f' t']. cbn [fs]. intros Hrun.
  apply process_csv_file_absent.
  destruct (process_csv_file_disk file_path f t)
    as [b [w0 [Hrun0 [[Hb Hfs]|[x [c [_ [[Hb Hfs]|[Hb Hfs]]]]]]]]];
    rewrite Hrun0 in Hrun; inversion Hrun; subst; try done.
  cbn [fs] in Hfs. subst f'. apply lookup_delete_eq.
Qed.

End OrchestratorMore.

(** * The pipeline with the console of [ui.py] *)

(** ** The console that renders every line gives the pipeline above *)

Section QuietConsole.

Context {libs : Libs}.

Lemma quiet_read_csv_with_encoding p :
  Rich.read_csv_with_encoding (console := quiet) p = read_csv_with_encoding p.
Proof. reflexivity. Qed.

Lemma quiet_validate_conversion csv xlsx :
  Rich.validate_conversion (console := quiet) csv xlsx = validate_conversion csv xlsx.
Proof. reflexivity. Qed.

Lemma quiet_process_csv_file p :
  Rich.process_csv_file (console := quiet) p = process_csv_file p.
Proof. reflexivity. Qed.

End QuietConsole.

(** ** Steps that leave the file system alone *)

Section KeepsFs.

Lemma keeps_ret {A} (a : A) : keeps_fs (ret a).
Proof. intros w r w'. unfold ret. by intros [= _ <-]. Qed.

Lemma keeps_raise {A} (e : exn) : keeps_fs (@raise A e).
Proof. intros w r w'. unfold raise. by intros [= _ <-]. Qed.

Lemma keeps_lift {A} (x : Exc A) : keeps_fs (lift x).
Proof. intros w r w'. unfold lift. by intros [= _ <-]. Qed.

Lemma keeps_record ev : keeps_fs (emit ev).
Proof. intros w r w'. unfold emit. by intros [= _ <-]. Qed.

Lemma keeps_emit {console : Console} ev : keeps_fs (Rich.emit ev).
Proof.
  intros w r w'. unfold Rich.emit. destruct (renders ev); by intros [= _ <-].
Qed.

Lemma keeps_logger {console : Console} lv m : keeps_fs (Rich.logger lv m).
Proof. apply keeps_emit. Qed.

Lemma keeps_read_file p : keeps_fs (read_file p).
Proof.
  intros w r w'. unfold read_file. destruct (fs w !! p); by intros [= _ <-].
Qed.

Lemma keeps_bind {A B} (m : IO A) (k : A -> IO B) :
  keeps_fs m -> (forall a, keeps_fs (k a)) -> keeps_fs (bind m k).
Proof.
  intros Hm Hk w r w'. unfold bind.
  destruct (m w) as [[e|a] w1] eqn:E.
  - intros [= _ <-]. by apply (Hm w _ _ E).
  - intros Hrun. rewrite (Hk a w1 r w' Hrun). by apply (Hm w _ _ E).
Qed.

Lemma keeps_try_except {A} (m : IO A) (h : exn -> IO A) :
  keeps_fs m -> (forall e, keeps_fs (h e)) -> keeps_fs (try_except m h).
Proof.
  intros Hm Hh w r w'. unfold try_except.
  destruct (m w) as [[e|a] w1] eqn:E.
  - intros Hrun. rewrite (Hh e w1 r w' Hrun). by apply (Hm w _ _ E).
  - intros [= _ <-]. by apply (Hm w _ _ E).
Qed.

End KeepsFs.

Ltac keeps_leaf :=
  first
    [ apply keeps_ret | apply keeps_raise | apply keeps_lift
    | apply keeps_logger | apply keeps_emit | apply keeps_read_file ].

(** [m ;; k] and [do! x := m in k] with a simple [m]. *)
Ltac keeps_seq := apply keeps_bind; [keeps_leaf|intros ?].

Section ConsoleProperties.

Context {libs : Libs} {console : Console}.

Lemma keeps_read_csv_at p a : keeps_fs (read_csv_at p a).
Proof.
  unfold read_csv_at. apply keeps_bind; [apply keeps_record|intros _].
  keeps_seq. keeps_leaf.
Qed.

Lemma keeps_try_parse p enc eng bad q d :
  keeps_fs (try_parse_csv_with_strategy p enc eng bad q d).
Proof.
  unfold try_parse_csv_with_strategy. apply keeps_try_except.
  - apply keeps_bind; [apply keeps_read_csv_at|intros df; keeps_leaf].
  - intros e. keeps_leaf.
Qed.

Lemma keeps_try_strategies p enc l : keeps_fs (Rich.try_strategies p enc l).
Proof.
  induction l as [|[n a] l IH]; cbn [Rich.try_strategies]; [keeps_leaf|].
  keeps_seq. apply keeps_bind; [apply keeps_try_parse|intros [df|]]; [|exact IH].
  keeps_seq. keeps_seq. keeps_leaf.
Qed.

Lemma keeps_read_loop p encs : keeps_fs (Rich.read_loop p encs).
Proof.
  induction encs as [|enc rest IH]; cbn [Rich.read_loop].
  { keeps_seq. keeps_leaf. }
  apply keeps_try_except.
  - apply keeps_bind; [apply keeps_read_csv_at|intros df]. keeps_seq. keeps_leaf.
  - intros e.
    assert (Hother : keeps_fs (bind (Rich.logger ERROR (MsgErrorReading enc e))
                                 (fun _ => Rich.read_loop p rest))).
    { keeps_seq. exact IH. }
    destruct e; try exact Hother; [exact IH|].
    destruct (expected_fields msg); [|exact Hother].
    keeps_seq. keeps_seq.
    apply keeps_bind; [apply keeps_try_strategies|intros [df|]]; [keeps_leaf|].
    keeps_seq. exact IH.
Qed.

Lemma keeps_read_csv p : keeps_fs (Rich.read_csv_with_encoding p).
Proof.
  unfold Rich.read_csv_with_encoding.
  apply keeps_bind; [|intros enc; apply keeps_read_loop].
  unfold Rich.detect_file_encoding. keeps_seq. cbv zeta.
  destruct (_ && _); keeps_seq; keeps_leaf.
Qed.

Lemma keeps_check_dtypes a b cols : forall flag,
  keeps_fs (Rich.check_dtypes a b cols flag).
Proof.
  induction cols as [|c cols IH]; intros flag; cbn [Rich.check_dtypes]; [keeps_leaf|].
  keeps_seq. keeps_seq. cbv zeta.
  destruct (negb _); [|apply IH].
  destruct (negb _); [|apply IH]. keeps_seq. apply IH.
Qed.

Lemma keeps_check_row a b i cols : forall flag,
  keeps_fs (Rich.check_row a b i cols flag).
Proof.
  induction cols as [|c cols IH]; intros flag; cbn [Rich.check_row]; [keeps_leaf|].
  keeps_seq. keeps_seq.
  destruct (_ && _); [apply IH|].
  destruct (_ && _).
  - destruct (f64_gt _ _); [|apply IH]. keeps_seq. apply IH.
  - destruct (negb _); [|apply IH]. keeps_seq. apply IH.
Qed.

Lemma keeps_check_rows a b rows : forall flag,
  keeps_fs (Rich.check_rows a b rows flag).
Proof.
  induction rows as [|i rows IH]; intros flag; cbn [Rich.check_rows]; [keeps_leaf|].
  apply keeps_bind; [apply keeps_check_row|intros flag'; apply IH].
Qed.

Lemma keeps_validate_body csv xlsx : keeps_fs (Rich.validate_body csv xlsx).
Proof.
  unfold Rich.validate_body.
  apply keeps_bind; [apply keeps_read_csv|intros [df|]]; [|keeps_leaf].
  apply keeps_bind.
  { unfold read_excel_at. keeps_seq. keeps_leaf. }
  intros df_xlsx. cbv zeta.
  apply keeps_bind; [apply keeps_check_dtypes|intros flag].
  apply keeps_bind; [|intros flag'; keeps_leaf].
  destruct (Nat.ltb _ _); [apply keeps_check_rows|keeps_leaf].
Qed.

Lemma keeps_validate_conversion csv xlsx :
  keeps_fs (Rich.validate_conversion csv xlsx).
Proof.
  unfold Rich.validate_conversion.
  apply keeps_try_except; [apply keeps_validate_body|intros e].
  keeps_seq. keeps_leaf.
Qed.

(** ** The validator *)

(** X23.  With the console in the picture [validate_conversion] leaves the
    file system alone, and raises nothing but MarkupError.  It returns what
    its body returns.  When the body raises [e], the handler logs the error:
    if the console renders that line the result is the all-false one, and if
    it refuses it the MarkupError of that line leaves the function. *)
Theorem validate_conversion_raises_only_markup_error (csv_path xlsx_path : Path)
    (w : world) :
  exists r w',
    Rich.validate_conversion csv_path xlsx_path w = (r, w')
    /\ fs w' = fs w
    /\ (forall e, r = inl e -> exists msg, e = MarkupError msg)
    /\ (forall v w1, Rich.validate_body csv_path xlsx_path w = (inr v, w1) ->
          r = inr v)
    /\ (forall e w1, Rich.validate_body csv_path xlsx_path w = (inl e, w1) ->
          let line := Log ERROR (MsgValidationError e) in
          r = if renders line then inr all_false
              else inl (MarkupError (markup_message line))).
Proof.
  destruct (Rich.validate_conversion csv_path xlsx_path w) as [r w'] eqn:Hrun.
  exists r, w'. split; [done|].
  split; [by apply (keeps_validate_conversion csv_path xlsx_path w r w')|].
  revert Hrun. unfold Rich.validate_conversion, try_except.
  destruct (Rich.validate_body csv_path xlsx_path w) as [[e|v] w1].
  - unfold bind, Rich.logger, Rich.emit, ret.
    destruct (renders (Log ERROR (MsgValidationError e))) eqn:Hline;
      intros [= <- <-].
    + split; [done|]. split; [done|]. intros e0 w2 [= <- _]. cbv zeta. by rewrite Hline.
    + split; [intros e0 [= <-]; eauto|]. split; [done|].
      intros e0 w2 [= <- _]. cbv zeta. by rewrite Hline.
  - intros [= <- <-]. split; [done|]. split; [|done]. by intros v0 w2 [= <- _].
Qed.

(** ** The orchestrator *)

(** The ways through the body of [process_csv_file]. *)
Lemma rich_process_body_cases p f t r w' :
  Rich.process_body p (World f t) = (r, w') ->
  (fs w' = f /\ r <> inr true)
  \/ exists x c,
       with_suffix p ".xlsx" = inr x
       /\ ((fs w' = <[x := c]> f /\ r <> inr true)
           \/ (fs w' = delete p (<[x := c]> f)
               /\ (r = inr true
                   \/ (exists msg, r = inl (MarkupError msg))
                      /\ renders (Log DIM (MsgRemovedOriginal (name p))) = false))).
Proof.
  unfold Rich.process_body.
  unfold bind at 1, Rich.emit at 1. cbn [fs trace].
  destruct (renders (DisplayProcessingStart (name p) "CSV"));
    [|intros [= <- <-]; by left].
  unfold bind at 1, lift at 1.
  destruct (with_suffix p ".xlsx") as [e|x] eqn:Hsfx; [intros [= <- <-]; by left|].
  unfold bind at 1.
  match goal with
  | |- context [Rich.read_csv_with_encoding p ?w0] =>
      destruct (Rich.read_csv_with_encoding p w0) as [rd [f1 t1]] eqn:Hread;
      pose proof (keeps_read_csv p w0 _ _ Hread) as Hf1
  end.
  cbn [fs] in Hf1. subst f1.
  destruct rd as [e|[df|]]; [intros [= <- <-]; by left| |intros [= <- <-]; by left].
  destruct (empty df).
  { unfold bind at 1, Rich.logger at 1, Rich.emit at 1. cbn [fs trace].
    destruct (renders _); intros [= <- <-]; by left. }
  unfold bind at 1, Rich.logger at 1, Rich.emit at 1. cbn [fs trace].
  destruct (renders (Log INFO _)); [|intros [= <- <-]; by left].
  unfold bind at 1, lift at 1.
  destruct (preserve_numeric_precision df) as [e|dfp]; [intros [= <- <-]; by left|].
  unfold bind at 1. unfold write_excel.
  destruct (excel_write dfp) as [c|e c].
  2:{ unfold bind, write_file, raise. cbn [fs trace]. intros [= <- <-].
      right. exists x, c. split; [done|]. by left. }
  unfold write_file. cbn [fs trace].
  unfold bind at 1, Rich.logger at 1, Rich.emit at 1. cbn [fs trace].
  destruct (renders (Log SUCCESS _)).
  2:{ intros [= <- <-]. right. exists x, c. split; [done|]. by left. }
  unfold bind at 1.
  match goal with
  | |- context [Rich.validate_conversion p x ?w0] =>
      destruct (Rich.validate_conversion p x w0) as [rv [f2 t2]] eqn:Hval;
      pose proof (keeps_validate_conversion p x w0 _ _ Hval) as Hf2
  end.
  cbn [fs] in Hf2. subst f2.
  destruct rv as [e|v].
  { intros [= <- <-]. right. exists x, c. split; [done|]. by left. }
  unfold bind at 1, Rich.emit at 1. cbn [fs trace].
  destruct (renders (DisplayValidationResult _ _ _ _ _)).
  2:{ intros [= <- <-]. right. exists x, c. split; [done|]. by left. }
  destruct (is_valid v).
  - unfold bind at 1, unlink at 1. cbn [fs trace].
    destruct (<[x:=c]> f !! p) as [c0|] eqn:Hp.
    + unfold bind at 1, Rich.logger at 1, Rich.emit at 1. cbn [fs trace].
      destruct (renders (Log DIM (MsgRemovedOriginal (name p)))) eqn:Hline;
        intros [= <- <-]; right; exists x, c; (split; [done|]); right;
        (split; [done|]); [by left|right; eauto].
    + intros [= <- <-]. right. exists x, c. split; [done|]. by left.
  - unfold bind at 1, Rich.logger at 1, Rich.emit at 1. cbn [fs trace].
    destruct (renders _); intros [= <- <-]; right; exists x, c;
      (split; [done|]); by left.
Qed.

(** X19.  With the console in the picture [process_csv_file] raises nothing
    but MarkupError, on any path and any disk.  It changes no file of the
    disk other than the one it is given and the one named after it with the
    suffix ".xlsx" (the log file belongs to the console).  When it returns
    true the original is gone.  When it returns false the original is as it
    was, provided the two paths differ, unless the console refused the line
    that reports the removal: then the original is gone. *)
Theorem process_csv_file_is_confined (file_path : Path) (w : world) :
  exists r w',
    Rich.process_csv_file file_path w = (r, w')
    /\ (forall e, r = inl e -> exists msg, e = MarkupError msg)
    /\ (forall q, q <> file_path -> with_suffix file_path ".xlsx" <> inr q ->
          fs w' !! q = fs w !! q)
    /\ (r = inr true -> fs w' !! file_path = None)
    /\ (r = inr false -> with_suffix file_path ".xlsx" <> inr file_path ->
          fs w' !! file_path = fs w !! file_path
          \/ (fs w' !! file_path = None
              /\ renders (Log DIM (MsgRemovedOriginal (name file_path))) = false)).
Proof.
  destruct w as [f t]. cbn [fs].
  destruct (Rich.process_body file_path (World f t)) as [rb wb] eqn:Hbody.
  pose proof (rich_process_body_cases _ _ _ _ _ Hbody) as Hcases.
  assert (Hfinal : exists r w',
            Rich.process_csv_file file_path (World f t) = (r, w')
            /\ fs w' = fs wb
            /\ (forall e, r = inl e -> exists msg, e = MarkupError msg)
            /\ (r = inr true -> rb = inr true)
            /\ (rb = inr true -> r = inr true)).
  { unfold Rich.process_csv_file, try_except. rewrite Hbody.
    destruct rb as [e|b].
    - unfold bind, Rich.logger, Rich.emit, ret.
      destruct (renders (Log ERROR (MsgFailedToProcess (name file_path) e)));
        cbn [fs trace]; eexists; eexists; (split; [reflexivity|]);
        (split; [done|]); (split; [|done]); [done|intros e0 [= <-]; eauto].
    - eexists. eexists. split; [reflexivity|]. done. }
  destruct Hfinal as [r [w' [Hrun [Hfs [Hexn [Htrue Htrue']]]]]].
  exists r, w'. split; [exact Hrun|]. split; [exact Hexn|]. rewrite Hfs.
  destruct Hcases as [[Hb Hr]|[x [c [Hsfx [[Hb Hr]|[Hb Hr]]]]]]; rewrite Hb.
  - split; [done|]. split; [intros E; by apply Htrue in E|]. intros _ _. by left.
  - split; [intros q _ Hq; apply lookup_insert_ne; congruence|].
    split; [intros E; by apply Htrue in E|].
    intros _ Hp. left. apply lookup_insert_ne. congruence.
  - split.
    { intros q Hqp Hq. rewrite lookup_delete_ne by done.
      apply lookup_insert_ne. congruence. }
    split; [intros _; apply lookup_delete_eq|].
    intros Hfalse _. right. split; [apply lookup_delete_eq|].
    destruct Hr as [Hr|[_ Hline]]; [|done].
    apply Htrue' in Hr. congruence.
Qed.

End ConsoleProperties.

(** * Examples on the sample collaborators *)

(** ** The columns of the specification's examples *)

Example identifiers_stay_text :
  preserve_numeric_precision (libs := Sample.libs) [("code", Sample.identifiers)]
  = inr [("code", Sample.identifiers)].
Proof. vm_compute. reflexivity. Qed.

Example partly_numeric_stays_text :
  preserve_numeric_precision (libs := Sample.libs) [("x", Sample.partly_numeric)]
  = inr [("x", Sample.partly_numeric)].
Proof. vm_compute. reflexivity. Qed.

Example fractional_becomes_numeric :
  preserve_numeric_precision (libs := Sample.libs) [("x", Sample.fractional)]
  = inr [("x", Sample.floats [3 # 2; 9 # 4; 3 # 1])].
Proof. vm_compute. reflexivity. Qed.

(** ** The arithmetic of the sample check *)

(** [1e-6] against [-5e-23]: the difference rounds to [1e-6], which is not
    greater than the tolerance. *)
Example tiny_difference_is_rounded_away :
  cells_agree (libs := Sample.libs)
    (VFloat (round64 (1 # 1000000))) (VFloat (round64 (- 5 # 10 ^ 23))) = true.
Proof. vm_compute. reflexivity. Qed.

(** Two identifiers above [2 ^ 53] that differ by one are the same float. *)
Example large_identifiers_agree :
  cells_agree (libs := Sample.libs) (VInt (2 ^ 53)) (VInt (2 ^ 53 + 1)) = true.
Proof. vm_compute. reflexivity. Qed.

(** An integer beside a column of floats is read from the row as a float;
    beside a column of text it stays an integer. *)
Example integer_read_as_float :
  iloc_cell Gaps.measured 0 "t" = inr (VFloat (Ffin 1))
  /\ iloc_cell Sample.orders 0 "id" = inr (VInt 7).
Proof. split; vm_compute; reflexivity. Qed.

(** ** The files of the sample *)

Example latin_file_read_by_falling_through :
  exists w',
    read_csv_with_encoding (libs := Sample.libs) (Sample.in_downloads "latin.csv")
      Sample.downloads = (inr (Some Sample.stock), w')
    /\ standard_attempts (Sample.in_downloads "latin.csv") (trace w')
       = ["utf-8"; "latin-1"].
Proof. eexists. split; vm_compute; reflexivity. Qed.

Example ragged_file_read_by_relaxation :
  fst (read_csv_with_encoding (libs := Sample.libs)
         (Sample.in_downloads "ragged.csv") Sample.downloads)
  = inr (Some Sample.stock).
Proof. vm_compute. reflexivity. Qed.

Example empty_file_is_skipped :
  let run := process_csv_file (libs := Sample.libs)
               (Sample.in_downloads "empty.csv") Sample.downloads in
  run = (inr false, World (fs Sample.downloads) (trace (snd run))).
Proof. vm_compute. reflexivity. Qed.

(** ** The theorems at work *)


(** C2.  The code breaks the claim on the column ["1.5"; missing].  Its one
    value that is not missing coerces to 1.5, which has a fractional part,
    so the claim has the column replaced by [1.5; NaN].  The code leaves it
    as text: [astype(int)] raises IntCastingNaNError on the NaN before the
    comparison that is written to skip missing values
    ([numeric_col.notna() & ...]) is reached, and the handler of the column
    passes on to the next one. *)
Theorem fraction_with_gap_left_as_text :
  let s := Sample.fractional_with_gap in
  let df := [("price", s)] in
  (forall v, In v (values s) -> isna v = false ->
     notna (to_numeric_scalar (libs := Sample.libs) v) = true)
  /\ (exists v, In v (values s)
        /\ has_fraction (to_numeric_scalar (libs := Sample.libs) v) = true)
  /\ to_numeric (libs := Sample.libs) s
     = mkSeries float64 [VFloat (Ffin (3 # 2)); VFloat Fnan]
  /\ coerce_column (libs := Sample.libs) df "price" s = inl IntCastingNaNError
  /\ preserve_numeric_precision (libs := Sample.libs) df = inr df.
Proof.
  intros s df. split; [|split; [|split; [|split]]].
  - intros v [<-|[<-|[]]] Hna; [reflexivity|discriminate].
  - exists (VStr "1.5"). split; [simpl; tauto|reflexivity].
  - vm_compute. reflexivity.
  - vm_compute. reflexivity.
  - vm_compute. reflexivity.
Qed.

(** C10 on the same column: it stays text, and the body of the [try]
    raises IntCastingNaNError. *)
Lemma column_with_gap_left_as_text :
  left_as_text (libs := Sample.libs) [("price", Sample.fractional_with_gap)]
    "price" Sample.fractional_with_gap
  /\ coerce_column (libs := Sample.libs) [("price", Sample.fractional_with_gap)]
       "price" Sample.fractional_with_gap = inl IntCastingNaNError.
Proof.
  destruct (missing_value_keeps_text (libs := Sample.libs)
              [("price", Sample.fractional_with_gap)] "price"
              Sample.fractional_with_gap)
    as [Hleft [_ [_ Hraise]]].
  - repeat constructor. simpl. tauto.
  - simpl. tauto.
  - reflexivity.
  - exists (VFloat Fnan). split; [simpl; tauto|reflexivity].
  - intros v [<-|[<-|[]]] Hna; [reflexivity|discriminate].
  - split; [exact Hleft|]. apply Hraise.
    exists (VStr "1.5"). split; [simpl; tauto|reflexivity].
Defined.

(** C4.  The code breaks the claim on a source whose column is called
    "a[/b]" and a produced file without a column of that name.  The dtype
    loop raises KeyError on the lookup in the produced table; the handler
    logs "Validation error: 'a[/b]'" through the console, which refuses
    the line: its closing tag matches no open tag.  MarkupError leaves
    [validate_conversion], where the claim has the all-false result
    returned. *)
Theorem validate_conversion_raises_on_closing_tag :
  let line := Log ERROR (MsgValidationError (KeyError "a[/b]")) in
  fst (Rich.validate_body (libs := Tagged.libs) (console := Tagged.console)
         Tagged.source Tagged.produced Tagged.downloads)
  = inl (KeyError "a[/b]")
  /\ renders (Console := Tagged.console) line = false
  /\ fst (Rich.validate_conversion (libs := Tagged.libs) (console := Tagged.console)
            Tagged.source Tagged.produced Tagged.downloads)
     = inl (MarkupError
              "closing tag '[/b]' at position 27 doesn't match any open tag").
Proof. intros line. split; [|split]; vm_compute; reflexivity. Qed.

(** C3 on "ragged.csv": the standard parse reports a field count, the first
    strategy fails too, the second one parses the file. *)
Lemma ragged_file_read_by_second_relaxation :
  exists evs,
    read_loop (libs := Sample.libs) (Sample.in_downloads "ragged.csv") ["ascii"]
      Sample.downloads
    = (inr (Some Sample.stock), World (fs Sample.downloads) evs)
    /\ csv_calls (Sample.in_downloads "ragged.csv") evs
       = [standard_args "ascii";
          mkArgs "ascii" "python" "skip" QUOTE_MINIMAL ",";
          mkArgs "ascii" "python" "warn" QUOTE_MINIMAL ","].
Proof.
  destruct (malformed_parse_tries_relaxations (libs := Sample.libs)
              (Sample.in_downloads "ragged.csv") "ascii" [] [Byte.x03]
              Sample.ragged_msg (fs Sample.downloads) [])
    as [_ [_ [Hfirst _]]].
  - vm_compute. reflexivity.
  - reflexivity.
  - vm_compute. reflexivity.
  - destruct (Hfirst [mkArgs "ascii" "python" "skip" QUOTE_MINIMAL ","]
                (mkArgs "ascii" "python" "warn" QUOTE_MINIMAL ",")
                [mkArgs "ascii" "c" "error" QUOTE_ALL ",";
                 mkArgs "ascii" "c" "error" QUOTE_NONE ",";
                 mkArgs "ascii" "python" "warn" QUOTE_ALL ","]
                Sample.stock) as [evs [Hrun Hcalls]].
    + reflexivity.
    + repeat constructor.
    + reflexivity.
    + exists evs. split; [exact Hrun|exact Hcalls].
Defined.



(** C6 on "orders.csv": the guess "ascii" comes with confidence 1. *)
Lemma ascii_guess_is_returned :
  fst (detect_file_encoding (libs := Sample.libs) (Sample.in_downloads "orders.csv")
         default_sample_size Sample.downloads) = inr "ascii".
Proof.
  destruct (detect_file_encoding_policy (libs := Sample.libs)
              (Sample.in_downloads "orders.csv") default_sample_size
              Sample.downloads [Byte.x01]) as [_ [Hhigh _]].
  - vm_compute. reflexivity.
  - apply Hhigh.
    + reflexivity.
    + discriminate.
    + reflexivity.
Defined.

(** C7 on "latin.csv": the guess has low confidence, so the list starts
    with the default, which is not repeated; the reader tries "utf-8", which
    fails, then "latin-1", which reads the file, and no further encoding. *)
Lemma latin_candidates_in_order :
  candidate_encodings (encoding_policy (Sample.detect [Byte.x04]))
  = ["utf-8"; "latin-1"; "cp1252"; "iso-8859-1"]
  /\ exists ev0 evs,
       read_csv_with_encoding (libs := Sample.libs)
         (Sample.in_downloads "latin.csv") Sample.downloads
       = (inr (Some Sample.stock), World (fs Sample.downloads) (ev0 :: evs))
       /\ standard_attempts (Sample.in_downloads "latin.csv") evs
          = ["utf-8"; "latin-1"].
Proof.
  destruct (candidate_encodings_in_order (libs := Sample.libs)
              (Sample.in_downloads "latin.csv") (fs Sample.downloads) [] [Byte.x04])
    as [Hcand [_ [_ [_ [r [ev0 [evs [Hrun [Hr [Hatt _]]]]]]]]]].
  - vm_compute. reflexivity.
  - cbv zeta in Hcand, Hrun, Hr, Hatt. split.
    + etransitivity; [exact Hcand|]. vm_compute. reflexivity.
    + exists ev0, evs. split.
      * etransitivity; [exact Hrun|]. rewrite Hr. vm_compute. reflexivity.
      * etransitivity; [exact Hatt|]. vm_compute. reflexivity.
Defined.

(** C8 on "headers.csv", a header line without data rows. *)
Lemma headers_only_file_skipped :
  exists w',
    process_csv_file (libs := Sample.libs) (Sample.in_downloads "headers.csv")
      Sample.downloads = (inr false, w')
    /\ fs w' = fs Sample.downloads.
Proof.
  apply (process_csv_file_skips_empty (libs := Sample.libs)
           (Sample.in_downloads "headers.csv") Sample.downloads
           (snd (read_csv_with_encoding (libs := Sample.libs)
                   (Sample.in_downloads "headers.csv") Sample.downloads))
           (inr (Some Sample.headers_only))).
  - vm_compute. reflexivity.
  - right. right. exists Sample.headers_only. split; reflexivity.
Defined.

(** ** The further properties at work *)

(** X1 on two files that share their first byte. *)
Lemma detection_ignores_the_tail :
  fst (detect_file_encoding (libs := Sample.libs) (Sample.in_downloads "a.csv") 1%N
         (World {[ Sample.in_downloads "a.csv" := [Byte.x01; Byte.x02] ]} []))
  = fst (detect_file_encoding (libs := Sample.libs) (Sample.in_downloads "b.csv") 1%N
           (World {[ Sample.in_downloads "b.csv" := [Byte.x01; Byte.x03; Byte.x04] ]} [])).
Proof.
  apply (detection_reads_the_sample_only (libs := Sample.libs)
           (Sample.in_downloads "a.csv") (Sample.in_downloads "b.csv")
           (World {[ Sample.in_downloads "a.csv" := [Byte.x01; Byte.x02] ]} [])
           (World {[ Sample.in_downloads "b.csv" := [Byte.x01; Byte.x03; Byte.x04] ]} [])
           [Byte.x01] [Byte.x02] [Byte.x03; Byte.x04]).
  - vm_compute. reflexivity.
  - vm_compute. reflexivity.
Defined.

(** X2 on "latin.csv": the guess is not trusted, the answer is "utf-8". *)
Lemma latin_file_detected_as_utf8 :
  exists w',
    detect_file_encoding (libs := Sample.libs) (Sample.in_downloads "latin.csv")
      default_sample_size Sample.downloads = (inr "utf-8", w').
Proof.
  destruct (detected_encoding_not_empty (libs := Sample.libs)
              (Sample.in_downloads "latin.csv") default_sample_size
              Sample.downloads [Byte.x04])
    as [enc [w' [Hrun [_ [_ [Henc|Henc]]]]]].
  - vm_compute. reflexivity.
  - exists w'. by rewrite Hrun, Henc.
  - vm_compute in Henc. inversion Henc; subst enc.
    vm_compute in Hrun. discriminate Hrun.
Defined.

(** X3 on "latin.csv". *)
Lemma latin_file_first_success :
  exists w',
    read_csv_with_encoding (libs := Sample.libs) (Sample.in_downloads "latin.csv")
      Sample.downloads = (inr (Some Sample.stock), w')
    /\ fs w' = fs Sample.downloads.
Proof.
  destruct (reader_is_first_success (libs := Sample.libs)
              (Sample.in_downloads "latin.csv") Sample.downloads [Byte.x04])
    as [w' [Hrun Hfs]].
  - vm_compute. reflexivity.
  - exists w'. split; [|exact Hfs]. rewrite Hrun. reflexivity.
Defined.

(** X4 on a file that is not there. *)
Lemma absent_file_raises :
  read_csv_with_encoding (libs := Sample.libs) (Sample.in_downloads "gone.csv")
    Sample.downloads = (inl FileNotFoundError, Sample.downloads).
Proof.
  apply (reader_missing_file (libs := Sample.libs)
           (Sample.in_downloads "gone.csv") Sample.downloads).
  vm_compute. reflexivity.
Defined.

(** X5 on "ragged.csv". *)
Lemma ragged_table_is_a_parse :
  exists a,
    pd_read_csv (Libs := Sample.libs) [Byte.x03] a = inr Sample.stock
    /\ In (encoding a) (claimed_candidates (libs := Sample.libs) [Byte.x03])
    /\ (a = standard_args (encoding a) \/ In a (map snd (strategies (encoding a)))).
Proof.
  apply (reader_returns_a_parse (libs := Sample.libs)
           (Sample.in_downloads "ragged.csv") Sample.downloads
           (snd (read_csv_with_encoding (libs := Sample.libs)
                   (Sample.in_downloads "ragged.csv") Sample.downloads))
           [Byte.x03] Sample.stock).
  - vm_compute. reflexivity.
  - vm_compute. reflexivity.
Defined.

(** X6 on "empty.csv". *)
Lemma empty_file_gives_no_table :
  fst (read_csv_with_encoding (libs := Sample.libs) (Sample.in_downloads "empty.csv")
         Sample.downloads) = inr None.
Proof.
  apply (reader_fails_iff (libs := Sample.libs)
           (Sample.in_downloads "empty.csv") Sample.downloads []).
  - vm_compute. reflexivity.
  - intros enc _. split; [reflexivity|]. intros msg Hmsg. discriminate Hmsg.
Defined.

(** X7 on "ragged.csv". *)
Lemma ragged_relaxation_follows_field_count :
  exists msg,
    pd_read_csv (Libs := Sample.libs) [Byte.x03] (standard_args "ascii")
    = inl (ParserError msg)
    /\ expected_fields msg = true.
Proof.
  destruct (relaxations_only_after_field_count (libs := Sample.libs)
              (Sample.in_downloads "ragged.csv") (fs Sample.downloads) [] [Byte.x03]
              (snd (read_csv_with_encoding (libs := Sample.libs)
                      (Sample.in_downloads "ragged.csv") Sample.downloads))
              (inr (Some Sample.stock))
              (mkArgs "ascii" "python" "skip" QUOTE_MINIMAL ","))
    as [msg [Hstd [Hexp _]]].
  - vm_compute. reflexivity.
  - vm_compute. reflexivity.
  - vm_compute. tauto.
  - reflexivity.
  - exists msg. split; [exact Hstd|exact Hexp].
Defined.

(** X8 on "latin.csv". *)
Lemma latin_file_call_bound :
  (length (csv_calls (Sample.in_downloads "latin.csv")
             (trace (snd (read_csv_with_encoding (libs := Sample.libs)
                            (Sample.in_downloads "latin.csv") Sample.downloads))))
   <= 30)%nat.
Proof.
  apply (reader_call_bound (libs := Sample.libs)
           (Sample.in_downloads "latin.csv") (fs Sample.downloads) []
           (inr (Some Sample.stock))
           (snd (read_csv_with_encoding (libs := Sample.libs)
                   (Sample.in_downloads "latin.csv") Sample.downloads))).
  vm_compute. reflexivity.
Defined.

(** X9 on a table of one text column. *)
Lemma fractional_table_keeps_shape :
  exists df',
    preserve_numeric_precision (libs := Sample.libs) [("price", Sample.fractional)]
    = inr df'
    /\ columns df' = ["price"]
    /\ shape df' = (3%nat, 1%nat).
Proof.
  destruct (preserve_numeric_precision_keeps_shape (libs := Sample.libs)
              [("price", Sample.fractional)])
    as [df' [Hrun [Hcols [Hshape _]]]].
  - repeat constructor. simpl. tauto.
  - exists df'. split; [exact Hrun|]. split; [exact Hcols|exact Hshape].
Defined.

(** X10 on the same table. *)
Lemma normalised_table_is_fixed :
  preserve_numeric_precision (libs := Sample.libs)
    [("price", Sample.floats [3 # 2; 9 # 4; 3 # 1])]
  = inr [("price", Sample.floats [3 # 2; 9 # 4; 3 # 1])].
Proof.
  apply (preserve_numeric_precision_idempotent (libs := Sample.libs)
           [("price", Sample.fractional)]).
  - repeat constructor. simpl. tauto.
  - vm_compute. reflexivity.
Defined.

(** X11 on a table with the name "a" twice. *)
Lemma twice_named_table_raises :
  preserve_numeric_precision (libs := Sample.libs)
    [("a", Sample.ints [1]); ("a", Sample.ints [2])]
  = inl AttributeError.
Proof.
  apply (preserve_numeric_precision_duplicate_names (libs := Sample.libs)).
  intros Hnd. inversion Hnd as [|? ? Hn _]. apply Hn. simpl. tauto.
Defined.

(** X12 on the identifiers "007", "042", "100". *)
Lemma identifiers_left_as_text :
  left_as_text (libs := Sample.libs) [("code", Sample.identifiers)] "code"
    Sample.identifiers.
Proof.
  apply (integer_text_stays_text (libs := Sample.libs)
           [("code", Sample.identifiers)] "code" Sample.identifiers).
  - repeat constructor. simpl. tauto.
  - simpl. tauto.
  - reflexivity.
  - intros v [<-|[<-|[<-|[]]]]; [exists 7|exists 42|exists 100];
      split; reflexivity.
Defined.

(** X13 on the column "1.5", "2.0", "bad". *)
Lemma partly_numeric_left_as_text :
  left_as_text (libs := Sample.libs) [("x", Sample.partly_numeric)] "x"
    Sample.partly_numeric.
Proof.
  apply (non_finite_value_keeps_text (libs := Sample.libs)
           [("x", Sample.partly_numeric)] "x" Sample.partly_numeric).
  - repeat constructor. simpl. tauto.
  - simpl. tauto.
  - reflexivity.
  - exists (VStr "bad"). split; [simpl; tauto|reflexivity].
Defined.

(** X14 on the column "1.5", "2.25", "3.0": it becomes float64. *)
Lemma fractional_column_holds_floats :
  to_numeric (libs := Sample.libs) Sample.fractional
  = Sample.floats [3 # 2; 9 # 4; 3 # 1].
Proof.
  destruct (replaced_column_is_numeric (libs := Sample.libs)
              [("price", Sample.fractional)] "price" Sample.fractional)
    as [[Hcol _]|[Hcol _]].
  - repeat constructor. simpl. tauto.
  - simpl. tauto.
  - reflexivity.
  - exists [("price", Sample.floats [3 # 2; 9 # 4; 3 # 1])].
    split; vm_compute; reflexivity.
  - rewrite Hcol. vm_compute. reflexivity.
  - vm_compute in Hcol. discriminate Hcol.
Defined.

(** X22 on the column "9223372036854775808", "1": both read as integers
    and it is replaced by a uint64 column. *)
Lemma large_identifiers_replaced :
  preserve_numeric_precision (libs := Sample.libs)
    [("id", Sample.large_identifiers)]
  = inr [("id", mkSeries uint64 [VInt (2 ^ 63); VInt 1])].
Proof.
  destruct (large_integer_text_becomes_uint64 (libs := Sample.libs)
              [("id", Sample.large_identifiers)] "id" Sample.large_identifiers)
    as [[df' [Hrun Hcol]] Hnum].
  - repeat constructor. simpl. tauto.
  - simpl. tauto.
  - reflexivity.
  - intros v [<-|[<-|[]]]; [exists (2 ^ 63)|exists 1]; split; (reflexivity || done).
  - exists (VStr "9223372036854775808"), (2 ^ 63).
    split; [simpl; tauto|]. split; reflexivity.
  - vm_compute. reflexivity.
Defined.


(** X16 on "orders.csv" and the workbook produced from it. *)
Lemma orders_workbook_is_valid :
  exists v w',
    validate_conversion (libs := Sample.libs) (Sample.in_downloads "orders.csv")
      (Sample.in_downloads "orders.xlsx") downloads_with_orders = (inr v, w')
    /\ is_valid v = true.
Proof.
  apply (same_table_is_valid (libs := Sample.libs)
           (Sample.in_downloads "orders.csv") (Sample.in_downloads "orders.xlsx")
           downloads_with_orders
           (snd (read_csv_with_encoding (libs := Sample.libs)
                   (Sample.in_downloads "orders.csv") downloads_with_orders))
           Sample.orders [Byte.x10]).
  - vm_compute. reflexivity.
  - vm_compute. reflexivity.
  - reflexivity.
  - split; [repeat constructor; simpl; intuition discriminate|].
    intros c [<-|[<-|[<-|[]]]]; reflexivity.
Defined.


(** X18 on "stock.csv" and a workbook that is not there. *)
Lemma absent_workbook_is_invalid :
  exists w',
    validate_conversion (libs := Sample.libs) (Sample.in_downloads "stock.csv")
      (Sample.in_downloads "missing.xlsx") Sample.downloads = (inr all_false, w')
    /\ fs w' = fs Sample.downloads.
Proof.
  apply (unreadable_artifact_is_invalid (libs := Sample.libs)
           (Sample.in_downloads "stock.csv") (Sample.in_downloads "missing.xlsx")
           Sample.downloads
           (snd (read_csv_with_encoding (libs := Sample.libs)
                   (Sample.in_downloads "stock.csv") Sample.downloads))
           Sample.stock).
  - vm_compute. reflexivity.
  - left. vm_compute. reflexivity.
Defined.

(** X20 on "orders.csv". *)
Lemma orders_workbook_reads_back :
  exists (df_xlsx : DataFrame) (artifact : bytes),
    fs (snd (process_csv_file (libs := Sample.libs)
               (Sample.in_downloads "orders.csv") Sample.downloads))
    = delete (Sample.in_downloads "orders.csv")
        (<[Sample.in_downloads "orders.xlsx" := artifact]> (fs Sample.downloads))
    /\ pd_read_excel (Libs := Sample.libs) artifact = inr df_xlsx
    /\ shape df_xlsx = shape Sample.orders
    /\ columns df_xlsx = columns Sample.orders.
Proof.
  destruct (converted_file_reads_back (libs := Sample.libs)
              (Sample.in_downloads "orders.csv") Sample.downloads
              (snd (process_csv_file (libs := Sample.libs)
                      (Sample.in_downloads "orders.csv") Sample.downloads)))
    as [x [df [df_xlsx [artifact [Hx [Hread [_ [Hfs [Hexcel [_ [Hs Hc]]]]]]]]]]].
  - reflexivity.
  - vm_compute. reflexivity.
  - vm_compute in Hx. inversion Hx; subst x.
    vm_compute in Hread. inversion Hread; subst df.
    exists df_xlsx, artifact. split; [exact Hfs|]. split; [exact Hexcel|].
    split; [exact Hs|exact Hc].
Defined.

(** X21 on "orders.csv": the second run returns false and changes nothing. *)
Lemma orders_second_run :
  exists w'',
    process_csv_file (libs := Sample.libs) (Sample.in_downloads "orders.csv")
      (snd (process_csv_file (libs := Sample.libs)
              (Sample.in_downloads "orders.csv") Sample.downloads))
    = (inr false, w'')
    /\ fs w''
       = fs (snd (process_csv_file (libs := Sample.libs)
                    (Sample.in_downloads "orders.csv") Sample.downloads)).
Proof.
  apply (second_run_changes_nothing (libs := Sample.libs)
           (Sample.in_downloads "orders.csv") Sample.downloads).
  vm_compute. reflexivity.
Defined.
